(** * Apollo scraper payment pipeline: checkout, Stripe webhook, actor glue

    A shallow embedding of the three JavaScript endpoints of the repository
    (the configuration endpoint, the checkout-session endpoint and the Stripe
    webhook) and of the actor's [cleanData] helper, together with the
    properties the specification states about them.

    Conventions.
    - A JavaScript string is the list of its UTF-16 code units ([jsstring]).
    - A byte buffer is a list of integers in [0, 256).
    - A JavaScript object used as a dictionary (Stripe metadata,
      [process.env], the two directories under /tmp) is a [gmap].
    - Functions that log, touch the file system or call the network are
      programs of a small free monad [Prog]; an interpreter runs them on a
      [World] and records every effect in a trace. *)

From Stdlib Require Import ZArith Lia Ascii String.
From stdpp Require Import prelude strings gmap.

Local Open Scope Z_scope.
Set Warnings "-register-all".

(* ================================================================== *)
(** * JavaScript strings                                               *)
(* ================================================================== *)

Module JsString.

(** UTF-16 code units, each in [0, 65536). *)
Definition jsstring := list Z.

Definition code_unit (u : Z) : Prop := 0 <= u < 65536.

(** A string literal of the source, as code units. *)
Fixpoint js (s : string) : jsstring :=
  match s with
  | EmptyString => []
  | String a r => Z.of_nat (nat_of_ascii a) :: js r
  end.

(** [!!s] for a string: the empty string is the only falsy one. *)
Definition truthy (s : jsstring) : bool :=
  match s with [] => false | _ :: _ => true end.

(** [s || undefined] for a string that may be undefined: the string when it
    is truthy. *)
Definition option_truthy (s : option jsstring) : option jsstring :=
  match s with
  | Some t => if truthy t then Some t else None
  | None => None
  end.

(** [s.substring(0, n)] for [n >= 0]. *)
Definition substring0 (n : nat) (s : jsstring) : jsstring := take n s.

(** [s.slice(i, j)] for [0 <= i <= j]. *)
Definition slice (i j : nat) (s : jsstring) : jsstring :=
  take (j - i) (drop i s).

(** [s.includes(t)]. *)
Fixpoint starts_with (t s : jsstring) : bool :=
  match t, s with
  | [], _ => true
  | _ :: _, [] => false
  | a :: t', b :: s' => (a =? b) && starts_with t' s'
  end.

Fixpoint includes (t s : jsstring) : bool :=
  starts_with t s ||
  match s with
  | [] => false
  | _ :: s' => includes t s'
  end.

Definition is_digit (c : Z) : bool := (48 <=? c) && (c <=? 57).

(** [n.toString()] for a non-negative integer [n]: the digits are produced
    from the least significant one; [fuel] bounds the number of digits. *)
Fixpoint digits_from (fuel : nat) (n : Z) (acc : jsstring) : jsstring :=
  match fuel with
  | O => acc
  | S f =>
      let acc' := (48 + n mod 10) :: acc in
      if n <? 10 then acc' else digits_from f (n / 10) acc'
  end.

(** A number has no more decimal digits than binary ones. *)
Definition digit_bound (n : Z) : nat := S (Z.to_nat (Z.log2 n)).

(** [n.toString()] for an integer [n] (the sign first). *)
Definition number_toString (n : Z) : jsstring :=
  if n <? 0 then 45 :: digits_from (digit_bound (- n)) (- n) []
  else digits_from (digit_bound n) n [].

(** ECMAScript white space and line terminators, stripped by [parseInt]. *)
Definition is_whitespace (c : Z) : bool :=
  ((9 <=? c) && (c <=? 13)) || (c =? 32) || (c =? 160) || (c =? 0x1680)
  || ((0x2000 <=? c) && (c <=? 0x200A)) || (c =? 0x2028) || (c =? 0x2029)
  || (c =? 0x202F) || (c =? 0x205F) || (c =? 0x3000) || (c =? 0xFEFF).

Fixpoint skip_whitespace (s : jsstring) : jsstring :=
  match s with
  | c :: r => if is_whitespace c then skip_whitespace r else s
  | [] => []
  end.

Definition hex_value (c : Z) : option Z :=
  if is_digit c then Some (c - 48)
  else if (97 <=? c) && (c <=? 102) then Some (c - 87)
  else if (65 <=? c) && (c <=? 70) then Some (c - 55)
  else None.

Definition dec_value (c : Z) : option Z :=
  if is_digit c then Some (c - 48) else None.

(** The longest prefix of digits of the radix, accumulated left to right;
    [None] when the prefix is empty. *)
Fixpoint parse_digits (radix : Z) (value : Z -> option Z)
    (s : jsstring) (acc : option Z) : option Z :=
  match s with
  | [] => acc
  | c :: r =>
      match value c with
      | Some d => parse_digits radix value r (Some (default 0 acc * radix + d))
      | None => acc
      end
  end.

(** [parseInt(s)] without a radix argument; [None] is NaN.  Values are exact
    integers: the rounding of JavaScript numbers beyond 2^53 is not modelled. *)
Definition parseInt (s : jsstring) : option Z :=
  let s1 := skip_whitespace s in
  let '(sign, s2) :=
    match s1 with
    | c :: r =>
        if c =? 45 then (-1, r) else if c =? 43 then (1, r) else (1, s1)
    | [] => (1, s1)
    end in
  let magnitude :=
    match s2 with
    | c1 :: c2 :: r =>
        if (c1 =? 48) && ((c2 =? 120) || (c2 =? 88))
        then parse_digits 16 hex_value r None
        else parse_digits 10 dec_value s2 None
    | _ => parse_digits 10 dec_value s2 None
    end in
  (fun m => sign * m) <$> magnitude.

End JsString.
Export JsString.

(* ================================================================== *)
(** * Buffers: UTF-8 and base64, as Node's [Buffer] converts them      *)
(* ================================================================== *)

Module Buffer.

Definition byte (b : Z) : Prop := 0 <= b < 256.

Definition in_range (lo hi x : Z) : bool := (lo <=? x) && (x <=? hi).

Definition is_high_surrogate (u : Z) : bool := in_range 0xD800 0xDBFF u.
Definition is_low_surrogate (u : Z) : bool := in_range 0xDC00 0xDFFF u.

(** A string is well formed when every surrogate code unit belongs to a
    high-low pair. *)
Fixpoint well_formed (s : jsstring) : bool :=
  match s with
  | [] => true
  | u :: rest =>
      if is_high_surrogate u then
        match rest with
        | l :: rest' => is_low_surrogate l && well_formed rest'
        | [] => false
        end
      else negb (is_low_surrogate u) && well_formed rest
  end.

(** U+FFFD in UTF-8, written for every unpaired surrogate. *)
Definition replacement_bytes : list Z := [0xEF; 0xBF; 0xBD].

Definition utf8_bytes3 (u : Z) : list Z :=
  [0xE0 + u / 4096; 0x80 + (u / 64) mod 64; 0x80 + u mod 64].

Definition utf8_bytes4 (cp : Z) : list Z :=
  [0xF0 + cp / 262144; 0x80 + (cp / 4096) mod 64;
   0x80 + (cp / 64) mod 64; 0x80 + cp mod 64].

(** [Buffer.from(s)] (encoding 'utf8'). *)
Fixpoint utf8_encode (s : jsstring) : list Z :=
  match s with
  | [] => []
  | u :: rest =>
      if u <? 0x80 then u :: utf8_encode rest
      else if u <? 0x800 then
        (0xC0 + u / 64) :: (0x80 + u mod 64) :: utf8_encode rest
      else if is_high_surrogate u then
        match rest with
        | l :: rest' =>
            if is_low_surrogate l then
              utf8_bytes4 (0x10000 + (u - 0xD800) * 0x400 + (l - 0xDC00))
                ++ utf8_encode rest'
            else replacement_bytes ++ utf8_encode rest
        | [] => replacement_bytes
        end
      else if is_low_surrogate u then replacement_bytes ++ utf8_encode rest
      else utf8_bytes3 u ++ utf8_encode rest
  end.

Definition is_cont (b : Z) : bool := in_range 0x80 0xBF b.

(** Bounds on the second byte of a three- or four-byte sequence (they
    exclude overlong forms, surrogates and code points above U+10FFFF). *)
Definition second_lo (b1 : Z) : Z :=
  if b1 =? 0xE0 then 0xA0 else if b1 =? 0xF0 then 0x90 else 0x80.
Definition second_hi (b1 : Z) : Z :=
  if b1 =? 0xED then 0x9F else if b1 =? 0xF4 then 0x8F else 0xBF.

(** A code point above U+FFFF as its surrogate pair. *)
Definition surrogate_pair (cp : Z) : jsstring :=
  [0xD800 + (cp - 0x10000) / 0x400; 0xDC00 + (cp - 0x10000) mod 0x400].

(** [buf.toString()] (encoding 'utf8'): every maximal ill-formed
    subsequence becomes one U+FFFD. *)
Fixpoint utf8_decode (bs : list Z) : jsstring :=
  match bs with
  | [] => []
  | b1 :: r1 =>
      if b1 <? 0x80 then b1 :: utf8_decode r1
      else if in_range 0xC2 0xDF b1 then
        match r1 with
        | b2 :: r2 =>
            if is_cont b2
            then ((b1 - 0xC0) * 64 + (b2 - 0x80)) :: utf8_decode r2
            else 0xFFFD :: utf8_decode r1
        | [] => [0xFFFD]
        end
      else if in_range 0xE0 0xEF b1 then
        match r1 with
        | b2 :: r2 =>
            if in_range (second_lo b1) (second_hi b1) b2 then
              match r2 with
              | b3 :: r3 =>
                  if is_cont b3
                  then ((b1 - 0xE0) * 4096 + (b2 - 0x80) * 64 + (b3 - 0x80))
                         :: utf8_decode r3
                  else 0xFFFD :: utf8_decode r2
              | [] => [0xFFFD]
              end
            else 0xFFFD :: utf8_decode r1
        | [] => [0xFFFD]
        end
      else if in_range 0xF0 0xF4 b1 then
        match r1 with
        | b2 :: r2 =>
            if in_range (second_lo b1) (second_hi b1) b2 then
              match r2 with
              | b3 :: r3 =>
                  if is_cont b3 then
                    match r3 with
                    | b4 :: r4 =>
                        if is_cont b4
                        then surrogate_pair
                               ((b1 - 0xF0) * 262144 + (b2 - 0x80) * 4096
                                + (b3 - 0x80) * 64 + (b4 - 0x80))
                               ++ utf8_decode r4
                        else 0xFFFD :: utf8_decode r3
                    | [] => [0xFFFD]
                    end
                  else 0xFFFD :: utf8_decode r2
              | [] => [0xFFFD]
              end
            else 0xFFFD :: utf8_decode r1
        | [] => [0xFFFD]
        end
      else 0xFFFD :: utf8_decode r1
  end.

(** The base64 alphabet. *)
Definition b64_char (v : Z) : Z :=
  if v <? 26 then 65 + v
  else if v <? 52 then 97 + (v - 26)
  else if v <? 62 then 48 + (v - 52)
  else if v =? 62 then 43
  else 47.

(** [buf.toString('base64')]: three bytes give four characters, the last
    group is padded with '='. *)
Fixpoint base64_encode (bs : list Z) : jsstring :=
  match bs with
  | [] => []
  | [b1] => [b64_char (b1 / 4); b64_char (b1 mod 4 * 16); 61; 61]
  | [b1; b2] =>
      [b64_char (b1 / 4); b64_char (b1 mod 4 * 16 + b2 / 16);
       b64_char (b2 mod 16 * 4); 61]
  | b1 :: b2 :: b3 :: rest =>
      [b64_char (b1 / 4); b64_char (b1 mod 4 * 16 + b2 / 16);
       b64_char (b2 mod 16 * 4 + b3 / 64); b64_char (b3 mod 64)]
        ++ base64_encode rest
  end.

(** Node's decoding table: both the standard and the URL-safe alphabet. *)
Definition unbase64 (c : Z) : option Z :=
  if in_range 65 90 c then Some (c - 65)
  else if in_range 97 122 c then Some (c - 97 + 26)
  else if in_range 48 57 c then Some (c - 48 + 52)
  else if (c =? 43) || (c =? 45) then Some 62
  else if (c =? 47) || (c =? 95) then Some 63
  else None.

(** The six-bit values of a base64 text: characters outside the alphabet are
    skipped and the first '=' ends the text. *)
Fixpoint b64_sextets (s : jsstring) : list Z :=
  match s with
  | [] => []
  | c :: r =>
      if c =? 61 then []
      else match unbase64 c with
           | Some v => v :: b64_sextets r
           | None => b64_sextets r
           end
  end.

Fixpoint b64_bytes (vs : list Z) : list Z :=
  match vs with
  | v1 :: v2 :: v3 :: v4 :: r =>
      (v1 * 4 + v2 / 16) :: (v2 mod 16 * 16 + v3 / 4) :: (v3 mod 4 * 64 + v4)
        :: b64_bytes r
  | [v1; v2; v3] => [v1 * 4 + v2 / 16; v2 mod 16 * 16 + v3 / 4]
  | [v1; v2] => [v1 * 4 + v2 / 16]
  | _ => []
  end.

(** [Buffer.from(s, 'base64')]. *)
Definition base64_decode (s : jsstring) : list Z := b64_bytes (b64_sextets s).

End Buffer.
Export Buffer.


(* ================================================================== *)
(** * Values, the world and the effects of the endpoints               *)
(* ================================================================== *)

Module Effects.

(** JSON-like JavaScript values (request and response bodies, stored
    records).  Numbers are integers; floating point is not modelled. *)
Inductive value :=
| VUndefined
| VNull
| VBool (b : bool)
| VNum (n : Z)
| VStr (s : jsstring)
| VArr (items : list value)
| VObj (props : list (jsstring * value)).

(** [!!v]. *)
Definition truthy_value (v : value) : bool :=
  match v with
  | VUndefined | VNull => false
  | VBool b => b
  | VNum n => negb (n =? 0)
  | VStr s => truthy s
  | VArr _ | VObj _ => true
  end.

(** [v === s] for a string literal [s]: only a string equals a string. *)
Definition strict_eq_str (v : value) (s : jsstring) : bool :=
  match v with
  | VStr t => bool_decide (t = s)
  | _ => false
  end.

Fixpoint lookup_prop (key : jsstring) (props : list (jsstring * value))
    : value :=
  match props with
  | [] => VUndefined
  | (k, v) :: rest => if bool_decide (k = key) then v else lookup_prop key rest
  end.

(** [obj.key] on a parsed JSON value; [None] when the access throws (the
    receiver is null or undefined). *)
Definition get_prop (key : jsstring) (v : value) : option value :=
  match v with
  | VUndefined | VNull => None
  | VObj props => Some (lookup_prop key props)
  | _ => Some VUndefined
  end.

(** [parseInt(v)] for a number or a string. *)
Definition parseInt_value (v : value) : option Z :=
  match v with
  | VNum n => Some n
  | VStr s => parseInt s
  | _ => None
  end.

Inductive LogLevel := ConsoleLog | ConsoleWarn | ConsoleError.

(** The files the endpoints touch: [path.join(TEMP_DIR, sessionId + ".json")]
    and [path.join(PROCESSED_DIR, sessionId + ".processed")], keyed by the
    session identifier (an opaque token without path separators). *)
Inductive Path :=
| TEMP_DIR
| TempFile (sessionId : jsstring)
| PROCESSED_DIR
| ProcessedFile (sessionId : jsstring).

(** The record [storeApolloUrl] serialises (and [JSON.parse] gives back). *)
Record StoredOrder := {
  so_apolloUrl : jsstring;
  so_email : jsstring;
  so_leads : Z;
  so_cleanOutput : value;
  so_timestamp : jsstring;
}.

(** The record [markSessionProcessed] serialises. *)
Record ProcessedMarker := {
  pm_sessionId : jsstring;
  pm_processedAt : jsstring;
  pm_timestamp : Z;
}.

(** The body of the request to the Apify actor. *)
Record JobPayload := {
  job_url : jsstring;
  job_totalRecords : option Z;     (* [None] is NaN *)
  job_fileName : jsstring;
  job_email : jsstring;
  job_cleanOutput : bool;
}.

(** The body of the request to the e-mail webhook. *)
Record EmailPayload := {
  mail_email : jsstring;
  mail_leadCount : option Z;
  mail_apolloUrl : jsstring;
  mail_timestamp : jsstring;
  mail_fileName : jsstring;
}.

(** What [fetch] can give: a rejected promise, or a response with its
    [ok] flag, status and body ([None]: the body is not JSON). *)
Inductive FetchResult :=
| FetchRejected
| FetchResponse (ok : bool) (status : Z) (body : option value).

(** The parameters of [stripe.checkout.sessions.create] that vary. *)
Record CheckoutParams := {
  cp_unit_amount : Z;
  cp_success_url : jsstring;
  cp_cancel_url : jsstring;
  cp_customer_email : jsstring;
  cp_metadata : gmap jsstring jsstring;
  cp_payment_intent_metadata : gmap jsstring jsstring;
}.

Inductive Error :=
| JsError (message : jsstring)
| TypeError (message : jsstring)
| StripeError (type : jsstring) (message : jsstring).

Definition error_message (e : Error) : jsstring :=
  match e with
  | JsError m | TypeError m | StripeError _ m => m
  end.

Inductive StripeCreateResult :=
| SessionCreated (id : jsstring) (url : jsstring)
| SessionFailed (e : Error).

(** A Checkout Session (or, for the other event types, the object of the
    event) as the webhook reads it. *)
Record Session := {
  id : jsstring;
  metadata : option (gmap jsstring jsstring);
  amount_total : Z;
}.

Record StripeEvent := {
  type : jsstring;
  event_id : jsstring;
  created : Z;
  data_object : Session;
}.

(** What a handler sends back: [res.status(..).json(..)] or
    [res.status(..).end()], with the headers set before. *)
Record Response := {
  res_status : Z;
  res_headers : list (jsstring * jsstring);
  res_body : option value;
}.

Definition json_response (status : Z) (body : value) : Response :=
  {| res_status := status; res_headers := []; res_body := Some body |}.

Definition error_body (message : jsstring) : value :=
  VObj [(js "error", VStr message)].

(** A value of [Math.random()], seen through the two uses the code makes
    of it: [Math.floor(r * n)] and [r.toString(36).substr(2, 9)]. *)
Record Random := {
  floor_times : Z -> Z;
  base36_digits : jsstring;
}.

(** The operations through which the endpoints reach the outside. *)
Inductive Op : Type -> Type :=
| Console (level : LogLevel) (message : string) : Op unit
| GetEnv (name : string) : Op (option jsstring)
| ExistsSync (p : Path) : Op bool
| MkdirSync (p : Path) : Op unit
| ReaddirSync (p : Path) : Op (list jsstring)
| ReadOrder (sessionId : jsstring) : Op (option StoredOrder)
| WriteOrder (sessionId : jsstring) (data : StoredOrder) : Op bool
| WriteMarker (sessionId : jsstring) (data : ProcessedMarker) : Op bool
| UnlinkSync (p : Path) : Op bool
| DateNow : Op Z
| DateISOString : Op jsstring
| MathRandom : Op Random
| RoundPrice (leads : Z) : Op Z
| ConstructEvent (rawBody : list Z) (sig secret : option jsstring)
    : Op (Error + StripeEvent)
| FetchApify (actorId token : option jsstring) (payload : JobPayload)
    : Op FetchResult
| FetchEmailWebhook (url : jsstring) (payload : EmailPayload) : Op FetchResult
| StripeCreateSession (params : CheckoutParams) : Op StripeCreateResult.

(** Programs: a free monad over [Op] with exceptions. *)
Inductive Prog (A : Type) : Type :=
| Ret (a : A)
| Throw (e : Error)
| Vis {B : Type} (op : Op B) (k : B -> Prog A).

Arguments Ret {A} a.
Arguments Throw {A} e.
Arguments Vis {A B} op k.

Fixpoint bind {A B} (p : Prog A) (f : A -> Prog B) : Prog B :=
  match p with
  | Ret a => f a
  | Throw e => Throw e
  | Vis op k => Vis op (fun b => bind (k b) f)
  end.

(** [try { p } catch (e) { h e }]. *)
Fixpoint try_catch {A} (p : Prog A) (h : Error -> Prog A) : Prog A :=
  match p with
  | Ret a => Ret a
  | Throw e => h e
  | Vis op k => Vis op (fun b => try_catch (k b) h)
  end.

#[global] Instance Prog_ret : MRet Prog := @Ret.
#[global] Instance Prog_bind : MBind Prog := fun A B f p => bind p f.

Definition perform {B} (op : Op B) : Prog B := Vis op Ret.

(** What the outside is, for one deployment: the environment variables,
    the Stripe SDK, the clock, the random source and the two HTTP
    services.  [price_cents leads] is the double-precision value of
    [Math.round(leads * 0.005 * 100)]. *)
Record Platform := {
  env : gmap string jsstring;
  stripe_constructEvent :
    list Z -> option jsstring -> option jsstring -> Error + StripeEvent;
  stripe_create : CheckoutParams -> StripeCreateResult;
  clock : nat -> Z;
  toISOString : Z -> jsstring;
  math_random : nat -> Random;
  apify : option jsstring -> option jsstring -> JobPayload -> FetchResult;
  email_webhook : jsstring -> EmailPayload -> FetchResult;
  price_cents : Z -> Z;
}.

(** The two directories under /tmp ([None]: the directory does not exist)
    with the parsed contents of their files, and the number of clock and
    random draws so far. *)
Record World := {
  temp_dir : option (gmap jsstring StoredOrder);
  processed_dir : option (gmap jsstring ProcessedMarker);
  draws : nat;
}.

(** The staging store and the ledger, as maps from session identifiers. *)
Definition pending_orders (w : World) : gmap jsstring StoredOrder :=
  default ∅ (temp_dir w).

Definition ledger (w : World) : gmap jsstring ProcessedMarker :=
  default ∅ (processed_dir w).

Definition path_exists (p : Path) (w : World) : bool :=
  match p with
  | TEMP_DIR => bool_decide (is_Some (temp_dir w))
  | TempFile sid => bool_decide (is_Some (pending_orders w !! sid))
  | PROCESSED_DIR => bool_decide (is_Some (processed_dir w))
  | ProcessedFile sid => bool_decide (is_Some (ledger w !! sid))
  end.

Definition set_temp_dir (d : option (gmap jsstring StoredOrder)) (w : World)
    : World :=
  {| temp_dir := d; processed_dir := processed_dir w; draws := draws w |}.

Definition set_processed_dir (d : option (gmap jsstring ProcessedMarker))
    (w : World) : World :=
  {| temp_dir := temp_dir w; processed_dir := d; draws := draws w |}.

Definition next_draw (w : World) : World :=
  {| temp_dir := temp_dir w; processed_dir := processed_dir w;
     draws := S (draws w) |}.

(** One operation on the world.  [mkdirSync] is called with
    [recursive: true] and keeps an existing directory.  A write into a
    missing directory and the removal of a missing file fail (the result is
    [false], which the wrappers below turn into an exception). *)
Definition exec (X : Platform) {B} (op : Op B) (w : World) : B * World :=
  match op in Op T return T * World with
  | Console _ _ => (tt, w)
  | GetEnv name => (env X !! name, w)
  | ExistsSync p => (path_exists p w, w)
  | MkdirSync p =>
      match p with
      | TEMP_DIR => (tt, set_temp_dir (Some (pending_orders w)) w)
      | PROCESSED_DIR => (tt, set_processed_dir (Some (ledger w)) w)
      | _ => (tt, w)
      end
  | ReaddirSync p =>
      match p with
      | TEMP_DIR => ((fst <$> map_to_list (pending_orders w)), w)
      | PROCESSED_DIR => ((fst <$> map_to_list (ledger w)), w)
      | _ => ([], w)
      end
  | ReadOrder sid => (pending_orders w !! sid, w)
  | WriteOrder sid data =>
      match temp_dir w with
      | Some files => (true, set_temp_dir (Some (<[sid := data]> files)) w)
      | None => (false, w)
      end
  | WriteMarker sid data =>
      match processed_dir w with
      | Some files => (true, set_processed_dir (Some (<[sid := data]> files)) w)
      | None => (false, w)
      end
  | UnlinkSync p =>
      match p with
      | TempFile sid =>
          match temp_dir w with
          | Some files =>
              if bool_decide (is_Some (files !! sid))
              then (true, set_temp_dir (Some (delete sid files)) w)
              else (false, w)
          | None => (false, w)
          end
      | ProcessedFile sid =>
          match processed_dir w with
          | Some files =>
              if bool_decide (is_Some (files !! sid))
              then (true, set_processed_dir (Some (delete sid files)) w)
              else (false, w)
          | None => (false, w)
          end
      | _ => (false, w)
      end
  | DateNow => (clock X (draws w), next_draw w)
  | DateISOString => (toISOString X (clock X (draws w)), next_draw w)
  | MathRandom => (math_random X (draws w), next_draw w)
  | RoundPrice leads => (price_cents X leads, w)
  | ConstructEvent rawBody sig secret =>
      (stripe_constructEvent X rawBody sig secret, w)
  | FetchApify actorId token payload => (apify X actorId token payload, w)
  | FetchEmailWebhook url payload => (email_webhook X url payload, w)
  | StripeCreateSession params => (stripe_create X params, w)
  end.

(** One entry of the trace: an operation and what it returned. *)
Inductive Event :=
| Ev {B : Type} (op : Op B) (result : B).

Inductive Outcome (A : Type) :=
| Returned (a : A)
| Thrown (e : Error).
Arguments Returned {A} a.
Arguments Thrown {A} e.

(** Running a program to its end: the outcome, the final world, and the
    operations performed, in order. *)
Fixpoint run (X : Platform) {A} (p : Prog A) (w : World)
    : Outcome A * World * list Event :=
  match p with
  | Ret a => (Returned a, w, [])
  | Throw e => (Thrown e, w, [])
  | Vis op k =>
      let '(b, w1) := exec X op w in
      let '(r, w2, t) := run X (k b) w1 in
      (r, w2, Ev op b :: t)
  end.

(** Classification of trace entries. *)
Definition is_storage (e : Event) : bool :=
  match e with
  | Ev op _ =>
      match op with
      | ExistsSync _ | MkdirSync _ | ReaddirSync _ | ReadOrder _
      | WriteOrder _ _ | WriteMarker _ _ | UnlinkSync _ => true
      | _ => false
      end
  end.

Definition is_network (e : Event) : bool :=
  match e with
  | Ev op _ =>
      match op with
      | FetchApify _ _ _ | FetchEmailWebhook _ _ | StripeCreateSession _ => true
      | _ => false
      end
  end.

(** The payload of a job invocation, for the entries that are one. *)
Definition job_of (e : Event) : option JobPayload :=
  match e with
  | Ev op _ =>
      match op with
      | FetchApify _ _ payload => Some payload
      | _ => None
      end
  end.

Definition notification_of (e : Event) : option EmailPayload :=
  match e with
  | Ev op _ =>
      match op with
      | FetchEmailWebhook _ payload => Some payload
      | _ => None
      end
  end.

Definition log_of (e : Event) : option (LogLevel * string) :=
  match e with
  | Ev op _ =>
      match op with
      | Console level message => Some (level, message)
      | _ => None
      end
  end.

Definition job_invocations (t : list Event) : list JobPayload :=
  omap job_of t.

Definition notifications (t : list Event) : list EmailPayload :=
  omap notification_of t.

Definition logs (t : list Event) : list (LogLevel * string) :=
  omap log_of t.

(** The wrappers the source calls. *)
Definition console_log (m : string) : Prog unit := perform (Console ConsoleLog m).
Definition console_warn (m : string) : Prog unit := perform (Console ConsoleWarn m).
Definition console_error (m : string) : Prog unit := perform (Console ConsoleError m).
Definition process_env (name : string) : Prog (option jsstring) :=
  perform (GetEnv name).
Definition existsSync (p : Path) : Prog bool := perform (ExistsSync p).
Definition mkdirSync (p : Path) : Prog unit := perform (MkdirSync p).
Definition readdirSync (p : Path) : Prog (list jsstring) := perform (ReaddirSync p).

Definition ENOENT : Error := JsError (js "ENOENT: no such file or directory").

Definition readOrder (sid : jsstring) : Prog StoredOrder :=
  r ← perform (ReadOrder sid);
  match r with Some d => Ret d | None => Throw ENOENT end.

Definition writeOrder (sid : jsstring) (d : StoredOrder) : Prog unit :=
  ok ← perform (WriteOrder sid d);
  if ok : bool then Ret tt else Throw ENOENT.

Definition writeMarker (sid : jsstring) (d : ProcessedMarker) : Prog unit :=
  ok ← perform (WriteMarker sid d);
  if ok : bool then Ret tt else Throw ENOENT.

Definition unlinkSync (p : Path) : Prog unit :=
  ok ← perform (UnlinkSync p);
  if ok : bool then Ret tt else Throw ENOENT.

Definition date_iso : Prog jsstring := perform DateISOString.
Definition date_now : Prog Z := perform DateNow.

End Effects.
Export Effects.

(* ================================================================== *)
(** * The metadata codec shared by the checkout and the webhook        *)
(* ================================================================== *)

Module Codec.

(** [`urlChunk${index}`]. *)
Definition chunkKey (index : nat) : jsstring :=
  js "urlChunk" ++ number_toString (Z.of_nat index).

Definition chunkSize : nat := 450.

(** [apolloUrl.length > 450 ? apolloUrl.substring(0, 450) + '...' : apolloUrl]. *)
Definition truncatedUrl (apolloUrl : jsstring) : jsstring :=
  if (450 <? length apolloUrl)%nat
  then substring0 450 apolloUrl ++ js "..."
  else apolloUrl.

(** [for (let i = 0; i < s.length; i += chunkSize) urlChunks.push(s.slice(i,
    i + chunkSize))]; the loop runs at most [s.length] times. *)
Fixpoint split_from (fuel : nat) (i : nat) (s : jsstring) : list jsstring :=
  match fuel with
  | O => []
  | S f =>
      if (i <? length s)%nat
      then slice i (i + chunkSize) s :: split_from f (i + chunkSize) s
      else []
  end.

Definition urlChunks (fullUrlBase64 : jsstring) : list jsstring :=
  split_from (length fullUrlBase64) 0 fullUrlBase64.

(** [urlChunks.forEach((chunk, index) => { metadata[`urlChunk${index}`] =
    chunk })], from [index] on. *)
Fixpoint add_chunks (chunks : list jsstring) (index : nat)
    (metadata : gmap jsstring jsstring) : gmap jsstring jsstring :=
  match chunks with
  | [] => metadata
  | chunk :: rest =>
      add_chunks rest (S index) (<[chunkKey index := chunk]> metadata)
  end.

(** The body of the webhook's reconstruction loop, from index [i], for
    [remaining] more iterations; a missing (or empty) chunk throws. *)
Fixpoint reconstruct_from (metadata : gmap jsstring jsstring)
    (i remaining : nat) (reconstructedBase64 : jsstring) : Outcome jsstring :=
  match remaining with
  | O => Returned reconstructedBase64
  | S n =>
      match metadata !! chunkKey i with
      | Some chunk =>
          if truthy chunk
          then reconstruct_from metadata (S i) n (reconstructedBase64 ++ chunk)
          else Thrown (JsError (js "Missing chunk " ++ number_toString (Z.of_nat i)))
      | None =>
          Thrown (JsError (js "Missing chunk " ++ number_toString (Z.of_nat i)))
      end
  end.

(** The number of iterations of [for (let i = 0; i < chunkCount; i++)]:
    none when [chunkCount] is NaN or not positive. *)
Definition iterations (chunkCount : option Z) : nat :=
  match chunkCount with
  | Some n => Z.to_nat n
  | None => O
  end.

(** The [try] block of the webhook's fallback: parse the count, join the
    chunks, decode. *)
Definition decode_chunks (metadata : gmap jsstring jsstring)
    (urlChunkCount : jsstring) : Outcome jsstring :=
  let chunkCount := parseInt urlChunkCount in
  match reconstruct_from metadata 0 (iterations chunkCount) [] with
  | Returned reconstructedBase64 =>
      Returned (utf8_decode (base64_decode reconstructedBase64))
  | Thrown e => Thrown e
  end.

End Codec.
Export Codec.

(* ================================================================== *)
(** * The checkout endpoint ([create-checkout-session])                *)
(* ================================================================== *)

Module Checkout.

(** The JSON body of the request.  [apolloUrl] and [email] are strings or
    absent; other types make the handler throw and are not modelled. *)
Record Body := {
  leads : value;
  apolloUrl : option jsstring;
  email : option jsstring;
  cleanOutput : value;
}.

Record Request := {
  method : jsstring;
  origin : option jsstring;
  host : option jsstring;
  body : Body;
}.

Definition ensureTempDir : Prog unit :=
  present ← existsSync TEMP_DIR;
  if negb present then mkdirSync TEMP_DIR else mret tt.

Definition storeApolloUrl (sessionId fullUrl email : jsstring) (leads : Z)
    (cleanOutput : value) : Prog unit :=
  ensureTempDir;;
  timestamp ← date_iso;
  writeOrder sessionId
    {| so_apolloUrl := fullUrl; so_email := email; so_leads := leads;
       so_cleanOutput := cleanOutput; so_timestamp := timestamp |};;
  console_log "Stored full Apollo URL for session".

(** [req.headers.origin || (req.headers.host?.includes(..) ? .. : null) ||
    `https://${process.env.VERCEL_URL}`]; the template is never empty, so
    the last alternative of the source is not reached. *)
Definition baseUrl (req : Request) (vercel_url : option jsstring) : jsstring :=
  match option_truthy (origin req) with
  | Some o => o
  | None =>
      if match host req with
         | Some h => includes (js "resources.bluecraftleads.com") h
         | None => false
         end
      then js "https://resources.bluecraftleads.com"
      else js "https://" ++ default (js "undefined") vercel_url
  end.

(** The metadata object of the session, before the chunks are added. *)
Definition base_metadata (leads : Z) (apolloUrl email : jsstring)
    (cleanOutput : value) (timestamp orderId : jsstring) (chunkCount : nat)
    : gmap jsstring jsstring :=
  <[js "urlChunkCount" := number_toString (Z.of_nat chunkCount)]>
  (<[js "fullUrlLength" := number_toString (Z.of_nat (length apolloUrl))]>
  (<[js "orderId" := orderId]>
  (<[js "timestamp" := timestamp]>
  (<[js "cleanOutput" := if truthy_value cleanOutput then js "true" else js "false"]>
  (<[js "email" := email]>
  (<[js "apolloUrl" := truncatedUrl apolloUrl]>
  (<[js "leads" := number_toString leads]> ∅))))))).

(** The whole metadata object: the chunks of the base64 text of the URL
    under [urlChunk0], [urlChunk1], ... *)
Definition build_metadata (leads : Z) (apolloUrl email : jsstring)
    (cleanOutput : value) (timestamp orderId : jsstring)
    : gmap jsstring jsstring :=
  let fullUrlBase64 := base64_encode (utf8_encode apolloUrl) in
  let chunks := urlChunks fullUrlBase64 in
  add_chunks chunks 0
    (base_metadata leads apolloUrl email cleanOutput timestamp orderId
       (length chunks)).

Definition stripe_error_response (error : Error) : Response :=
  match error with
  | StripeError type _ =>
      if bool_decide (type = js "StripeCardError")
      then json_response 400 (error_body (js "Your card was declined."))
      else if bool_decide (type = js "StripeRateLimitError")
      then json_response 429
             (error_body (js "Too many requests made to the API too quickly."))
      else if bool_decide (type = js "StripeInvalidRequestError")
      then json_response 400
             (error_body (js "Invalid parameters were supplied to Stripe."))
      else if bool_decide (type = js "StripeAPIError")
      then json_response 500 (error_body (js "An error occurred with Stripe API."))
      else if bool_decide (type = js "StripeConnectionError")
      then json_response 500 (error_body (js "A network error occurred."))
      else if bool_decide (type = js "StripeAuthenticationError")
      then json_response 500 (error_body (js "Authentication with Stripe failed."))
      else json_response 500
             (error_body (js "An unexpected error occurred: " ++ error_message error))
  | _ =>
      json_response 500
        (error_body (js "An unexpected error occurred: " ++ error_message error))
  end.

Definition createSession (params : CheckoutParams) : Prog (jsstring * jsstring) :=
  r ← perform (StripeCreateSession params);
  match r with
  | SessionCreated id url => mret (id, url)
  | SessionFailed e => Throw e
  end.

Definition handler (req : Request) : Prog Response :=
  if negb (bool_decide (method req = js "POST"))
  then mret (json_response 405 (error_body (js "Method not allowed")))
  else
    try_catch
      (match leads (body req) with
       | VNum leads =>
         if (leads =? 0) || (leads <? 500)
         then mret (json_response 400
                      (error_body (js "Minimum order is 500 leads ($2.50)")))
         else
         match option_truthy (apolloUrl (body req)) with
         | None =>
             mret (json_response 400
                     (error_body (js "Please provide a valid Apollo.io search URL")))
         | Some apolloUrl =>
         if negb (includes (js "apollo.io") apolloUrl)
         then mret (json_response 400
                      (error_body (js "Please provide a valid Apollo.io search URL")))
         else
         match option_truthy (email (body req)) with
         | None =>
             mret (json_response 400
                     (error_body (js "Please provide a valid email address")))
         | Some email =>
         if negb (includes (js "@") email)
         then mret (json_response 400
                      (error_body (js "Please provide a valid email address")))
         else
           amount ← perform (RoundPrice leads);
           if amount <? 250
           then mret (json_response 400
                        (error_body (js "Minimum order amount is $2.50")))
           else if 25000 <? amount
           then mret (json_response 400
                        (error_body (js "Maximum order is 50,000 leads ($250)")))
           else
             console_log "Creating checkout session";;
             vercel_url ← process_env "VERCEL_URL";
             let baseUrl := baseUrl req vercel_url in
             console_log "Using base URL:";;
             now ← date_now;
             random ← perform MathRandom;
             let orderId :=
               js "apollo_" ++ number_toString now ++ js "_"
                 ++ base36_digits random in
             console_log "Apollo URL length:";;
             console_log "Truncated for metadata:";;
             console_log "Base64 encoded length:";;
             console_log "Split into chunks";;
             timestamp ← date_iso;
             let metadata :=
               build_metadata leads apolloUrl email (cleanOutput (body req))
                 timestamp orderId in
             console_log "Metadata fields:";;
             '(sessionId, sessionUrl) ← createSession
               {| cp_unit_amount := amount;
                  cp_success_url :=
                    baseUrl ++ js "/lead-scraper/payment-success?session_id={CHECKOUT_SESSION_ID}";
                  cp_cancel_url := baseUrl ++ js "/lead-scraper/payment-cancelled";
                  cp_customer_email := email;
                  cp_metadata := metadata;
                  cp_payment_intent_metadata :=
                    <[js "service" := js "apollo-scraper"]> metadata |};
             console_log "Checkout session created:";;
             storeApolloUrl sessionId apolloUrl email leads
               (cleanOutput (body req));;
             mret (json_response 200
                     (VObj [(js "url", VStr sessionUrl);
                            (js "sessionId", VStr sessionId)]))
         end
         end
       | _ =>
           mret (json_response 400
                   (error_body (js "Minimum order is 500 leads ($2.50)")))
       end)
      (fun error =>
         console_error "Stripe checkout session creation error:";;
         mret (stripe_error_response error)).

End Checkout.

(* ================================================================== *)
(** * The Stripe webhook ([api/stripe-webhook.js])                     *)
(* ================================================================== *)

Module Webhook.

Record Request := {
  method : jsstring;
  stripe_signature : option jsstring;   (* req.headers['stripe-signature'] *)
  rawBody : option (list Z);            (* [None]: reading the stream throws *)
}.

(** The order as [handleSuccessfulPayment] holds it in [storedData]: read
    from the staging file, or rebuilt from the metadata. *)
Record OrderData := {
  apolloUrl : option jsstring;     (* [None] is undefined *)
  email : jsstring;
  leads : value;
  cleanOutput : value;
}.

Definition ensureProcessedDir : Prog unit :=
  present ← existsSync PROCESSED_DIR;
  if negb present then mkdirSync PROCESSED_DIR else mret tt.

Definition isSessionProcessed (sessionId : jsstring) : Prog bool :=
  ensureProcessedDir;;
  existsSync (ProcessedFile sessionId).

Definition markSessionProcessed (sessionId : jsstring) : Prog unit :=
  ensureProcessedDir;;
  processedAt ← date_iso;
  timestamp ← date_now;
  writeMarker sessionId
    {| pm_sessionId := sessionId; pm_processedAt := processedAt;
       pm_timestamp := timestamp |}.

Definition retrieveApolloUrl (sessionId : jsstring) : Prog (option StoredOrder) :=
  try_catch
    (console_log "Attempting to retrieve Apollo URL for session:";;
     console_log "Looking in directory:";;
     console_log "Full file path:";;
     existsSync (TempFile sessionId);;
     console_log "File exists:";;
     present ← existsSync (TempFile sessionId);
     if present : bool then
       data ← readOrder sessionId;
       console_log "Retrieved full Apollo URL for session";;
       console_log "URL length:";;
       mret (Some data)
     else
       console_log "No stored data found for session";;
       try_catch
         (dir ← existsSync TEMP_DIR;
          if dir : bool then
            readdirSync TEMP_DIR;;
            console_log "Files in temp directory:"
          else console_log "Temp directory doesn't exist:")
         (fun listError => console_log "Error listing temp directory:");;
       mret None)
    (fun error =>
       console_error "Error retrieving Apollo URL for session";;
       mret None).

Definition cleanupApolloUrl (sessionId : jsstring) : Prog unit :=
  try_catch
    (present ← existsSync (TempFile sessionId);
     if present : bool then
       unlinkSync (TempFile sessionId);;
       console_log "Cleaned up stored data for session"
     else mret tt)
    (fun error => console_error "Error cleaning up session").

Definition characters : jsstring := js "ABCDEFGHIJKLMNOPQRSTUVWXYZ0123456789".

(** [s.charAt(i)]: the empty string out of range. *)
Definition charAt (s : jsstring) (i : Z) : jsstring :=
  if i <? 0 then []
  else match s !! Z.to_nat i with
       | Some c => [c]
       | None => []
       end.

Fixpoint random_characters (count : nat) (result : jsstring) : Prog jsstring :=
  match count with
  | O => mret result
  | S n =>
      r ← perform MathRandom;
      random_characters n
        (result ++ charAt characters (floor_times r (Z.of_nat (length characters))))
  end.

Definition generateRandomFileName : Prog jsstring := random_characters 6 [].

(** [result.data?.id || result.id || result.runId]; the access throws when
    [result] is null. *)
Definition run_id (result : value) : Outcome value :=
  match get_prop (js "data") result with
  | None => Thrown (TypeError (js "Cannot read properties of null"))
  | Some data =>
      let first :=
        match data with
        | VUndefined | VNull => VUndefined
        | _ => default VUndefined (get_prop (js "id") data)
        end in
      if truthy_value first then Returned first
      else
        let second := default VUndefined (get_prop (js "id") result) in
        if truthy_value second then Returned second
        else Returned (default VUndefined (get_prop (js "runId") result))
  end.

Definition triggerApolloScraper (payload : JobPayload) : Prog value :=
  try_catch
    (console_log "Triggering YOUR Apollo actor with payload:";;
     actorId ← process_env "APOLLO_ACTOR_ID";
     token ← process_env "APIFY_TOKEN";
     process_env "APOLLO_ACTOR_ID";;
     console_log "Calling actor:";;
     console_log "API URL:";;
     response ← perform (FetchApify actorId token payload);
     match response with
     | FetchRejected => Throw (TypeError (js "fetch failed"))
     | FetchResponse ok status body =>
         console_log "Apify API response status:";;
         if negb ok then
           console_error "Apify API error response:";;
           Throw (JsError (js "Apollo actor API call failed: "
                             ++ number_toString status))
         else
           match body with
           | None => Throw (JsError (js "Unexpected token in JSON"))
           | Some result =>
               console_log "Apify API success response:";;
               match run_id result with
               | Thrown e => Throw e
               | Returned runId =>
                   console_log "YOUR Apollo actor started successfully!";;
                   console_log "Payment: , Run ID:";;
                   console_log "Customer: , Amount:";;
                   mret runId
               end
           end
     end)
    (fun error =>
       console_error "Error triggering YOUR Apollo scraper:";;
       process_env "APOLLO_ACTOR_ID";;
       process_env "APIFY_TOKEN";;
       console_error "Error details:";;
       Throw error).

Definition sendEmailWebhook (email : jsstring) (leadCount : option Z)
    (apolloUrl fileName : jsstring) : Prog unit :=
  try_catch
    (emailWebhookUrl ← process_env "EMAIL_WEBHOOK_URL";
     console_log "EMAIL_WEBHOOK_URL configured:";;
     console_log "EMAIL_WEBHOOK_URL value:";;
     match option_truthy emailWebhookUrl with
     | None =>
         console_log "No EMAIL_WEBHOOK_URL configured, skipping email webhook"
     | Some url =>
         console_log "Sending email webhook notification...";;
         console_log "Target URL:";;
         console_log "Customer email:";;
         console_log "Lead count:";;
         console_log "File name:";;
         timestamp ← date_iso;
         let emailPayload :=
           {| mail_email := email; mail_leadCount := leadCount;
              mail_apolloUrl := apolloUrl; mail_timestamp := timestamp;
              mail_fileName := fileName |} in
         console_log "Email webhook payload:";;
         response ← perform (FetchEmailWebhook url emailPayload);
         match response with
         | FetchRejected => Throw (TypeError (js "fetch failed"))
         | FetchResponse ok status body =>
             console_log "Email webhook response status:";;
             console_log "Email webhook response headers:";;
             if ok then
               console_log "Email webhook sent successfully";;
               console_log "Email webhook response body:"
             else
               console_log "Email webhook failed:";;
               console_log "Email webhook error response:"
         end
     end)
    (fun error =>
       console_error "Email webhook error:";;
       console_error "Email webhook error stack:";;
       process_env "EMAIL_WEBHOOK_URL";;
       console_error "Email webhook error details:").

Definition order_of_stored (data : StoredOrder) : OrderData :=
  {| apolloUrl := Some (so_apolloUrl data); email := so_email data;
     leads := VNum (so_leads data); cleanOutput := so_cleanOutput data |}.

Definition metadata_value (metadata : gmap jsstring jsstring) (key : string)
    : value :=
  match metadata !! js key with
  | Some s => VStr s
  | None => VUndefined
  end.

(** The fallback of [handleSuccessfulPayment]: the order rebuilt from the
    session's metadata; [None] when the function returns early. *)
Definition order_from_metadata (session : Session) : Prog (option OrderData) :=
  match metadata session with
  | None => Throw (TypeError (js "Cannot destructure property of undefined"))
  | Some metadata =>
      match option_truthy (metadata !! js "leads"),
            option_truthy (metadata !! js "email") with
      | Some leads, Some email =>
          let truncated := metadata !! js "apolloUrl" in
          fullApolloUrl ←
            match option_truthy (metadata !! js "urlChunkCount") with
            | Some urlChunkCount =>
                console_log "Reconstructing URL from chunks";;
                match decode_chunks metadata urlChunkCount with
                | Returned url =>
                    console_log "Reconstructed full Apollo URL from chunks";;
                    mret (Some url)
                | Thrown decodeError =>
                    console_log
                      "Failed to reconstruct URL from chunks, using truncated version:";;
                    mret truncated
                end
            | None =>
                console_log
                  "No URL chunks found, using truncated URL from metadata as fallback";;
                mret truncated
            end;
          mret (Some {| apolloUrl := fullApolloUrl; email := email;
                        leads := VStr leads;
                        cleanOutput := metadata_value metadata "cleanOutput" |})
      | _, _ =>
          console_error "Missing required metadata in session:";;
          mret None
      end
  end.

(** The first half of [handleSuccessfulPayment]: the order from the
    staging store, else from the metadata. *)
Definition recover_order (session : Session) : Prog (option OrderData) :=
  storedData ← retrieveApolloUrl (id session);
  match storedData with
  | None =>
      console_error "No stored Apollo URL found for session:";;
      order_from_metadata session
  | Some data =>
      console_log "Retrieved full Apollo URL for session";;
      mret (Some (order_of_stored data))
  end.

(** The second half: trigger the actor, notify, clean up, mark. *)
Definition fulfil_order (session : Session) (order : OrderData) : Prog unit :=
  fileName ← generateRandomFileName;
  match apolloUrl order with
  | None =>
      Throw (TypeError (js "Cannot read properties of undefined (reading 'length')"))
  | Some url =>
      console_log "Starting Apollo scraper for paid order:";;
      runId ← triggerApolloScraper
        {| job_url := url;
           job_totalRecords := parseInt_value (leads order);
           job_fileName := fileName;
           job_email := email order;
           job_cleanOutput := strict_eq_str (cleanOutput order) (js "true") |};
      sendEmailWebhook (email order) (parseInt_value (leads order))
        url fileName;;
      console_log "Apollo scraper triggered successfully for payment";;
      cleanupApolloUrl (id session);;
      markSessionProcessed (id session)
  end.

Definition handleSuccessfulPayment (session : Session) : Prog unit :=
  try_catch
    (console_log "Processing successful payment:";;
     processed ← isSessionProcessed (id session);
     if processed : bool then
       console_log "Session has already been processed"
     else
       recovered ← recover_order session;
       match recovered with
       | None => mret tt
       | Some order => fulfil_order session order
       end)
    (fun error => console_error "Error processing successful payment:").

Definition constructEvent (rawBody : list Z) (sig secret : option jsstring)
    : Prog StripeEvent :=
  r ← perform (ConstructEvent rawBody sig secret);
  match r with
  | inl e => Throw e
  | inr event => mret event
  end.

Definition read_body (req : Request) : Prog (list Z) :=
  match rawBody req with
  | Some bytes => mret bytes
  | None => Throw (JsError (js "aborted"))
  end.

Definition handler (req : Request) : Prog Response :=
  if negb (bool_decide (method req = js "POST"))
  then mret (json_response 405 (error_body (js "Method not allowed")))
  else
    let sig := stripe_signature req in
    endpointSecret ← process_env "STRIPE_WEBHOOK_SECRET";
    verified ←
      try_catch
        (rawBody ← read_body req;
         console_log "Raw body type:";;
         console_log "Raw body length:";;
         event ← constructEvent rawBody sig endpointSecret;
         console_log "Webhook signature verified successfully for event:";;
         mret (inr event))
        (fun err =>
           console_error "Webhook signature verification failed:";;
           mret (inl (json_response 400
                        (error_body (js "Webhook signature verification failed: "
                                       ++ error_message err)))));
    match verified with
    | inl response => mret response
    | inr event =>
        (if bool_decide (type event = js "checkout.session.completed") then
           console_log "Processing checkout.session.completed for session:";;
           console_log "Event ID:";;
           console_log "Created timestamp:";;
           handleSuccessfulPayment (data_object event)
         else if bool_decide (type event = js "payment_intent.succeeded") then
           console_log "Payment intent succeeded:"
         else if bool_decide (type event = js "payment_intent.payment_failed") then
           console_log "Payment failed:"
         else console_log "Unhandled event type:");;
        mret (json_response 200 (VObj [(js "received", VBool true)]))
    end.

End Webhook.

(* ================================================================== *)
(** * The configuration endpoint                                       *)
(* ================================================================== *)

Module Config.

Record Request := { method : jsstring }.

Definition cors_headers : list (jsstring * jsstring) :=
  [(js "Access-Control-Allow-Origin", js "*");
   (js "Access-Control-Allow-Methods", js "GET, OPTIONS");
   (js "Access-Control-Allow-Headers", js "Content-Type")].

Definition respond (status : Z) (body : option value) : Response :=
  {| res_status := status; res_headers := cors_headers; res_body := body |}.

Definition config_object (apify_token actor_id email_webhook_url : option jsstring)
    : value :=
  VObj
    [(js "APIFY_TOKEN", VStr (default [] (option_truthy apify_token)));
     (js "APOLLO_ACTOR_ID",
      VStr (default (js "code_crafter/apollo-io-scraper")
              (option_truthy actor_id)));
     (js "EMAIL_WEBHOOK_URL",
      VStr (default [] (option_truthy email_webhook_url)));
     (js "DEFAULT_SETTINGS",
      VObj [(js "maxLeads", VNum 50000); (js "defaultLeads", VNum 100);
            (js "timeout", VNum 3600000)]);
     (js "API",
      VObj [(js "baseUrl", VStr (js "https://api.apify.com/v2"));
            (js "timeout", VNum 30000)]);
     (js "SECURITY",
      VObj [(js "allowedOrigins", VArr [VStr (js "*")]);
            (js "rateLimitPerMinute", VNum 10)])].

Definition handler (req : Request) : Prog Response :=
  console_log "Config API called:";;
  if bool_decide (method req = js "OPTIONS") then mret (respond 200 None)
  else if bool_decide (method req = js "GET") then
    try_catch
      (process_env "APIFY_TOKEN";;
       process_env "APOLLO_ACTOR_ID";;
       process_env "EMAIL_WEBHOOK_URL";;
       console_log "Environment check:";;
       apify_token ← process_env "APIFY_TOKEN";
       actor_id ← process_env "APOLLO_ACTOR_ID";
       email_webhook_url ← process_env "EMAIL_WEBHOOK_URL";
       let config := config_object apify_token actor_id email_webhook_url in
       console_log "Config API responding successfully";;
       mret (respond 200 (Some config)))
      (fun error =>
         console_error "Config API error:";;
         mret (respond 500
                 (Some (VObj [(js "error", VStr (js "Internal server error"));
                              (js "message", VStr (error_message error))]))))
  else mret (respond 405 (Some (error_body (js "Method not allowed")))).

End Config.

(* ================================================================== *)
(** * Interleaved executions: the event loop                           *)
(* ================================================================== *)

Module EventLoop.

(** The operations a handler awaits: its turn ends when it reaches one,
    and another handler may run before the answer is delivered. *)
Definition is_await {B} (op : Op B) : bool :=
  match op with
  | FetchApify _ _ _ | FetchEmailWebhook _ _ | StripeCreateSession _ => true
  | _ => false
  end.

(** The synchronous part of a turn: up to the end of the program or to its
    next awaited operation. *)
Fixpoint advance (X : Platform) {A} (p : Prog A) (w : World)
    : Prog A * World * list Event :=
  match p with
  | Vis op k =>
      if is_await op then (p, w, [])
      else
        let '(b, w1) := exec X op w in
        let '(p', w2, t) := advance X (k b) w1 in
        (p', w2, Ev op b :: t)
  | _ => (p, w, [])
  end.

(** The answer of the awaited operation arrives and the handler runs on. *)
Definition resume (X : Platform) {A} (p : Prog A) (w : World)
    : Prog A * World * list Event :=
  match p with
  | Vis op k =>
      let '(b, w1) := exec X op w in
      let '(p', w2, t) := advance X (k b) w1 in
      (p', w2, Ev op b :: t)
  | _ => (p, w, [])
  end.

(** The handlers in flight, the shared world and the trace so far. *)
Record State (A : Type) := {
  handlers : list (Prog A);
  world : World;
  trace : list Event;
}.
Arguments handlers {A} _.
Arguments world {A} _.
Arguments trace {A} _.

Inductive Turn (A : Type) :=
| Arrive (p : Prog A)      (* a request arrives and its handler starts *)
| Deliver (i : nat).       (* the answer handler [i] awaits is delivered *)
Arguments Arrive {A} p.
Arguments Deliver {A} i.

Definition turn (X : Platform) {A} (s : State A) (t : Turn A) : State A :=
  match t with
  | Arrive p =>
      let '(p', w, evs) := advance X p (world s) in
      {| handlers := handlers s ++ [p']; world := w; trace := trace s ++ evs |}
  | Deliver i =>
      match handlers s !! i with
      | Some p =>
          let '(p', w, evs) := resume X p (world s) in
          {| handlers := <[i := p']> (handlers s); world := w;
             trace := trace s ++ evs |}
      | None => s
      end
  end.

Definition schedule (X : Platform) {A} (w : World) (turns : list (Turn A))
    : State A :=
  fold_left (turn X) turns {| handlers := []; world := w; trace := [] |}.

Definition finished {A} (p : Prog A) : bool :=
  match p with
  | Vis _ _ => false
  | _ => true
  end.

(** The handler at the end of the list has run from world [w0] up to now:
    what is left of it runs to the end [run] reaches from [w0]. *)
Definition in_progress (X : Platform) {A} (p : Prog A) (w0 : World)
    (before : State A) (s : State A) : Prop :=
  exists p' t',
    handlers s = handlers before ++ [p']
    /\ trace s = trace before ++ t'
    /\ run X p w0 =
       let '(r, w2, t2) := run X p' (world s) in (r, w2, t' ++ t2).

End EventLoop.

(* ================================================================== *)
(** * The actor's [cleanData]                                          *)
(* ================================================================== *)

Module Normalizer.

(** The data of the actor live in a heap: an object or an array is a
    reference, so that a structure may be shared or cyclic. *)
Definition loc := nat.

Inductive jsval :=
| Undefined
| Null
| Bool (b : bool)
| Num (n : Z)
| Str (s : jsstring)
| Ref (l : loc).

Inductive cell :=
| Object (props : list (jsstring * jsval))     (* in [Object.keys] order *)
| Array (items : list jsval).

Definition heap := loc -> cell.

(** What [cleanData] builds: fresh objects, holding the values and the
    filtered arrays it keeps. *)
Inductive cleaned :=
| Kept (v : jsval)
| KeptArray (items : list jsval)
| Cleaned (props : list (jsstring * cleaned)).

(** A call ends with a value, with the TypeError of [Object.keys(null)],
    or with the RangeError of an exhausted call stack. *)
Inductive Result (A : Type) :=
| Done (a : A)
| ThrowsTypeError
| StackExhausted.
Arguments Done {A} a.
Arguments ThrowsTypeError {A}.
Arguments StackExhausted {A}.

Fixpoint indexed (i : nat) (items : list jsval) : list (jsstring * jsval) :=
  match items with
  | [] => []
  | v :: rest => (number_toString (Z.of_nat i), v) :: indexed (S i) rest
  end.

(** [Object.keys(item)] with [item[key]] for each key; [None] when
    [Object.keys] throws. *)
Definition entries (h : heap) (item : jsval) : option (list (jsstring * jsval)) :=
  match item with
  | Undefined | Null => None
  | Bool _ | Num _ => Some []
  | Str s => Some (indexed 0 ((fun c => Str [c]) <$> s))
  | Ref l =>
      match h l with
      | Object props => Some props
      | Array items => Some (indexed 0 items)
      end
  end.

(** [v !== null && v !== undefined && v !== '']. *)
Definition present (v : jsval) : bool :=
  match v with
  | Null | Undefined | Str [] => false
  | _ => true
  end.

(** The body of [Object.keys(item).forEach]: the entries of [cleaned], in
    order; [recurse] is the nested call [cleanData([value])]. *)
Fixpoint clean_entries (recurse : list jsval -> Result (list cleaned))
    (h : heap) (es : list (jsstring * jsval))
    : Result (list (jsstring * cleaned)) :=
  match es with
  | [] => Done []
  | (key, value) :: rest =>
      let continue (entry : option cleaned) :=
        match clean_entries recurse h rest with
        | Done more =>
            Done (match entry with
                  | Some c => (key, c) :: more
                  | None => more
                  end)
        | ThrowsTypeError => ThrowsTypeError
        | StackExhausted => StackExhausted
        end in
      if present value then
        match value with
        | Ref l =>
            match h l with
            | Object _ =>
                match recurse [value] with
                | Done (Cleaned [] :: _) => continue None
                | Done (cleanedNested :: _) => continue (Some cleanedNested)
                | Done [] => ThrowsTypeError
                | ThrowsTypeError => ThrowsTypeError
                | StackExhausted => StackExhausted
                end
            | Array items =>
                match filter (fun v => present v = true) items with
                | [] => continue None
                | cleanedArray => continue (Some (KeptArray cleanedArray))
                end
            end
        | _ => continue (Some (Kept value))
        end
      else continue None
  end.

Fixpoint map_items (f : jsval -> Result cleaned) (data : list jsval)
    : Result (list cleaned) :=
  match data with
  | [] => Done []
  | item :: rest =>
      match f item with
      | Done c =>
          match map_items f rest with
          | Done cs => Done (c :: cs)
          | ThrowsTypeError => ThrowsTypeError
          | StackExhausted => StackExhausted
          end
      | ThrowsTypeError => ThrowsTypeError
      | StackExhausted => StackExhausted
      end
  end.

Definition clean_item (recurse : list jsval -> Result (list cleaned))
    (h : heap) (item : jsval) : Result cleaned :=
  match entries h item with
  | None => ThrowsTypeError
  | Some es =>
      match clean_entries recurse h es with
      | Done props => Done (Cleaned props)
      | ThrowsTypeError => ThrowsTypeError
      | StackExhausted => StackExhausted
      end
  end.

(** [cleanData(data)] on a call stack with room for [stack] nested calls. *)
Fixpoint cleanData (stack : nat) (h : heap) (data : list jsval)
    : Result (list cleaned) :=
  match stack with
  | O => StackExhausted
  | S deeper => map_items (clean_item (cleanData deeper h) h) data
  end.

Definition is_object (h : heap) (v : jsval) : Prop :=
  match v with
  | Ref l => match h l with Object _ => True | Array _ => False end
  | _ => False
  end.

(** [nesting h d item]: following object-valued properties from [item]
    ends within [d] steps (no cycle through them, depth at most [d]). *)
Inductive nesting (h : heap) : nat -> jsval -> Prop :=
| nesting_step d item :
    (forall es key value,
        entries h item = Some es -> In (key, value) es ->
        is_object h value -> nesting h d value) ->
    nesting h (S d) item.


(** The call returned or threw a TypeError: the stack was not exhausted. *)
Definition terminates {A} (r : Result A) : Prop := r <> StackExhausted.

(** The call exhausts every call stack: the recursion never ends. *)
Definition exhausts_every_stack (h : heap) (data : list jsval) : Prop :=
  forall stack, cleanData stack h data = StackExhausted.

(** The heap of the example of the specification:
    [{a: null, b: "", c: {d: "x", e: null}, f: [1, null, ""]}]. *)
Definition example_heap : heap := fun l =>
  match l with
  | 0%nat => Object [(js "a", Null); (js "b", Str []); (js "c", Ref 1%nat); (js "f", Ref 2%nat)]
  | 1%nat => Object [(js "d", Str (js "x")); (js "e", Null)]
  | _ => Array [Num 1; Null; Str []]
  end.

(** A heap whose every object points to itself. *)
Definition cyclic_heap : heap := fun _ => Object [(js "self", Ref 0%nat)].

(** A chain of [n] nested objects: cell [i] holds cell [i + 1]. *)
Definition chain_heap (n : nat) : heap := fun l =>
  if (l <? n)%nat%nat then Object [(js "next", Ref (S l))] else Object [(js "leaf", Num 1)].

End Normalizer.

(* ================================================================== *)
(** * Vocabulary of the properties                                     *)
(* ================================================================== *)

Module Vocabulary.

(** A request to any of the three endpoints. *)
Inductive AnyRequest :=
| ToConfig (req : Config.Request)
| ToCheckout (req : Checkout.Request)
| ToWebhook (req : Webhook.Request).

Definition endpoint (r : AnyRequest) : Prog Response :=
  match r with
  | ToConfig req => Config.handler req
  | ToCheckout req => Checkout.handler req
  | ToWebhook req => Webhook.handler req
  end.

(** The world after a request is served, and after a sequence of them
    (each with the outside as it is at that time). *)
Definition serve (w : World) (r : Platform * AnyRequest) : World :=
  (run r.1 (endpoint r.2) w).1.2.

Definition serve_all (w : World) (rs : list (Platform * AnyRequest)) : World :=
  fold_left serve rs w.

(** The session has an entry in the Idempotency Ledger. *)
Definition processed (sessionId : jsstring) (w : World) : Prop :=
  is_Some (ledger w !! sessionId).

(** A property of every operation a program can perform, whatever the
    operations return. *)
Fixpoint every_op (P : forall B, Op B -> Prop) {A} (p : Prog A) : Prop :=
  match p with
  | Vis op k => P _ op /\ forall b, every_op P (k b)
  | _ => True
  end.

Definition keeps_markers {B} (op : Op B) : Prop :=
  match op with
  | UnlinkSync (ProcessedFile _) => False
  | _ => True
  end.

(** The request is a POST whose body and signature the Stripe SDK accepts
    as [event]. *)
Definition verified (X : Platform) (req : Webhook.Request) (event : StripeEvent)
    : Prop :=
  Webhook.method req = js "POST"
  /\ exists rawBody,
       Webhook.rawBody req = Some rawBody
       /\ stripe_constructEvent X rawBody (Webhook.stripe_signature req)
            (env X !! "STRIPE_WEBHOOK_SECRET") = inr event.

(** The request carries a verified payment-completed event for [session]. *)
Definition payment_completed (X : Platform) (req : Webhook.Request)
    (session : Session) : Prop :=
  exists event,
    verified X req event
    /\ type event = js "checkout.session.completed"
    /\ data_object event = session.

(** Signature verification fails: the body cannot be read, or the SDK
    rejects it (wrong or missing signature, malformed payload). *)
Definition verification_fails (X : Platform) (req : Webhook.Request) : Prop :=
  match Webhook.rawBody req with
  | None => True
  | Some rawBody =>
      exists err,
        stripe_constructEvent X rawBody (Webhook.stripe_signature req)
          (env X !! "STRIPE_WEBHOOK_SECRET") = inl err
  end.

(** The trace shows that [handleSuccessfulPayment] was entered. *)
Definition reaches_orchestrator (t : list Event) : Prop :=
  In (ConsoleLog, "Processing successful payment:"%string) (logs t).

(** The observable part of a trace: the job invocations with their
    answers, the notifications and the ledger writes. *)
Inductive Observation :=
| Job (payload : JobPayload) (answer : FetchResult)
| Notification (payload : EmailPayload)
| Mark (sessionId : jsstring).

Definition observation_of (e : Event) : option Observation :=
  match e with
  | Ev op r =>
      match op in Op T return T -> option Observation with
      | FetchApify _ _ payload => fun r => Some (Job payload r)
      | FetchEmailWebhook _ payload => fun _ => Some (Notification payload)
      | WriteMarker sid _ => fun _ => Some (Mark sid)
      | _ => fun _ => None
      end r
  end.

Definition observe (t : list Event) : list Observation :=
  omap observation_of t.

(** The stores hold the same records. *)
Definition same_stores (w w' : World) : Prop :=
  pending_orders w' = pending_orders w /\ ledger w' = ledger w.

(** The answer to a job invocation, for the entries that are one. *)
Definition job_result_of (e : Event) : option FetchResult :=
  match e with
  | Ev op r =>
      match op in Op T return T -> option FetchResult with
      | FetchApify _ _ _ => fun r => Some r
      | _ => fun _ => None
      end r
  end.

Definition job_results (t : list Event) : list FetchResult :=
  omap job_result_of t.

(** [triggerApolloScraper] returns on this answer (it throws on the others). *)
Definition trigger_succeeds (r : FetchResult) : bool :=
  match r with
  | FetchResponse true _ (Some result) =>
      match Webhook.run_id result with
      | Returned _ => true
      | Thrown _ => false
      end
  | _ => false
  end.

(** The session a ledger entry is written for, for the entries that write
    one. *)
Definition mark_of (e : Event) : option jsstring :=
  match e with
  | Ev op _ =>
      match op with
      | WriteMarker sid _ => Some sid
      | _ => None
      end
  end.

Definition marks (t : list Event) : list jsstring := omap mark_of t.

(** The notification step is done: a request went to the channel, or none is
    configured. *)
Definition notification_done (X : Platform) (t : list Event) : Prop :=
  notifications t <> [] \/ option_truthy (env X !! "EMAIL_WEBHOOK_URL") = None.

(** The metadata carry every field the fallback needs: [leads], [email],
    the chunk count [count] and each chunk below the count. *)
Definition complete_envelope (metadata : gmap jsstring jsstring)
    (count : jsstring) : Prop :=
  is_Some (option_truthy (metadata !! js "leads"))
  /\ is_Some (option_truthy (metadata !! js "email"))
  /\ option_truthy (metadata !! js "urlChunkCount") = Some count
  /\ forall i : nat, (i < iterations (parseInt count))%nat ->
       is_Some (option_truthy (metadata !! chunkKey i)).

(** The chunks [urlChunk0 .. urlChunk(n-1)] joined in index order. *)
Definition joined_chunks (metadata : gmap jsstring jsstring) (n : nat)
    : jsstring :=
  concat ((fun i => default [] (metadata !! chunkKey i)) <$> seq 0 n).

(** The URL the chunks stand for. *)
Definition reconstructed_url (metadata : gmap jsstring jsstring)
    (count : jsstring) : jsstring :=
  utf8_decode (base64_decode (joined_chunks metadata (iterations (parseInt count)))).

(** Projections of an observation. *)
Definition job_of_observation (o : Observation) : option JobPayload :=
  match o with Job p _ => Some p | _ => None end.
Definition answer_of_observation (o : Observation) : option FetchResult :=
  match o with Job _ r => Some r | _ => None end.
Definition notification_of_observation (o : Observation) : option EmailPayload :=
  match o with Notification p => Some p | _ => None end.
Definition mark_of_observation (o : Observation) : option jsstring :=
  match o with Mark sid => Some sid | _ => None end.

(** The observations of [sendEmailWebhook]: one notification when a
    channel is configured, none otherwise. *)
Definition notified (X : Platform) (notices : list Observation) : Prop :=
  match option_truthy (env X !! "EMAIL_WEBHOOK_URL") with
  | Some _ => exists payload, notices = [Notification payload]
  | None => notices = []
  end.

(** The three ways [handleSuccessfulPayment] can end: nothing observable
    happened; the job was invoked and the trigger failed; the job was
    triggered, the notification step ran, the order was removed and the
    ledger entry written. *)
Inductive Ending (X : Platform) (session : Session) (w w' : World)
    (t : list Event) : Prop :=
| ending_idle :
    same_stores w w' -> observe t = [] -> Ending X session w w' t
| ending_failed payload answer :
    same_stores w w' ->
    observe t = [Job payload answer] ->
    trigger_succeeds answer = false ->
    Ending X session w w' t
| ending_fulfilled payload answer notices marker :
    trigger_succeeds answer = true ->
    observe t = Job payload answer :: notices ++ [Mark (id session)] ->
    notified X notices ->
    pending_orders w' = delete (id session) (pending_orders w) ->
    ledger w' = <[id session := marker]> (ledger w) ->
    Ending X session w w' t.

(** What the order asks the actor for, whatever the file name. *)
Definition payload_for (order : Webhook.OrderData) (url : jsstring)
    (payload : JobPayload) : Prop :=
  job_url payload = url
  /\ job_totalRecords payload = parseInt_value (Webhook.leads order)
  /\ job_email payload = Webhook.email order
  /\ job_cleanOutput payload
     = strict_eq_str (Webhook.cleanOutput order) (js "true").

(** The job was triggered with success and the notification step is done. *)
Definition triggered_and_notified (X : Platform) (t : list Event) : Prop :=
  (exists answer, In answer (job_results t) /\ trigger_succeeds answer = true)
  /\ notification_done X t.

(** The metadata of the Checkout Sessions a trace creates. *)
Definition created_metadata_of (e : Event) : option (gmap jsstring jsstring) :=
  match e with
  | Ev op _ =>
      match op with
      | StripeCreateSession params => Some (cp_metadata params)
      | _ => None
      end
  end.

Definition created_metadata (t : list Event) : list (gmap jsstring jsstring) :=
  omap created_metadata_of t.

(** The world once a program has run from [w], and the trace of that run. *)
Definition world_after {A} (X : Platform) (p : Prog A) (w : World) : World :=
  (run X p w).1.2.

Definition trace_of {A} (X : Platform) (p : Prog A) (w : World) : list Event :=
  (run X p w).2.

(** The acknowledgement of the webhook. *)
Definition acknowledged : Response :=
  json_response 200 (VObj [(js "received", VBool true)]).

End Vocabulary.
Export Vocabulary.

(* ================================================================== *)
(** * A deployment and an order, for the examples                      *)
(* ================================================================== *)

Module Scenario.

Definition url : jsstring :=
  js "https://app.apollo.io/#/people?page=1&personTitles[]=ceo".

Definition customer : jsstring := js "buyer@example.com".

Definition session_id : jsstring := js "cs_test_a1B2".

Definition signature : jsstring := js "t=1700000000,v1=5257a869e7ecebeda32a".

Definition empty_world : World :=
  {| temp_dir := None; processed_dir := None; draws := 0 |}.

(** A deployment: Stripe accepts [signature] only and then delivers a
    payment-completed event for [session]; the actor starts a run for every
    request; the e-mail webhook answers 200. *)
Definition platform (session : Session) : Platform :=
  {| env :=
       <["STRIPE_WEBHOOK_SECRET" := js "whsec_test"]>
       (<["EMAIL_WEBHOOK_URL" := js "https://hooks.example.com/mail"]>
       (<["APOLLO_ACTOR_ID" := js "code_crafter/apollo-io-scraper"]>
       (<["APIFY_TOKEN" := js "apify_api_SECRET"]> ∅)));
     stripe_constructEvent := fun rawBody sig secret =>
       if bool_decide (sig = Some signature)
       then inr {| type := js "checkout.session.completed";
                   event_id := js "evt_1"; created := 1700000000;
                   data_object := session |}
       else inl (StripeError (js "StripeSignatureVerificationError")
                   (js "No signatures found matching the expected signature"));
     stripe_create := fun params =>
       SessionCreated session_id (js "https://checkout.stripe.com/c/pay/cs_test_a1B2");
     clock := fun n => 1700000000000 + Z.of_nat n;
     toISOString := fun ms => js "2023-11-14T22:13:20.000Z";
     math_random := fun n =>
       {| floor_times := fun k => Z.of_nat n mod k;
          base36_digits := js "k3j2h1g0f" |};
     apify := fun actorId token payload =>
       FetchResponse true 201
         (Some (VObj [(js "data", VObj [(js "id", VStr (js "run_1"))])]));
     email_webhook := fun url payload => FetchResponse true 200 None;
     price_cents := fun leads => leads / 2 |}.

(** The same deployment without a notification channel:
    [EMAIL_WEBHOOK_URL] is not set. *)
Definition platform_without_channel (session : Session) : Platform :=
  let X := platform session in
  {| env := delete "EMAIL_WEBHOOK_URL" (env X);
     stripe_constructEvent := stripe_constructEvent X;
     stripe_create := stripe_create X;
     clock := clock X;
     toISOString := toISOString X;
     math_random := math_random X;
     apify := apify X;
     email_webhook := email_webhook X;
     price_cents := price_cents X |}.

(** The checkout request of a customer who asks for [cleanOutput]. *)
Definition checkout_request (cleanOutput : value) : Checkout.Request :=
  {| Checkout.method := js "POST";
     Checkout.origin := Some (js "https://resources.bluecraftleads.com");
     Checkout.host := None;
     Checkout.body :=
       {| Checkout.leads := VNum 1000;
          Checkout.apolloUrl := Some url;
          Checkout.email := Some customer;
          Checkout.cleanOutput := cleanOutput |} |}.

(** The metadata the checkout attaches to the session for that request on
    this deployment. *)
Definition envelope (apolloUrl : jsstring) (cleanOutput : value)
    : gmap jsstring jsstring :=
  Checkout.build_metadata 1000 apolloUrl customer cleanOutput
    (js "2023-11-14T22:13:20.000Z") (js "apollo_1700000000000_k3j2h1g0f").

Definition session (metadata : gmap jsstring jsstring) : Session :=
  {| id := session_id; metadata := Some metadata; amount_total := 500 |}.

(** The session of a customer who ticked "clean output". *)
Definition paid_session : Session := session (envelope url (VBool true)).

(** The same session with the e-mail address missing from the metadata. *)
Definition session_without_email : Session :=
  session (delete (js "email") (envelope url (VBool true))).

(** The delivery of the event, and a forged one. *)
Definition delivery : Webhook.Request :=
  {| Webhook.method := js "POST";
     Webhook.stripe_signature := Some signature;
     Webhook.rawBody := Some (utf8_encode (js "{}")) |}.

Definition forged_delivery : Webhook.Request :=
  {| Webhook.method := js "POST";
     Webhook.stripe_signature := Some (js "t=1700000000,v1=00");
     Webhook.rawBody := Some (utf8_encode (js "{}")) |}.

(** A URL that ends in an unpaired surrogate. *)
Definition ill_formed_url : jsstring := js "https://app.apollo.io/?q=" ++ [0xD800].

(** Two deliveries of the event whose handlers take turns. *)
Definition interleaved : list (EventLoop.Turn Response) :=
  [EventLoop.Arrive (Webhook.handler delivery);
   EventLoop.Arrive (Webhook.handler delivery);
   EventLoop.Deliver 0; EventLoop.Deliver 1;
   EventLoop.Deliver 0; EventLoop.Deliver 1].

End Scenario.

(* ================================================================== *)
(** * Vocabulary of the further properties                             *)
(* ================================================================== *)

Module Further.

(** A checkout request the validation refuses: [leads] is not a number of
    at least 500, the URL is missing or does not contain "apollo.io", the
    e-mail address is missing or has no "@", or the price in cents is below
    250 or above 25000. *)
Definition refused (X : Platform) (req : Checkout.Request) : Prop :=
  (forall n, Checkout.leads (Checkout.body req) = VNum n -> n < 500)
  \/ (forall u, Checkout.apolloUrl (Checkout.body req) = Some u ->
        includes (js "apollo.io") u = false)
  \/ (forall e, Checkout.email (Checkout.body req) = Some e ->
        includes (js "@") e = false)
  \/ (forall n, Checkout.leads (Checkout.body req) = VNum n ->
        price_cents X n < 250 \/ 25000 < price_cents X n).

(** The payload [handleSuccessfulPayment] builds for an order whose URL is
    [url], once the file name is drawn. *)
Definition job_for (order : Webhook.OrderData) (url fileName : jsstring)
    : JobPayload :=
  {| job_url := url;
     job_totalRecords := parseInt_value (Webhook.leads order);
     job_fileName := fileName;
     job_email := Webhook.email order;
     job_cleanOutput := strict_eq_str (Webhook.cleanOutput order) (js "true") |}.

(** The answer of the actor's API to a job, on this deployment. *)
Definition answer_to (X : Platform) (payload : JobPayload) : FetchResult :=
  apify X (env X !! "APOLLO_ACTOR_ID") (env X !! "APIFY_TOKEN") payload.

(** The notification that goes with a job: the same address, count, URL
    and file name, stamped [timestamp]. *)
Definition mail_for (payload : JobPayload) (timestamp : jsstring) : EmailPayload :=
  {| mail_email := job_email payload;
     mail_leadCount := job_totalRecords payload;
     mail_apolloUrl := job_url payload;
     mail_timestamp := timestamp;
     mail_fileName := job_fileName payload |}.

(** The observations of the notification step after the job [payload]:
    one request with [mail_for payload] when a channel is configured, none
    otherwise. *)
Definition notices_of (X : Platform) (payload : JobPayload)
    (notices : list Observation) : Prop :=
  match option_truthy (env X !! "EMAIL_WEBHOOK_URL") with
  | Some _ => exists timestamp, notices = [Notification (mail_for payload timestamp)]
  | None => notices = []
  end.

(** What [cleanData] lets through under a key: a value that is not null,
    undefined or the empty string; an array with at least one element and
    no such element; an object with at least one key whose values are of
    these three kinds. *)
Fixpoint is_clean (c : Normalizer.cleaned) : bool :=
  match c with
  | Normalizer.Kept v =>
      Normalizer.present v
      && match v with Normalizer.Ref _ => false | _ => true end
  | Normalizer.KeptArray items =>
      match items with [] => false | _ => true end
      && forallb Normalizer.present items
  | Normalizer.Cleaned props =>
      match props with [] => false | _ => true end
      && forallb (fun kv => match kv with (_, nested) => is_clean nested end) props
  end.

(** What [cleanData] makes of an item: an object, possibly without keys,
    whose values are clean. *)
Definition is_cleaned_item (c : Normalizer.cleaned) : bool :=
  match c with
  | Normalizer.Cleaned props =>
      forallb (fun kv => match kv with (_, nested) => is_clean nested end) props
  | _ => false
  end.

(** The keys of a cleaned object, in order. *)
Definition cleaned_keys (c : Normalizer.cleaned) : list jsstring :=
  match c with
  | Normalizer.Cleaned props => fst <$> props
  | _ => []
  end.

(** The keys [Object.keys] gives for an item, in order. *)
Definition item_keys (h : Normalizer.heap) (item : Normalizer.jsval)
    : list jsstring :=
  match Normalizer.entries h item with
  | Some es => fst <$> es
  | None => []
  end.

(** What [cleanData] made of [item]: its keys are keys of the item, in the
    order of [Object.keys], and a value that is not an array or an object
    is the value the item holds under that key. *)
Definition comes_from (h : Normalizer.heap) (item : Normalizer.jsval)
    (c : Normalizer.cleaned) : Prop :=
  sublist (cleaned_keys c) (item_keys h item)
  /\ forall key v es props,
       Normalizer.entries h item = Some es -> c = Normalizer.Cleaned props ->
       In (key, Normalizer.Kept v) props -> In (key, v) es.

(** The item is null or undefined. *)
Definition is_nullish (v : Normalizer.jsval) : bool :=
  match v with
  | Normalizer.Null | Normalizer.Undefined => true
  | _ => false
  end.

End Further.
Export Further.

(* ================================================================== *)
(** * More requests, for the examples                                  *)
(* ================================================================== *)

Module Cases.

(** An order below the minimum of 500 leads. *)
Definition small_order : Checkout.Request :=
  {| Checkout.method := js "POST";
     Checkout.origin := None;
     Checkout.host := Some (js "resources.bluecraftleads.com");
     Checkout.body :=
       {| Checkout.leads := VNum 100;
          Checkout.apolloUrl := Some Scenario.url;
          Checkout.email := Some Scenario.customer;
          Checkout.cleanOutput := VBool false |} |}.

(** Another deployment: the same actor and channel, other Stripe keys. *)
Definition other_deployment : Platform :=
  let X := Scenario.platform Scenario.paid_session in
  {| env :=
       <["STRIPE_SECRET_KEY" := js "sk_live_other"]>
       (<["STRIPE_WEBHOOK_SECRET" := js "whsec_other"]> (env X));
     stripe_constructEvent := stripe_constructEvent X;
     stripe_create := stripe_create X;
     clock := clock X;
     toISOString := toISOString X;
     math_random := math_random X;
     apify := apify X;
     email_webhook := email_webhook X;
     price_cents := price_cents X |}.

(** The order of the scenario as [storeApolloUrl] stages it, and a world
    whose staging store holds it for the session of the scenario. *)
Definition staged_order : StoredOrder :=
  {| so_apolloUrl := Scenario.url;
     so_email := Scenario.customer;
     so_leads := 1000;
     so_cleanOutput := VBool true;
     so_timestamp := js "2023-11-14T22:13:20.000Z" |}.

Definition staged_world : World :=
  {| temp_dir := Some {[ Scenario.session_id := staged_order ]};
     processed_dir := None;
     draws := 0 |}.

(** The session of the scenario with the chunk count missing from its
    metadata, and with a chunk count of zero. *)
Definition envelope_without_count : gmap jsstring jsstring :=
  delete (js "urlChunkCount") (Scenario.envelope Scenario.url (VBool true)).

Definition envelope_with_zero_count : gmap jsstring jsstring :=
  <[js "urlChunkCount" := js "0"]> (Scenario.envelope Scenario.url (VBool true)).

End Cases.

(* ================================================================== *)
(** * The actor: [Apify.main] and [sendToWebhook]                      *)
(* ================================================================== *)

Module Actor.
Import Normalizer.

(** The values of the actor are those of [cleanData]: primitives, and
    references to the objects and arrays of a heap. *)

(** [!!v]. *)
Definition truthy (v : jsval) : bool :=
  match v with
  | Undefined | Null => false
  | Bool b => b
  | Num n => negb (n =? 0)
  | Str s => JsString.truthy s
  | Ref _ => true
  end.

(** [v || d]. *)
Definition or_else (v d : jsval) : jsval := if truthy v then v else d.

(** A destructuring default, [{ key = d }]: used when the property is
    undefined. *)
Definition default_to (v d : jsval) : jsval :=
  match v with
  | Undefined => d
  | _ => v
  end.

Definition nullish (v : jsval) : bool :=
  match v with
  | Undefined | Null => true
  | _ => false
  end.

Fixpoint lookup_field (key : jsstring) (props : list (jsstring * jsval)) : jsval :=
  match props with
  | [] => Undefined
  | (k, v) :: rest => if bool_decide (k = key) then v else lookup_field key rest
  end.

(** [v.key] for a key that is neither an index nor [length], on a value
    that is not null or undefined. *)
Definition prop (h : heap) (key : jsstring) (v : jsval) : jsval :=
  match v with
  | Ref l =>
      match h l with
      | Object props => lookup_field key props
      | Array _ => Undefined
      end
  | _ => Undefined
  end.

(** [v?.key]. *)
Definition optional_prop (h : heap) (key : jsstring) (v : jsval) : jsval :=
  if nullish v then Undefined else prop h key v.

(** [v.length]; [None] when the access throws. *)
Definition length_of (h : heap) (v : jsval) : option jsval :=
  match v with
  | Undefined | Null => None
  | Bool _ | Num _ => Some Undefined
  | Str s => Some (Num (Z.of_nat (length s)))
  | Ref l =>
      match h l with
      | Object props => Some (lookup_field (js "length") props)
      | Array items => Some (Num (Z.of_nat (length items)))
      end
  end.

(** [v === s] for a string literal [s]. *)
Definition is_string (s : jsstring) (v : jsval) : bool :=
  match v with
  | Str t => bool_decide (t = s)
  | _ => false
  end.

(** [url.includes(needle)]: the substring test of a string, the membership
    test of an array; [None] when [url] has no [includes] method. *)
Definition js_includes (h : heap) (needle : jsstring) (url : jsval) : option bool :=
  match url with
  | Str s => Some (includes needle s)
  | Ref l =>
      match h l with
      | Array items => Some (existsb (is_string needle) items)
      | Object _ => None
      end
  | _ => None
  end.

(** An exception: its message and, for a failed HTTP request that got an
    answer, the status, the status text and whether the answer has data. *)
Record Exn := {
  message : jsstring;
  response : option (Z * jsstring * jsval);
}.

Definition new_Error (m : string) : Exn := {| message := js m; response := None |}.

(** The errors [main] throws for a bad input: their messages begin with
    U+274C (a cross mark) and a space. *)
Definition refusal (m : string) : Exn :=
  {| message := [0x274C; 0x20] ++ js m; response := None |}.

(** [CONFIG] of [../config.js], a file the sources do not hold: its fields
    are parameters. *)
Record Config := {
  APOLLO_ACTOR_ID : jsval;
  APIFY_TOKEN : jsval;
  WEBHOOK_URL : jsval;
  defaultLeads : jsval;
  defaultFileName : jsval;
  defaultCleanOutput : jsval;
}.

(** [getConfigStatus()], of the same file. *)
Record ConfigStatus := {
  isConfigured : bool;
  errors : list jsstring;
}.

(** The [data] argument of [sendToWebhook] and of [Apify.pushData]: the
    literal [[]], the scraped items as they came, or the cleaned items. *)
Inductive Items :=
| NoItems
| Raw (v : jsval)
| CleanedItems (cs : list cleaned).

(** The three [metadata] objects of [sendToWebhook]. *)
Inductive Metadata :=
| NoDataFound (fileName : jsval) (timestamp : jsstring)
    (runId datasetId runInfo : jsval)
| Delivered (totalRecords fileName : jsval) (timestamp : jsstring)
    (runId datasetId configuredWebhookUrl usedWebhookUrl
     runFinishedAt runStartedAt : jsval)
| Failed (error : jsstring) (fileName : jsval) (timestamp : jsstring)
    (runId datasetId configuredWebhookUrl usedWebhookUrl : jsval).

(** The [success] field. *)
Definition success (m : Metadata) : bool :=
  match m with
  | Failed _ _ _ _ _ _ _ => false
  | _ => true
  end.

Record Payload := {
  data : Items;
  metadata : Metadata;
}.

Record PostResponse := {
  status : Z;
  statusText : jsstring;
  response_data : jsval;
}.

(** The operations of the actor on the outside. *)
Inductive Op : Type -> Type :=
| Console (level : LogLevel) (text : string) : Op unit
| GetConfigStatus : Op ConfigStatus
| GetInput : Op (Exn + jsval)
| NewURL (v : jsval) : Op bool          (* false: the constructor throws *)
| ToString (v : jsval) : Op (option Exn)    (* an object or array, to a string *)
| ApifyCall (actorId url totalRecords fileName cleanOutput : jsval)
    : Op (Exn + jsval)
| SetTimeout (ms : Z) : Op unit
| AxiosGet (datasetId token : jsval) : Op (Exn + jsval)     (* response.data *)
| ClientListItems (datasetId : jsval) : Op (Exn + jsval)    (* the result *)
| OpenDataset : Op (option Exn)
| DatasetGetInfo : Op (Exn + option Z)  (* no info, or its itemCount *)
| DatasetGetData : Op (Exn + jsval)     (* the result *)
| JSONStringify (payload : Payload) : Op (option Exn)
| AxiosPost (webhookUrl : jsval) (payload : Payload) : Op (Exn + PostResponse)
| PushData (items : Items) : Op (option Exn)
| DateISOString : Op jsstring.

(** Programs of the actor. *)
Inductive Task (A : Type) : Type :=
| Ret (a : A)
| Throw (e : Exn)
| Vis {B : Type} (op : Op B) (k : B -> Task A).
Arguments Ret {A} a.
Arguments Throw {A} e.
Arguments Vis {A B} op k.

Fixpoint bind {A B} (p : Task A) (f : A -> Task B) : Task B :=
  match p with
  | Ret a => f a
  | Throw e => Throw e
  | Vis op k => Vis op (fun b => bind (k b) f)
  end.

Fixpoint try_catch {A} (p : Task A) (handler : Exn -> Task A) : Task A :=
  match p with
  | Ret a => Ret a
  | Throw e => handler e
  | Vis op k => Vis op (fun b => try_catch (k b) handler)
  end.

#[global] Instance Task_ret : MRet Task := @Ret.
#[global] Instance Task_bind : MBind Task := fun A B f p => bind p f.

Definition perform {B} (op : Op B) : Task B := Vis op Ret.

(** An operation that resolves or rejects. *)
Definition await {B} (op : Op (Exn + B)) : Task B :=
  r ← perform op;
  match r with
  | inl e => Throw e
  | inr b => mret b
  end.

(** An operation that returns nothing or throws. *)
Definition attempt (op : Op (option Exn)) : Task unit :=
  r ← perform op;
  match r with
  | Some e => Throw e
  | None => mret tt
  end.

(** A [try] block, with what it threw. *)
Definition caught (p : Task unit) : Task (option Exn) :=
  try_catch (p;; mret None) (fun e => mret (Some e)).

(** [${v}] in a template literal.  A primitive always converts; an object
    or an array is converted by the engine through its [toString] or
    [valueOf], which can throw. *)
Definition interpolate (v : jsval) : Task unit :=
  match v with
  | Ref _ => attempt (ToString v)
  | _ => mret tt
  end.

Definition console_log (text : string) : Task unit := perform (Console ConsoleLog text).
Definition console_warn (text : string) : Task unit := perform (Console ConsoleWarn text).
Definition console_error (text : string) : Task unit := perform (Console ConsoleError text).

(** [data.length]; [None] when the access throws. *)
Definition items_length (h : heap) (data : Items) : option jsval :=
  match data with
  | NoItems => Some (Num 0)
  | Raw v => length_of h v
  | CleanedItems cs => Some (Num (Z.of_nat (length cs)))
  end.

(** [sendToWebhook(webhookUrl, data, metadata)]. *)
Definition sendToWebhook (h : heap) (webhookUrl : jsval) (data : Items)
    (metadata : Metadata) : Task unit :=
  try_catch
    (let payload := {| data := data; metadata := metadata |} in
     interpolate webhookUrl;;
     console_log "Sending to webhook:";;
     attempt (JSONStringify payload);;
     console_log "Payload size:";;
     match items_length h data with
     | None => Throw (new_Error "Cannot read properties of undefined (reading 'length')")
     | Some n => interpolate n
     end;;
     console_log "Data items:";;
     response ← await (AxiosPost webhookUrl payload);
     console_log "Webhook response:";;
     (if truthy (response_data response)
      then console_log "Webhook response data:" else mret tt);;
     if (200 <=? status response) && (status response <? 300)
     then console_log "Webhook delivery successful"
     else console_warn "Webhook returned non-success status:")
    (fun error =>
       console_error "Webhook delivery failed:";;
       match response error with
       | Some (_, _, answer) =>
           console_error "Webhook error response:";;
           if truthy answer then console_error "Response data:" else mret tt
       | None => mret tt
       end;;
       Throw {| message := js "Webhook delivery failed: " ++ message error;
                response := None |}).

(** [configStatus.errors.forEach(error => console.warn(error))]. *)
Fixpoint warn_each (errors : list jsstring) : Task unit :=
  match errors with
  | [] => mret tt
  | _ :: rest => console_warn "(configuration error)";; warn_each rest
  end.

(** The variable [scrapedData]: its initial value [[]], or what a dataset
    gave. *)
Inductive Scraped :=
| Initial
| Got (v : jsval).

Section Main.
Context (CONFIG : Config) (stack : nat) (h : heap).

(** An assignment to [scrapedData] followed by the log of its length:
    the access throws on null and undefined, and the length may not
    convert to a string; both after the assignment. *)
Definition assigned (items : jsval) (text : string) : Task (Scraped * option Exn) :=
  match length_of h items with
  | None =>
      mret (Got items,
            Some (new_Error "Cannot read properties of undefined (reading 'length')"))
  | Some n =>
      thrown ← caught (interpolate n;; console_log text);
      mret (Got items, thrown)
  end.

(** The first [try] block of the retrieval (the dataset of the run, over
    HTTP): the value of [scrapedData] when the block ends and the exception
    it ended with, if any. *)
Definition from_dataset_url (datasetId : jsval) (scrapedData : Scraped)
    : Task (Scraped * option Exn) :=
  thrown ← caught (interpolate datasetId;; interpolate (APIFY_TOKEN CONFIG);;
                    console_log "Fetching data from:");
  match thrown with
  | Some e => mret (scrapedData, Some e)
  | None =>
      r ← perform (AxiosGet datasetId (APIFY_TOKEN CONFIG));
      match r with
      | inl e => mret (scrapedData, Some e)
      | inr answer => assigned answer "Retrieved items from external actor's dataset"
      end
  end.

(** The second [try] block (the Apify client). *)
Definition from_client (datasetId : jsval) (scrapedData : Scraped)
    : Task (Scraped * option Exn) :=
  r ← perform (ClientListItems datasetId);
  match r with
  | inl e => mret (scrapedData, Some e)
  | inr result =>
      if nullish result
      then mret (scrapedData,
                 Some (new_Error "Cannot destructure property 'items'"))
      else assigned (prop h (js "items") result) "Retrieved items using Apify client"
  end.

(** The last resort, the actor's own dataset; its exceptions are not
    caught here. *)
Definition from_own_dataset (scrapedData : Scraped) : Task Scraped :=
  attempt OpenDataset;;
  datasetInfo ← await DatasetGetInfo;
  match datasetInfo with
  | Some itemCount =>
      if 0 <? itemCount then
        result ← await DatasetGetData;
        if nullish result
        then Throw (new_Error "Cannot destructure property 'items'")
        else
          '(scrapedData, thrown) ←
            assigned (prop h (js "items") result) "Retrieved items from our dataset";
          match thrown with
          | Some e => Throw e
          | None => mret scrapedData
          end
      else mret scrapedData
  | None => mret scrapedData
  end.

(** The retrieval of the scraped items. *)
Definition retrieve (apolloRun : jsval) : Task Scraped :=
  let datasetId := prop h (js "defaultDatasetId") apolloRun in
  if truthy apolloRun && truthy datasetId then
    interpolate datasetId;;
    console_log "Retrieving data from dataset:";;
    '(scrapedData, datasetError) ← from_dataset_url datasetId Initial;
    match datasetError with
    | None => mret scrapedData
    | Some _ =>
        console_error "Error retrieving data from external dataset:";;
        console_log "Trying fallback with Apify client...";;
        '(scrapedData, clientError) ← from_client datasetId scrapedData;
        match clientError with
        | None => mret scrapedData
        | Some _ =>
            console_error "Apify client also failed:";;
            console_log "Final fallback: checking our own dataset...";;
            from_own_dataset scrapedData
        end
    end
  else
    console_log "No dataset ID in response, checking our own dataset...";;
    from_own_dataset Initial.

(** [!scrapedData || scrapedData.length === 0]. *)
Definition nothing_scraped (scrapedData : Scraped) : bool :=
  match scrapedData with
  | Initial => true
  | Got v =>
      negb (truthy v)
      || match length_of h v with
         | Some (Num n) => n =? 0
         | _ => false
         end
  end.

(** [cleanData(scrapedData)]: [data.map] exists on arrays only. *)
Definition clean (scrapedData : jsval) : Task Items :=
  match scrapedData with
  | Ref l =>
      match h l with
      | Array items =>
          match cleanData stack h items with
          | Done cs => mret (CleanedItems cs)
          | ThrowsTypeError =>
              Throw (new_Error "Cannot convert undefined or null to object")
          | StackExhausted => Throw (new_Error "Maximum call stack size exceeded")
          end
      | Object _ => Throw (new_Error "data.map is not a function")
      end
  | _ => Throw (new_Error "data.map is not a function")
  end.

(** [apolloRun?.key || 'unknown']. *)
Definition run_field (key : string) (apolloRun : jsval) : jsval :=
  or_else (optional_prop h (js key) apolloRun) (Str (js "unknown")).

(** The [try] block of [main] after the scraper has returned. *)
Definition deliver (apolloRun fileName cleanOutput finalWebhookUrl : jsval)
    : Task unit :=
  console_log "Apollo scraper completed successfully";;
  console_log "Run info:";;
  console_log "Waiting for dataset to be ready...";;
  perform (SetTimeout 3000);;
  scrapedData ← retrieve apolloRun;
  if nothing_scraped scrapedData then
    console_log "No data was scraped";;
    timestamp ← perform DateISOString;
    sendToWebhook h finalWebhookUrl NoItems
      (NoDataFound fileName timestamp (run_field "id" apolloRun)
         (run_field "defaultDatasetId" apolloRun) apolloRun)
  else
    match scrapedData with
    | Initial => mret tt
    | Got scraped =>
        processedData ←
          (if truthy cleanOutput
           then console_log "Cleaning output data...";; clean scraped
           else mret (Raw scraped));
        match items_length h processedData with
        | None =>
            Throw (new_Error "Cannot read properties of undefined (reading 'length')")
        | Some count =>
            interpolate count;;
            console_log "Automatically sending leads to webhook...";;
            timestamp ← perform DateISOString;
            sendToWebhook h finalWebhookUrl processedData
              (Delivered count fileName timestamp
                 (run_field "id" apolloRun) (run_field "defaultDatasetId" apolloRun)
                 (WEBHOOK_URL CONFIG) finalWebhookUrl
                 (optional_prop h (js "finishedAt") apolloRun)
                 (optional_prop h (js "startedAt") apolloRun));;
            console_log "Data successfully sent to webhook automatically";;
            attempt (PushData processedData);;
            console_log "Data saved to Apify dataset as backup";;
            console_log "Automated workflow completed successfully!"
        end
    end.

(** The [catch] block of [main]: the error goes to the webhook, and is
    thrown again whether that worked or not. *)
Definition report (apolloRun fileName finalWebhookUrl : jsval) (error : Exn)
    : Task unit :=
  console_error "Error during automated workflow:";;
  try_catch
    (timestamp ← perform DateISOString;
     sendToWebhook h finalWebhookUrl NoItems
       (Failed (message error) fileName timestamp
          (run_field "id" apolloRun) (run_field "defaultDatasetId" apolloRun)
          (WEBHOOK_URL CONFIG) finalWebhookUrl);;
     console_log "Error notification sent to webhook")
    (fun webhookError =>
       console_error "Failed to send error notification to webhook:");;
  Throw error.

(** The [try] of [main] with its [catch]: the scraper is called, its
    result is delivered, and what goes wrong is reported. *)
Definition workflow (url totalRecords fileName cleanOutput finalWebhookUrl : jsval)
    : Task unit :=
  console_log "Starting Apollo scraper...";;
  called ← perform
    (ApifyCall (APOLLO_ACTOR_ID CONFIG) url totalRecords fileName cleanOutput);
  match called with
  | inl error => report Null fileName finalWebhookUrl error
  | inr apolloRun =>
      try_catch
        (deliver apolloRun fileName cleanOutput finalWebhookUrl)
        (report apolloRun fileName finalWebhookUrl)
  end.

(** The destructuring of the input, its checks and the four lines that
    announce the run. *)
Definition checked (input : jsval) : Task unit :=
  if nullish input then Throw (new_Error "Cannot destructure property 'url'")
  else
    let url := prop h (js "url") input in
    let totalRecords :=
      default_to (prop h (js "totalRecords") input) (defaultLeads CONFIG) in
    let fileName :=
      default_to (prop h (js "fileName") input) (defaultFileName CONFIG) in
    let cleanOutput :=
      default_to (prop h (js "cleanOutput") input) (defaultCleanOutput CONFIG) in
    let webhookUrl :=
      default_to (prop h (js "webhookUrl") input) (WEBHOOK_URL CONFIG) in
    if negb (truthy url) then Throw (refusal "Apollo search URL is required")
    else
      match js_includes h (js "app.apollo.io") url with
      | None => Throw (new_Error "url.includes is not a function")
      | Some false =>
          Throw (refusal "Invalid Apollo URL. Must be from app.apollo.io")
      | Some true =>
          let finalWebhookUrl := or_else webhookUrl (WEBHOOK_URL CONFIG) in
          if negb (truthy finalWebhookUrl)
             || is_string (js "https://your-webhook-endpoint.com/apollo-data")
                  finalWebhookUrl
          then Throw (refusal
                        "Webhook URL is required. Please configure it in config.js")
          else
            parses ← perform (NewURL finalWebhookUrl);
            if negb parses then Throw (refusal "Invalid webhook URL format")
            else
              interpolate totalRecords;;
              console_log "Target: leads from Apollo";;
              interpolate fileName;;
              console_log "File name:";;
              interpolate cleanOutput;;
              console_log "Clean output:";;
              interpolate finalWebhookUrl;;
              console_log "Webhook URL:";;
              workflow url totalRecords fileName cleanOutput finalWebhookUrl
      end.

(** The function given to [Apify.main]. *)
Definition main : Task unit :=
  console_log "Starting Apollo Scraper with Automated Webhook Integration";;
  configStatus ← perform GetConfigStatus;
  (if negb (isConfigured configStatus)
   then console_warn "Configuration issues found:";;
        warn_each (errors configStatus)
   else mret tt);;
  input ← await GetInput;
  console_log "Input received:";;
  checked input.

End Main.

(** The outside of one run: what each operation answers. *)
Record Deployment := {
  config_status : ConfigStatus;
  input : Exn + jsval;
  url_parses : jsval -> bool;
  to_string : jsval -> option Exn;
  apify_call : jsval -> jsval -> jsval -> jsval -> jsval -> Exn + jsval;
  axios_get : jsval -> jsval -> Exn + jsval;
  list_items : jsval -> Exn + jsval;
  open_dataset : option Exn;
  dataset_info : Exn + option Z;
  dataset_data : Exn + jsval;
  stringify : Payload -> option Exn;
  axios_post : jsval -> Payload -> Exn + PostResponse;
  push_data : Items -> option Exn;
  now : nat -> jsstring;
}.

(** One operation; the state is the number of clock readings so far. *)
Definition exec (D : Deployment) {B} (op : Op B) (ticks : nat) : B * nat :=
  match op in Op T return T * nat with
  | Console _ _ => (tt, ticks)
  | GetConfigStatus => (config_status D, ticks)
  | GetInput => (input D, ticks)
  | NewURL v => (url_parses D v, ticks)
  | ToString v => (to_string D v, ticks)
  | ApifyCall actorId url totalRecords fileName cleanOutput =>
      (apify_call D actorId url totalRecords fileName cleanOutput, ticks)
  | SetTimeout _ => (tt, ticks)
  | AxiosGet datasetId token => (axios_get D datasetId token, ticks)
  | ClientListItems datasetId => (list_items D datasetId, ticks)
  | OpenDataset => (open_dataset D, ticks)
  | DatasetGetInfo => (dataset_info D, ticks)
  | DatasetGetData => (dataset_data D, ticks)
  | JSONStringify payload => (stringify D payload, ticks)
  | AxiosPost webhookUrl payload => (axios_post D webhookUrl payload, ticks)
  | PushData items => (push_data D items, ticks)
  | DateISOString => (now D ticks, S ticks)
  end.

Inductive Event :=
| Ev {B : Type} (op : Op B) (result : B).

Inductive Outcome (A : Type) :=
| Returned (a : A)
| Thrown (e : Exn).
Arguments Returned {A} a.
Arguments Thrown {A} e.

Fixpoint run (D : Deployment) {A} (p : Task A) (ticks : nat)
    : Outcome A * nat * list Event :=
  match p with
  | Ret a => (Returned a, ticks, [])
  | Throw e => (Thrown e, ticks, [])
  | Vis op k =>
      let '(b, ticks1) := exec D op ticks in
      let '(r, ticks2, t) := run D (k b) ticks1 in
      (r, ticks2, Ev op b :: t)
  end.

(** The outcome and the trace of a run of [main]. *)
Definition outcome (D : Deployment) (CONFIG : Config) (stack : nat) (h : heap)
    : Outcome unit :=
  (run D (main CONFIG stack h) 0).1.1.

Definition trace (D : Deployment) (CONFIG : Config) (stack : nat) (h : heap)
    : list Event :=
  (run D (main CONFIG stack h) 0).2.

(** The calls of the scraper, in order. *)
Definition scraper_call_of (e : Event) : option (jsval * jsval) :=
  match e with
  | Ev op _ =>
      match op with
      | ApifyCall _ url _ _ cleanOutput => Some (url, cleanOutput)
      | _ => None
      end
  end.

Definition scraper_calls (t : list Event) : list (jsval * jsval) :=
  omap scraper_call_of t.

(** The calls of [sendToWebhook], in order: each begins by serialising its
    payload. *)
Definition sent_of (e : Event) : option Payload :=
  match e with
  | Ev op _ =>
      match op with
      | JSONStringify payload => Some payload
      | _ => None
      end
  end.

Definition sent (t : list Event) : list Payload := omap sent_of t.

(** The requests to the webhook, each with its target and whether it was
    answered. *)
Definition post_of (e : Event) : option (jsval * Payload * bool) :=
  match e with
  | Ev op r =>
      match op in Op T return T -> option (jsval * Payload * bool) with
      | AxiosPost webhookUrl payload =>
          fun r =>
            Some (webhookUrl, payload,
                  match r with inl _ => false | inr _ => true end)
      | _ => fun _ => None
      end r
  end.

Definition posts (t : list Event) : list (jsval * Payload * bool) :=
  omap post_of t.

(** The items given to [Apify.pushData]. *)
Definition pushed_of (e : Event) : option Items :=
  match e with
  | Ev op _ =>
      match op with
      | PushData items => Some items
      | _ => None
      end
  end.

Definition pushed (t : list Event) : list Items := omap pushed_of t.

(** The operation leaves the process (anything but the console, the
    configuration, the input, the URL parser, the conversions to a string,
    the clock, the timer and the serialiser). *)
Definition is_call (e : Event) : bool :=
  match e with
  | Ev op _ =>
      match op with
      | ApifyCall _ _ _ _ _ | AxiosGet _ _ | ClientListItems _ | OpenDataset
      | DatasetGetInfo | DatasetGetData | AxiosPost _ _ | PushData _ => true
      | _ => false
      end
  end.

(** The value converts to a string when a template literal holds it. *)
Definition printable (D : Deployment) (v : jsval) : bool :=
  match v with
  | Ref _ => match to_string D v with None => true | Some _ => false end
  | _ => true
  end.

(** What [main] takes from its input: the URL, the number of records, the
    file name and the cleaning flag (the configured defaults when the input
    has none), and the webhook URL (the input's when it is truthy, else the
    configured one). *)
Definition input_url (h : heap) (given : jsval) : jsval := prop h (js "url") given.

Definition input_totalRecords (CONFIG : Config) (h : heap) (given : jsval) : jsval :=
  default_to (prop h (js "totalRecords") given) (defaultLeads CONFIG).

Definition input_fileName (CONFIG : Config) (h : heap) (given : jsval) : jsval :=
  default_to (prop h (js "fileName") given) (defaultFileName CONFIG).

Definition input_cleanOutput (CONFIG : Config) (h : heap) (given : jsval) : jsval :=
  default_to (prop h (js "cleanOutput") given) (defaultCleanOutput CONFIG).

Definition input_webhookUrl (CONFIG : Config) (h : heap) (given : jsval) : jsval :=
  or_else (default_to (prop h (js "webhookUrl") given) (WEBHOOK_URL CONFIG))
    (WEBHOOK_URL CONFIG).

(** The input passes the checks of [main] and [main] reaches its [try]:
    the input is not null or undefined, its [url] is truthy and has an
    [includes] method that finds "app.apollo.io", the webhook URL is
    truthy, is not the placeholder and parses as a URL, and the four
    values that [main] logs convert to strings. *)
Definition valid_input (D : Deployment) (CONFIG : Config) (h : heap)
    (given : jsval) : bool :=
  negb (nullish given)
  && truthy (input_url h given)
  && match js_includes h (js "app.apollo.io") (input_url h given) with
     | Some found => found
     | None => false
     end
  && truthy (input_webhookUrl CONFIG h given)
  && negb (is_string (js "https://your-webhook-endpoint.com/apollo-data")
             (input_webhookUrl CONFIG h given))
  && url_parses D (input_webhookUrl CONFIG h given)
  && printable D (input_totalRecords CONFIG h given)
  && printable D (input_fileName CONFIG h given)
  && printable D (input_cleanOutput CONFIG h given)
  && printable D (input_webhookUrl CONFIG h given).

(** The payload of the error notification for [e]. *)
Definition is_report_of (e : Exn) (payload : Payload) : bool :=
  match data payload, metadata payload with
  | NoItems, Failed error _ _ _ _ _ _ => bool_decide (error = message e)
  | _, _ => false
  end.

(** The payload announces scraped items. *)
Definition is_delivery (payload : Payload) : bool :=
  match metadata payload with
  | Delivered _ _ _ _ _ _ _ _ _ => true
  | _ => false
  end.

(** The trace shows no call of the scraper, no use of [sendToWebhook] and
    no [pushData]. *)
Definition quiet (t : list Event) : Prop :=
  scraper_calls t = [] /\ sent t = [] /\ posts t = [] /\ pushed t = [].

(** The items follow the [cleanOutput] flag: when it is truthy, objects
    made by [cleanData], each of which passes [is_cleaned_item] (the
    elements of arrays are tested, not cleaned); the scraped value as it
    came otherwise. *)
Definition follows_flag (cleanOutput : jsval) (items : Items) : Prop :=
  if truthy cleanOutput
  then exists cs, items = CleanedItems cs
                  /\ Forall (fun c => is_cleaned_item c = true) cs
  else exists v, items = Raw v /\ truthy v = true.

(** The ways the [try] block of [main] can end once the scraper has
    returned, by what the trace shows of the webhook at [target] and of
    [pushData]. *)
Inductive Delivery (target cleanOutput : jsval)
    : Outcome unit -> list Event -> Prop :=
| nothing_found t payload :
    sent t = [payload] -> posts t = [(target, payload, true)] -> pushed t = [] ->
    data payload = NoItems -> success (metadata payload) = true ->
    is_delivery payload = false ->
    Delivery target cleanOutput (Returned tt) t
| delivered_and_saved t payload :
    sent t = [payload] -> posts t = [(target, payload, true)] ->
    pushed t = [data payload] ->
    is_delivery payload = true -> follows_flag cleanOutput (data payload) ->
    Delivery target cleanOutput (Returned tt) t
| nothing_sent e t :
    sent t = [] -> posts t = [] -> pushed t = [] ->
    Delivery target cleanOutput (Thrown e) t
| not_accepted e t payload :
    sent t = [payload] ->
    posts t = [] \/ posts t = [(target, payload, false)] ->
    pushed t = [] -> success (metadata payload) = true ->
    (is_delivery payload = true -> follows_flag cleanOutput (data payload)) ->
    Delivery target cleanOutput (Thrown e) t
| not_saved e t payload :
    sent t = [payload] -> posts t = [(target, payload, true)] ->
    pushed t = [data payload] ->
    is_delivery payload = true -> follows_flag cleanOutput (data payload) ->
    Delivery target cleanOutput (Thrown e) t.

End Actor.

(* ================================================================== *)
(** * A run of the actor, for the examples                             *)
(* ================================================================== *)

Module ActorCases.
Import Normalizer Actor.

(** The input of the run, the run of the scraper, its dataset of two
    leads, and an input whose URL is not of app.apollo.io. *)
Definition heap : Normalizer.heap := fun l =>
  match l with
  | 0%nat => Object [(js "url", Str (js "https://app.apollo.io/#/people?page=1"));
                     (js "totalRecords", Num 500);
                     (js "fileName", Str (js "A1B2C3"));
                     (js "email", Str (js "buyer@example.com"));
                     (js "cleanOutput", Bool true)]
  | 1%nat => Object [(js "id", Str (js "run_1"));
                     (js "defaultDatasetId", Str (js "ds_1"))]
  | 2%nat => Array [Ref 3%nat; Ref 4%nat]
  | 3%nat => Object [(js "name", Str (js "Ada")); (js "phone", Null);
                     (js "company", Ref 5%nat)]
  | 4%nat => Object [(js "name", Str (js "Grace")); (js "phone", Str [])]
  | 5%nat => Object [(js "site", Null)]
  | _ => Object [(js "url", Str (js "https://www.apollo.io/pricing"))]
  end.

Definition CONFIG : Config :=
  {| APOLLO_ACTOR_ID := Str (js "code_crafter/apollo-io-scraper");
     APIFY_TOKEN := Str (js "apify_api_SECRET");
     WEBHOOK_URL := Str (js "https://hooks.example.com/leads");
     defaultLeads := Num 100;
     defaultFileName := Str (js "apollo-leads");
     defaultCleanOutput := Bool false |}.

(** A deployment on which everything answers: the dataset of the run
    holds the two leads, the webhook answers 200. *)
Definition deployment (given : jsval) : Deployment :=
  {| config_status := {| isConfigured := true; errors := [] |};
     input := inr given;
     url_parses := fun v => match v with Str _ => true | _ => false end;
     to_string := fun _ => None;
     apify_call := fun _ _ _ _ _ => inr (Ref 1%nat);
     axios_get := fun _ _ => inr (Ref 2%nat);
     list_items := fun _ => inl (new_Error "not reached");
     open_dataset := None;
     dataset_info := inr None;
     dataset_data := inl (new_Error "not reached");
     stringify := fun _ => None;
     axios_post := fun _ _ =>
       inr {| status := 200; statusText := js "OK"; response_data := Undefined |};
     push_data := fun _ => None;
     now := fun _ => js "2023-11-14T22:13:20.000Z" |}.

End ActorCases.

(* ================================================================== *)
(** * Facts: UTF-8 and base64 round trips                              *)
(* ================================================================== *)

Module BufferFacts.

(** Decide the next integer comparison of the goal, discarding the branch
    that contradicts the hypotheses. *)
Ltac zarith := Z.div_mod_to_equations; lia.

Ltac zcase :=
  match goal with
  | |- context [?a <? ?b] => destruct (Z.ltb_spec a b)
  | |- context [?a <=? ?b] => destruct (Z.leb_spec a b)
  | |- context [?a =? ?b] => destruct (Z.eqb_spec a b)
  end; try (exfalso; zarith); simpl.

Lemma unbase64_b64_char v :
  0 <= v < 64 -> unbase64 (b64_char v) = Some v /\ b64_char v <> 61.
Proof.
  intros Hv. unfold unbase64, b64_char, in_range.
  repeat zcase; split; (f_equal; lia) || lia.
Qed.

Lemma b64_sextets_char v r :
  0 <= v < 64 -> b64_sextets (b64_char v :: r) = v :: b64_sextets r.
Proof.
  intros Hv. destruct (unbase64_b64_char v Hv) as [Hu Hne]. simpl.
  rewrite Hu. destruct (Z.eqb_spec (b64_char v) 61); [contradiction | reflexivity].
Qed.

Lemma list_ind3 {A} (P : list A -> Prop) :
  P [] -> (forall a, P [a]) -> (forall a b, P [a; b]) ->
  (forall a b c l, P l -> P (a :: b :: c :: l)) ->
  forall l, P l.
Proof.
  intros H0 H1 H2 H3.
  fix IH 1. intros [|a [|b [|c l]]]; [exact H0 | apply H1 | apply H2 |].
  apply H3, IH.
Qed.

Lemma base64_decode_encode bs :
  Forall byte bs -> base64_decode (base64_encode bs) = bs.
Proof.
  unfold base64_decode, byte.
  induction bs as [|a|a b|a b c l IH] using list_ind3; intros Hb.
  - reflexivity.
  - apply Forall_cons in Hb as [Ha _]. cbn [base64_encode].
    rewrite !b64_sextets_char by zarith. simpl. f_equal. zarith.
  - apply Forall_cons in Hb as [Ha Hb]. apply Forall_cons in Hb as [Hb _].
    cbn [base64_encode].
    rewrite !b64_sextets_char by zarith. simpl. f_equal; [| f_equal]; zarith.
  - apply Forall_cons in Hb as [Ha Hb]. apply Forall_cons in Hb as [Hb Hc].
    apply Forall_cons in Hc as [Hc Hl].
    cbn [base64_encode app].
    rewrite !b64_sextets_char by zarith. cbn [b64_bytes].
    rewrite IH by assumption. f_equal; [| f_equal; [| f_equal]]; zarith.
Qed.


Ltac zlin_decide :=
  match goal with
  | |- context [?a =? ?b] =>
      first [ rewrite (proj2 (Z.eqb_eq a b)) by lia
            | rewrite (proj2 (Z.eqb_neq a b)) by lia
            | destruct (Z.eqb_spec a b) ]
  | |- context [?a <? ?b] =>
      first [ rewrite (proj2 (Z.ltb_lt a b)) by lia
            | rewrite (proj2 (Z.ltb_ge a b)) by lia
            | destruct (Z.ltb_spec a b) ]
  | |- context [?a <=? ?b] =>
      first [ rewrite (proj2 (Z.leb_le a b)) by lia
            | rewrite (proj2 (Z.leb_gt a b)) by lia
            | destruct (Z.leb_spec a b) ]
  end; cbn [andb orb negb].

Lemma surrogate_bounds u :
  is_high_surrogate u = false -> is_low_surrogate u = false ->
  u < 0xD800 \/ 0xDFFF < u.
Proof.
  unfold is_high_surrogate, is_low_surrogate, in_range. intros Hh Hl.
  apply andb_false_iff in Hh, Hl. rewrite !Z.leb_gt in Hh, Hl. lia.
Qed.

Lemma utf8_decode_bytes3 u r :
  0x800 <= u < 65536 -> is_high_surrogate u = false -> is_low_surrogate u = false ->
  utf8_decode (utf8_bytes3 u ++ r) = u :: utf8_decode r.
Proof.
  intros Hu Hh Hl. pose proof (surrogate_bounds u Hh Hl) as Hs.
  unfold utf8_bytes3.
  assert (H1 : 0 <= u / 4096 < 16) by zarith.
  assert (H2 : 0 <= (u / 64) mod 64 < 64) by zarith.
  assert (H3 : 0 <= u mod 64 < 64) by zarith.
  assert (Hlo : u / 4096 = 0 -> 32 <= (u / 64) mod 64) by zarith.
  assert (Hhi : u / 4096 = 13 -> (u / 64) mod 64 < 32) by zarith.
  assert (Hv : u / 4096 * 4096 + (u / 64) mod 64 * 64 + u mod 64 = u) by zarith.
  revert H1 H2 H3 Hlo Hhi Hv.
  generalize (u / 4096), ((u / 64) mod 64), (u mod 64). intros q1 q2 q3 H1 H2 H3 Hlo Hhi Hv.
  cbn [app utf8_decode].
  unfold in_range, is_cont, second_lo, second_hi, in_range.
  repeat zlin_decide; f_equal; lia.
Qed.

Lemma utf8_decode_bytes4 h l r :
  is_high_surrogate h = true -> is_low_surrogate l = true ->
  utf8_decode (utf8_bytes4 (0x10000 + (h - 0xD800) * 0x400 + (l - 0xDC00)) ++ r)
  = h :: l :: utf8_decode r.
Proof.
  unfold is_high_surrogate, is_low_surrogate, in_range. intros Hh Hl.
  apply andb_true_iff in Hh as [Hh1 Hh2]. apply andb_true_iff in Hl as [Hl1 Hl2].
  apply Z.leb_le in Hh1, Hh2, Hl1, Hl2.
  set (cp := 0x10000 + (h - 0xD800) * 0x400 + (l - 0xDC00)).
  assert (Hcp : 0x10000 <= cp <= 0x10FFFF) by (unfold cp; lia).
  assert (Hpair : surrogate_pair cp = [h; l]).
  { unfold surrogate_pair, cp. f_equal; [| f_equal]; zarith. }
  clearbody cp. unfold utf8_bytes4.
  assert (H1 : 0 <= cp / 262144 <= 4) by zarith.
  assert (H2 : 0 <= (cp / 4096) mod 64 < 64) by zarith.
  assert (H3 : 0 <= (cp / 64) mod 64 < 64) by zarith.
  assert (H4 : 0 <= cp mod 64 < 64) by zarith.
  assert (Hlo : cp / 262144 = 0 -> 16 <= (cp / 4096) mod 64) by zarith.
  assert (Hhi : cp / 262144 = 4 -> (cp / 4096) mod 64 < 16) by zarith.
  assert (Hv : cp / 262144 * 262144 + (cp / 4096) mod 64 * 4096
               + (cp / 64) mod 64 * 64 + cp mod 64 = cp) by zarith.
  revert H1 H2 H3 H4 Hlo Hhi Hv.
  generalize (cp / 262144), ((cp / 4096) mod 64), ((cp / 64) mod 64), (cp mod 64).
  intros q1 q2 q3 q4 H1 H2 H3 H4 Hlo Hhi Hv.
  cbn [app utf8_decode].
  unfold in_range, is_cont, second_lo, second_hi, in_range.
  repeat zlin_decide.
  all: match goal with |- surrogate_pair ?x ++ _ = _ => replace x with cp by lia end.
  all: rewrite Hpair; reflexivity.
Qed.

Lemma utf8_decode_bytes2 u r :
  0x80 <= u < 0x800 ->
  utf8_decode ((0xC0 + u / 64) :: (0x80 + u mod 64) :: r) = u :: utf8_decode r.
Proof.
  intros Hu.
  assert (H1 : 2 <= u / 64 < 32) by zarith.
  assert (H2 : 0 <= u mod 64 < 64) by zarith.
  assert (Hv : u / 64 * 64 + u mod 64 = u) by zarith.
  revert H1 H2 Hv. generalize (u / 64), (u mod 64). intros q1 q2 H1 H2 Hv.
  cbn [utf8_decode]. unfold in_range, is_cont, in_range.
  repeat zlin_decide; f_equal; lia.
Qed.

Lemma utf8_decode_encode_bounded n : forall s,
  (length s <= n)%nat -> Forall code_unit s -> well_formed s = true ->
  utf8_decode (utf8_encode s) = s.
Proof.
  induction n as [|n IH]; intros [|u rest] Hn Hcu Hwf; try reflexivity.
  - simpl in Hn. lia.
  - apply Forall_cons in Hcu as [Hu Hrest]. unfold code_unit in Hu.
    simpl in Hn. cbn [utf8_encode well_formed] in *.
    destruct (Z.ltb_spec u 0x80).
    { cbn [utf8_decode]. rewrite (proj2 (Z.ltb_lt u 0x80)) by lia.
      f_equal. apply IH; [lia | assumption |].
      destruct (is_high_surrogate u) eqn:Hh.
      - unfold is_high_surrogate, in_range in Hh. lia.
      - apply andb_true_iff in Hwf as [_ Hwf]. exact Hwf. }
    destruct (Z.ltb_spec u 0x800).
    { rewrite utf8_decode_bytes2 by lia.
      f_equal. apply IH; [lia | assumption |].
      destruct (is_high_surrogate u) eqn:Hh.
      - unfold is_high_surrogate, in_range in Hh. lia.
      - apply andb_true_iff in Hwf as [_ Hwf]. exact Hwf. }
    destruct (is_high_surrogate u) eqn:Hh.
    + destruct rest as [|l rest']; [discriminate Hwf |].
      apply andb_true_iff in Hwf as [Hl Hwf]. rewrite Hl.
      rewrite utf8_decode_bytes4 by assumption.
      apply Forall_cons in Hrest as [_ Hrest'].
      do 2 f_equal. apply IH; [simpl in Hn; lia | assumption | assumption].
    + apply andb_true_iff in Hwf as [Hl Hwf]. apply negb_true_iff in Hl.
      rewrite Hl. rewrite utf8_decode_bytes3 by (assumption || lia).
      f_equal. apply IH; [lia | assumption | assumption].
Qed.

Lemma utf8_decode_encode s :
  Forall code_unit s -> well_formed s = true -> utf8_decode (utf8_encode s) = s.
Proof. apply (utf8_decode_encode_bounded (length s)). lia. Qed.

Lemma utf8_encode_bytes_bounded n : forall s,
  (length s <= n)%nat -> Forall code_unit s -> Forall byte (utf8_encode s).
Proof.
  unfold byte.
  induction n as [|n IH]; intros [|u rest] Hn Hcu; try (constructor; fail).
  - simpl in Hn. lia.
  - apply Forall_cons in Hcu as [Hu Hrest]. unfold code_unit in Hu.
    simpl in Hn. cbn [utf8_encode].
    assert (Hr : Forall (fun b => 0 <= b < 256) (utf8_encode rest))
      by (apply IH; [lia | assumption]).
    destruct (Z.ltb_spec u 0x80); [constructor; [lia | assumption] |].
    destruct (Z.ltb_spec u 0x800).
    { repeat constructor; try zarith. assumption. }
    destruct (is_high_surrogate u) eqn:Hh.
    + destruct rest as [|l rest']; [repeat constructor; lia |].
      destruct (is_low_surrogate l) eqn:Hl.
      * apply Forall_cons in Hrest as [Hlu Hrest']. unfold code_unit in Hlu.
        unfold is_high_surrogate, is_low_surrogate, in_range in Hh, Hl.
        apply Forall_app. split.
        -- unfold utf8_bytes4. repeat constructor; zarith.
        -- apply IH; [simpl in Hn; lia | assumption].
      * apply Forall_app. split; [repeat constructor; lia | assumption].
    + destruct (is_low_surrogate u);
        (apply Forall_app; split; [| assumption]).
      * repeat constructor; lia.
      * unfold utf8_bytes3. repeat constructor; zarith.
Qed.

End BufferFacts.

(* ================================================================== *)
(** * Facts: decimal texts, chunks and their keys                      *)
(* ================================================================== *)

Module JsStringFacts.

Lemma is_digit_dec_value c : is_digit c = true -> dec_value c = Some (c - 48).
Proof. unfold dec_value. intros ->. reflexivity. Qed.

Lemma digits_from_digits fuel : forall n acc,
  0 <= n -> Forall (fun c => is_digit c = true) acc ->
  Forall (fun c => is_digit c = true) (digits_from fuel n acc).
Proof.
  induction fuel as [|f IH]; intros n acc Hn Hacc; cbn; [assumption |].
  assert (Hd : is_digit (48 + n mod 10) = true).
  { unfold is_digit. apply andb_true_iff. split; apply Z.leb_le;
      Z.div_mod_to_equations; lia. }
  destruct (n <? 10).
  - constructor; assumption.
  - apply IH; [Z.div_mod_to_equations; lia | constructor; assumption].
Qed.

Lemma digits_from_nonempty fuel n acc : digits_from (S fuel) n acc <> [].
Proof.
  revert n acc. induction fuel as [|f IH]; intros n acc; cbn.
  - destruct (n <? 10); discriminate.
  - destruct (n <? 10); [discriminate |]. apply IH.
Qed.

Lemma digits_from_S f n acc :
  digits_from (S f) n acc =
  if n <? 10 then (48 + n mod 10) :: acc
  else digits_from f (n / 10) ((48 + n mod 10) :: acc).
Proof. reflexivity. Qed.

(** Parsing the digits of [n] gives [n] back. *)
Lemma parse_digits_from fuel : forall n acc,
  0 <= n < 2 ^ Z.of_nat (S fuel) ->
  parse_digits 10 dec_value (digits_from (S fuel) n acc) None
  = parse_digits 10 dec_value acc (Some n).
Proof.
  induction fuel as [|f IH]; intros n acc Hn.
  all: rewrite Nat2Z.inj_succ, Z.pow_succ_r in Hn by lia.
  all: assert (Hd : dec_value (48 + n mod 10) = Some (n mod 10))
         by (rewrite is_digit_dec_value;
             [f_equal; lia
             | unfold is_digit; apply andb_true_iff; split; apply Z.leb_le;
               Z.div_mod_to_equations; lia]).
  all: rewrite digits_from_S; destruct (Z.ltb_spec n 10).
  - cbn [parse_digits]. rewrite Hd. cbn. do 2 f_equal.
    Z.div_mod_to_equations; lia.
  - cbn in Hn. lia.
  - cbn [parse_digits]. rewrite Hd. cbn. do 2 f_equal.
    Z.div_mod_to_equations; lia.
  - rewrite IH by (Z.div_mod_to_equations; lia).
    cbn [parse_digits]. rewrite Hd. cbn. do 2 f_equal.
    Z.div_mod_to_equations; lia.
Qed.

Lemma digit_bound_enough n : 0 <= n -> n < 2 ^ Z.of_nat (digit_bound n).
Proof.
  intros Hn. unfold digit_bound.
  rewrite Nat2Z.inj_succ, Z2Nat.id by apply Z.log2_nonneg.
  destruct (Z.eq_dec n 0) as [->|Hne]; [reflexivity |].
  apply Z.log2_spec. lia.
Qed.

Lemma number_toString_digits n :
  0 <= n ->
  Forall (fun c => is_digit c = true) (number_toString n)
  /\ number_toString n <> [].
Proof.
  intros Hn. unfold number_toString.
  destruct (Z.ltb_spec n 0); [lia |]. split.
  - apply digits_from_digits; [assumption | constructor].
  - apply digits_from_nonempty.
Qed.

Lemma is_digit_not_whitespace c : is_digit c = true -> is_whitespace c = false.
Proof.
  unfold is_digit, is_whitespace. intros H.
  apply andb_true_iff in H as [H1 H2]. apply Z.leb_le in H1, H2.
  repeat match goal with
    | |- context [?a <=? ?b] => destruct (Z.leb_spec a b); try lia
    | |- context [?a =? ?b] => destruct (Z.eqb_spec a b); try lia
    end; reflexivity.
Qed.

(** [parseInt] on a text of decimal digits reads all of them. *)
Lemma parseInt_digits s :
  Forall (fun c => is_digit c = true) s -> s <> [] ->
  parseInt s = parse_digits 10 dec_value s None ≫= (fun m => Some (1 * m)).
Proof.
  intros Hs Hne. unfold parseInt.
  destruct s as [|c1 r]; [contradiction |].
  apply Forall_cons in Hs as [Hc1 Hr].
  cbn [skip_whitespace]. rewrite (is_digit_not_whitespace c1 Hc1).
  assert (H1 : 48 <= c1 <= 57).
  { unfold is_digit in Hc1. apply andb_true_iff in Hc1 as [Ha Hb].
    apply Z.leb_le in Ha, Hb. lia. }
  destruct (Z.eqb_spec c1 45); [lia |]. destruct (Z.eqb_spec c1 43); [lia |].
  destruct r as [|c2 r'].
  - destruct (parse_digits 10 dec_value [c1] None); reflexivity.
  - apply Forall_cons in Hr as [Hc2 _].
    assert (H2 : 48 <= c2 <= 57).
    { unfold is_digit in Hc2. apply andb_true_iff in Hc2 as [Ha Hb].
      apply Z.leb_le in Ha, Hb. lia. }
    destruct (Z.eqb_spec c2 120); [lia |]. destruct (Z.eqb_spec c2 88); [lia |].
    rewrite andb_false_r.
    destruct (parse_digits 10 dec_value (c1 :: c2 :: r') None); reflexivity.
Qed.

Lemma parseInt_number_toString n :
  0 <= n -> parseInt (number_toString n) = Some n.
Proof.
  intros Hn. destruct (number_toString_digits n Hn) as [Hd Hne].
  rewrite parseInt_digits by assumption.
  unfold number_toString in *. destruct (Z.ltb_spec n 0); [lia |].
  unfold digit_bound.
  rewrite parse_digits_from by (split; [assumption | apply digit_bound_enough; assumption]).
  cbn. f_equal. lia.
Qed.

Lemma number_toString_inj n m :
  0 <= n -> 0 <= m -> number_toString n = number_toString m -> n = m.
Proof.
  intros Hn Hm Heq.
  pose proof (parseInt_number_toString n Hn) as H1.
  pose proof (parseInt_number_toString m Hm) as H2.
  rewrite Heq in H1. congruence.
Qed.

End JsStringFacts.

Module CodecFacts.
Import JsStringFacts.
Local Open Scope nat_scope.
#[local] Arguments chunkKey : simpl never.
#[local] Arguments truthy : simpl never.

(** *** Chunking *)

Lemma split_from_concat fuel : forall i (s : jsstring),
  length s <= i + fuel -> concat (split_from fuel i s) = drop i s.
Proof.
  induction fuel as [|f IH]; intros i s Hlen; cbn [split_from].
  - rewrite drop_ge by lia. reflexivity.
  - destruct (Nat.ltb_spec i (length s)).
    + cbn [concat]. rewrite IH by (unfold chunkSize; lia).
      unfold slice. replace (i + chunkSize - i) with chunkSize by lia.
      rewrite <- drop_drop. apply take_drop.
    + rewrite drop_ge by lia. reflexivity.
Qed.

Lemma urlChunks_concat s : concat (urlChunks s) = s.
Proof. unfold urlChunks. rewrite split_from_concat by lia. apply drop_0. Qed.

Lemma split_from_chunks fuel : forall i (s : jsstring),
  Forall (fun chunk => truthy chunk = true /\ length chunk <= chunkSize)
    (split_from fuel i s).
Proof.
  induction fuel as [|f IH]; intros i s; cbn [split_from]; [constructor |].
  destruct (Nat.ltb_spec i (length s)); [| constructor].
  constructor; [| apply IH]. unfold slice.
  replace (i + chunkSize - i) with chunkSize by lia. split.
  - destruct (drop i s) as [|c r] eqn:E; [| reflexivity].
    apply (f_equal length) in E. rewrite length_drop in E. cbn in E. lia.
  - rewrite length_take. lia.
Qed.

(** *** Chunk keys *)

Lemma chunkKey_inj i j : chunkKey i = chunkKey j -> i = j.
Proof.
  unfold chunkKey. intros H. apply app_inv_head in H.
  apply number_toString_inj in H; lia.
Qed.

Lemma chunkKey_not_count i : chunkKey i <> js "urlChunkCount".
Proof.
  unfold chunkKey. change (js "urlChunkCount") with (js "urlChunk" ++ js "Count").
  intros H. apply app_inv_head in H.
  destruct (number_toString_digits (Z.of_nat i)) as [Hd _]; [lia |].
  rewrite H in Hd. apply Forall_cons in Hd as [Hd _]. discriminate Hd.
Qed.

Lemma add_chunks_other chunks : forall index md key,
  (forall i, key <> chunkKey i) ->
  add_chunks chunks index md !! key = md !! key.
Proof.
  induction chunks as [|c r IH]; intros index md key Hkey; cbn; [reflexivity |].
  rewrite IH by assumption. apply lookup_insert_ne.
  intros Heq. apply (Hkey index). symmetry. exact Heq.
Qed.

Lemma add_chunks_before chunks : forall index md i,
  i < index -> add_chunks chunks index md !! chunkKey i = md !! chunkKey i.
Proof.
  induction chunks as [|c r IH]; intros index md i Hi; cbn; [reflexivity |].
  rewrite IH by lia. apply lookup_insert_ne. intros H%chunkKey_inj. lia.
Qed.

Lemma add_chunks_chunk chunks : forall index md j,
  j < length chunks ->
  add_chunks chunks index md !! chunkKey (index + j) = chunks !! j.
Proof.
  induction chunks as [|c r IH]; intros index md j Hj; cbn in *; [lia |].
  destruct j as [|j].
  - rewrite Nat.add_0_r, add_chunks_before by lia. apply lookup_insert_eq.
  - replace (index + S j) with (S index + j) by lia. apply IH. lia.
Qed.

(** *** Reconstruction *)

Lemma reconstruct_from_chunks md chunks : forall i acc,
  (forall j, j < length chunks -> md !! chunkKey (i + j) = chunks !! j) ->
  Forall (fun chunk => truthy chunk = true) chunks ->
  reconstruct_from md i (length chunks) acc = Returned (acc ++ concat chunks).
Proof.
  induction chunks as [|c r IH]; intros i acc Hmd Htr; cbn.
  - rewrite app_nil_r. reflexivity.
  - apply Forall_cons in Htr as [Hc Hr].
    pose proof (Hmd 0 ltac:(cbn; lia)) as H0. rewrite Nat.add_0_r in H0.
    cbn in H0. rewrite H0, Hc, IH, <- app_assoc; [reflexivity | | assumption].
    intros j Hj. specialize (Hmd (S j) ltac:(cbn; lia)).
    replace (S i + j) with (i + S j) by lia. exact Hmd.
Qed.

Lemma reconstruct_from_present md n : forall i acc,
  (forall j, j < n -> is_Some (option_truthy (md !! chunkKey (i + j)))) ->
  reconstruct_from md i n acc
  = Returned (acc ++ concat ((fun k => default [] (md !! chunkKey k)) <$> seq i n)).
Proof.
  induction n as [|n IH]; intros i acc Hmd; cbn.
  - rewrite app_nil_r. reflexivity.
  - destruct (Hmd 0 ltac:(lia)) as [c Hc]. rewrite Nat.add_0_r in Hc.
    unfold option_truthy in Hc.
    destruct (md !! chunkKey i) as [chunk|]; [| discriminate].
    destruct (truthy chunk); [| discriminate].
    rewrite IH, <- app_assoc; [reflexivity |].
    intros j Hj. replace (S i + j) with (i + S j) by lia. apply Hmd. lia.
Qed.

End CodecFacts.

(* ================================================================== *)
(** * Facts: [cleanData]                                               *)
(* ================================================================== *)

Module NormalizerFacts.
Import Normalizer.
Local Open Scope nat_scope.

Example cleanData_example :
  cleanData 2 example_heap [Ref 0]
  = Done [Cleaned [(js "c", Cleaned [(js "d", Kept (Str (js "x")))]);
                   (js "f", KeptArray [Num 1%Z])]].
Proof. reflexivity. Qed.

Lemma cleanData_cyclic stack : cleanData stack cyclic_heap [Ref 0] = StackExhausted.
Proof.
  induction stack as [|n IH]; [reflexivity |].
  cbn [cleanData map_items]. unfold clean_item, entries, cyclic_heap at 1.
  cbn [clean_entries present]. unfold cyclic_heap at 1.
  rewrite IH. reflexivity.
Qed.

Lemma chain_heap_link n l : l < n -> chain_heap n l = Object [(js "next", Ref (S l))].
Proof. intros H. unfold chain_heap. destruct (Nat.ltb_spec l n); [reflexivity | lia]. Qed.

Lemma cleanData_chain_exhausts n : forall l,
  cleanData n (chain_heap (l + n)) [Ref l] = StackExhausted.
Proof.
  induction n as [|n IH]; intros l; [reflexivity |].
  cbn [cleanData map_items]. unfold clean_item, entries.
  rewrite chain_heap_link by lia.
  cbn [clean_entries present].
  assert (Hobj : exists ps, chain_heap (l + S n) (S l) = Object ps).
  { unfold chain_heap. destruct (S l <? l + S n); eauto. }
  destruct Hobj as [ps ->].
  replace (l + S n) with (S l + n) by lia. rewrite IH. reflexivity.
Qed.

Lemma clean_entries_mono (r1 r2 : list jsval -> Result (list cleaned)) h es :
  (forall key value, In (key, value) es -> is_object h value -> r1 [value] = r2 [value]) ->
  clean_entries r1 h es = clean_entries r2 h es.
Proof.
  induction es as [|[key value] rest IH]; intros Hr; [reflexivity |].
  cbn [clean_entries]. rewrite IH by (intros; eapply Hr; [right|]; eassumption).
  destruct (present value); [| reflexivity].
  destruct value as [| | | | |l]; try reflexivity.
  destruct (h l) eqn:Hl; [| reflexivity].
  rewrite (Hr key (Ref l)); [reflexivity | left; reflexivity |].
  simpl. rewrite Hl. exact I.
Qed.

Lemma cleanData_item_total h d : forall item,
  nesting h d item ->
  forall stack, (d <= stack)%nat ->
    cleanData stack h [item] = cleanData d h [item] /\ terminates (cleanData d h [item]).
Proof.
  induction d as [|d IH]; intros item Hn; [inversion Hn |].
  inversion Hn as [d' item' Hsub]; subst.
  intros [|stack] Hle; [lia |]. 
  cbn [cleanData map_items]. unfold clean_item.
  destruct (entries h item) as [es|] eqn:He; [| split; [reflexivity | discriminate]].
  assert (Hes : forall key value, In (key, value) es -> is_object h value ->
            cleanData stack h [value] = cleanData d h [value] /\ terminates (cleanData d h [value])).
  { intros key value Hin Hobj. apply IH; [eapply Hsub; eauto | lia]. }
  rewrite (clean_entries_mono (cleanData stack h) (cleanData d h) h es)
    by (intros; eapply Hes; eauto).
  split; [reflexivity |].
  assert (Ht : terminates (clean_entries (cleanData d h) h es)).
  { clear He Hsub Hn. induction es as [|[key value] rest IHes]; [discriminate |].
    cbn [clean_entries].
    assert (Hrest : terminates (clean_entries (cleanData d h) h rest))
      by (apply IHes; intros; eapply Hes; [right|]; eassumption).
    unfold terminates in *.
    destruct (clean_entries (cleanData d h) h rest) eqn:Er; [| | contradiction].
    - destruct (present value); [| discriminate].
      destruct value as [| | | | |l]; try discriminate.
      destruct (h l) eqn:Hl.
      + destruct (Hes key (Ref l)) as [_ Hterm]; [left; reflexivity | simpl; rewrite Hl; exact I |].
        unfold terminates in Hterm.
        destruct (cleanData d h [Ref l]) as [[|[| |[|]] ?]| |]; try discriminate. contradiction.
      + destruct (filter _ items); discriminate.
    - destruct (present value); [| discriminate].
      destruct value as [| | | | |l]; try discriminate.
      destruct (h l) eqn:Hl.
      + destruct (Hes key (Ref l)) as [_ Hterm]; [left; reflexivity | simpl; rewrite Hl; exact I |].
        unfold terminates in Hterm.
        destruct (cleanData d h [Ref l]) as [[|[| |[|]] ?]| |]; try discriminate. contradiction.
      + destruct (filter _ items); discriminate. }
  unfold terminates in *.
  destruct (clean_entries (cleanData d h) h es); [discriminate | discriminate | contradiction].
Qed.

Lemma singleton_result (x y : Result cleaned) :
  match x with
  | Done c => Done [c]
  | ThrowsTypeError => ThrowsTypeError
  | StackExhausted => StackExhausted
  end
  = match y with
    | Done c => Done [c]
    | ThrowsTypeError => ThrowsTypeError
    | StackExhausted => StackExhausted
    end ->
  x = y.
Proof. destruct x, y; intros H; try discriminate H; congruence. Qed.

Lemma clean_item_total h d item stack :
  nesting h (S d) item -> d <= stack ->
  clean_item (cleanData stack h) h item = clean_item (cleanData d h) h item
  /\ terminates (clean_item (cleanData d h) h item).
Proof.
  intros Hn Hle.
  destruct (cleanData_item_total h (S d) item Hn (S stack) ltac:(lia)) as [Heq Ht].
  cbn [cleanData map_items] in Heq, Ht. split.
  - apply singleton_result. exact Heq.
  - unfold terminates in *. intros H. rewrite H in Ht. contradiction.
Qed.

End NormalizerFacts.

(* ================================================================== *)
(** * Facts: the webhook                                               *)
(* ================================================================== *)

Module WebhookFacts.
Import JsStringFacts CodecFacts.

#[local] Arguments js : simpl never.
#[local] Arguments option_truthy : simpl never.
#[local] Arguments decode_chunks : simpl never.
#[local] Arguments Webhook.run_id : simpl never.
#[local] Arguments Webhook.charAt : simpl never.

Lemma run_bind X {A B} (p : Prog A) (f : A -> Prog B) : forall w,
  run X (p ≫= f) w =
  match run X p w with
  | (Returned a, w1, t1) =>
      let '(r, w2, t2) := run X (f a) w1 in (r, w2, t1 ++ t2)
  | (Thrown e, w1, t1) => (Thrown e, w1, t1)
  end.
Proof.
  induction p as [a|e|C op k IH]; intros w.
  - cbn. destruct (run X (f a) w) as [[r w2] t2]. reflexivity.
  - reflexivity.
  - change (Vis op k ≫= f) with (Vis op (fun b => k b ≫= f)).
    cbn [run]. destruct (exec X op w) as [b w1]. rewrite IH.
    destruct (run X (k b) w1) as [[[a|e] w2] t]; [| reflexivity].
    destruct (run X (f a) w2) as [[r w3] t3]. reflexivity.
Qed.

Lemma run_try_catch X {A} (p : Prog A) (h : Error -> Prog A) : forall w,
  run X (try_catch p h) w =
  match run X p w with
  | (Returned a, w1, t1) => (Returned a, w1, t1)
  | (Thrown e, w1, t1) =>
      let '(r, w2, t2) := run X (h e) w1 in (r, w2, t1 ++ t2)
  end.
Proof.
  induction p as [a|e|C op k IH]; intros w.
  - reflexivity.
  - cbn. destruct (run X (h e) w) as [[r w2] t2]. reflexivity.
  - cbn [try_catch run]. destruct (exec X op w) as [b w1]. rewrite IH.
    destruct (run X (k b) w1) as [[[a|e] w2] t]; [reflexivity |].
    destruct (run X (h e) w2) as [[r w3] t3]. reflexivity.
Qed.

Lemma run_bind' X {A B} (p : Prog A) (f : A -> Prog B) w :
  run X (bind p f) w =
  match run X p w with
  | (Returned a, w1, t1) =>
      let '(r, w2, t2) := run X (f a) w1 in (r, w2, t1 ++ t2)
  | (Thrown e, w1, t1) => (Thrown e, w1, t1)
  end.
Proof. exact (run_bind X p f w). Qed.

Ltac unfold_bind := unfold mbind, Prog_bind.
Ltac run_next := first [rewrite run_bind | rewrite run_bind'].

(** Symbolic evaluation: split on the innermost stuck scrutinee. *)
Ltac innermost x :=
  lazymatch x with
  | context [match ?y with _ => _ end] => innermost y
  | _ => x
  end.

Ltac sym_split :=
  match goal with
  | |- context [bool_decide (is_Some ?y)] =>
      first [ match goal with H : y = _ |- _ => rewrite H end
            | destruct y eqn:? ]
  | |- context [match ?x with _ => _ end] =>
      let y := innermost x in
      first [ match goal with H : y = _ |- _ => rewrite H end
            | destruct y eqn:? ]
  end.

Ltac sym_run := cbn; repeat (sym_split; cbn in * ).


(** ** Observations of a trace *)

Lemma observe_app t1 t2 : observe (t1 ++ t2) = observe t1 ++ observe t2.
Proof. apply omap_app. Qed.

Lemma observe_cons e t :
  observe (e :: t) =
  match observation_of e with
  | Some o => o :: observe t
  | None => observe t
  end.
Proof. reflexivity. Qed.

Lemma observe_nil : observe [] = [].
Proof. reflexivity. Qed.

Create Rewrite HintDb observe.
#[export] Hint Rewrite observe_app observe_cons observe_nil : observe.

(** Split the observation of a composed trace into those of its parts. *)
Ltac observe_parts := autorewrite with observe; cbn -[observe].

Lemma omap_observe {A} (f : Event -> option A) (g : Observation -> option A) t :
  (forall e, f e = observation_of e ≫= g) -> omap f t = omap g (observe t).
Proof.
  intros Hfg. induction t as [|e t IH]; [reflexivity |].
  cbn. rewrite Hfg. destruct (observation_of e) as [o|]; cbn; [| exact IH].
  destruct (g o); cbn; rewrite IH; reflexivity.
Qed.

Lemma job_invocations_observe t :
  job_invocations t = omap job_of_observation (observe t).
Proof. apply omap_observe. intros [B op r]. destruct op; reflexivity. Qed.

Lemma job_results_observe t :
  job_results t = omap answer_of_observation (observe t).
Proof. apply omap_observe. intros [B op r]. destruct op; reflexivity. Qed.

Lemma notifications_observe t :
  notifications t = omap notification_of_observation (observe t).
Proof. apply omap_observe. intros [B op r]. destruct op; reflexivity. Qed.

Lemma marks_observe t : marks t = omap mark_of_observation (observe t).
Proof. apply omap_observe. intros [B op r]. destruct op; reflexivity. Qed.

(** ** What each helper of the webhook does *)

Section Helpers.
Context (X : Platform).

Lemma same_stores_refl w : same_stores w w.
Proof. split; reflexivity. Qed.

Lemma same_stores_trans w1 w2 w3 :
  same_stores w1 w2 -> same_stores w2 w3 -> same_stores w1 w3.
Proof. intros [H1 H2] [H3 H4]. split; congruence. Qed.

Lemma run_isSessionProcessed sid w :
  exists w' t,
    run X (Webhook.isSessionProcessed sid) w
      = (Returned (bool_decide (processed sid w)), w', t)
    /\ same_stores w w' /\ observe t = [].
Proof.
  destruct w as [td [pd|] n]; cbn; eexists _, _; (split; [reflexivity |]);
    split; try reflexivity; split; reflexivity.
Qed.

Lemma run_retrieveApolloUrl sid w :
  exists t,
    run X (Webhook.retrieveApolloUrl sid) w = (Returned (pending_orders w !! sid), w, t)
    /\ observe t = [].
Proof.
  destruct w as [[td|] pd n]; unfold pending_orders; sym_run; eauto.
Qed.

Lemma run_cleanupApolloUrl sid w :
  exists w' t,
    run X (Webhook.cleanupApolloUrl sid) w = (Returned tt, w', t)
    /\ pending_orders w' = delete sid (pending_orders w)
    /\ ledger w' = ledger w /\ observe t = [].
Proof.
  destruct w as [[td|] pd n]; unfold pending_orders; sym_run;
    eexists _, _; (split; [reflexivity |]); cbn;
    rewrite ?delete_empty, ?delete_id by assumption; auto.
Qed.

Lemma run_markSessionProcessed sid w :
  exists m w' t,
    run X (Webhook.markSessionProcessed sid) w = (Returned tt, w', t)
    /\ pending_orders w' = pending_orders w
    /\ ledger w' = <[sid := m]> (ledger w) /\ observe t = [Mark sid].
Proof.
  destruct w as [td [pd|] n]; cbn; eexists _, _, _; (split; [reflexivity |]); cbn; auto.
Qed.

Lemma run_generateRandomFileName w :
  exists fileName w' t,
    run X Webhook.generateRandomFileName w = (Returned fileName, w', t)
    /\ same_stores w w' /\ observe t = [].
Proof.
  cbn. eexists _, _, _. split; [reflexivity |]. split; [split |]; reflexivity.
Qed.

Lemma run_triggerApolloScraper payload w :
  exists r t,
    run X (Webhook.triggerApolloScraper payload) w = (r, w, t)
    /\ observe t
       = [Job payload (apify X (env X !! "APOLLO_ACTOR_ID") (env X !! "APIFY_TOKEN") payload)]
    /\ (if trigger_succeeds
             (apify X (env X !! "APOLLO_ACTOR_ID") (env X !! "APIFY_TOKEN") payload)
        then exists runId, r = Returned runId
        else exists e, r = Thrown e).
Proof.
  unfold Webhook.triggerApolloScraper, trigger_succeeds. cbn.
  destruct (apify X _ _ payload) as [|[|] status [result|]]; cbn;
    try (eexists _, _; (split; [reflexivity |]); split; [reflexivity | eauto]).
  destruct (Webhook.run_id result); cbn;
    eexists _, _; (split; [reflexivity |]); split; eauto.
Qed.

Lemma run_sendEmailWebhook email leadCount apolloUrl fileName w :
  exists w' t,
    run X (Webhook.sendEmailWebhook email leadCount apolloUrl fileName) w
      = (Returned tt, w', t)
    /\ same_stores w w'
    /\ match option_truthy (env X !! "EMAIL_WEBHOOK_URL") with
       | Some _ => exists payload, observe t = [Notification payload]
       | None => observe t = []
       end.
Proof.
  unfold Webhook.sendEmailWebhook. cbn.
  destruct (option_truthy (env X !! "EMAIL_WEBHOOK_URL")) as [url|]; cbn.
  - destruct (email_webhook X url _) as [|[|] status body]; cbn;
      eexists _, _; (split; [reflexivity |]); (split; [split; reflexivity |]); eauto.
  - eexists _, _. split; [reflexivity |]. split; [split |]; reflexivity.
Qed.

Lemma run_order_from_metadata session w :
  exists r t,
    run X (Webhook.order_from_metadata session) w = (r, w, t) /\ observe t = [].
Proof.
  unfold Webhook.order_from_metadata.
  destruct (metadata session) as [md|]; cbn; [| eauto].
  destruct (option_truthy (md !! js "leads")); cbn; [| eauto].
  destruct (option_truthy (md !! js "email")); cbn; [| eauto].
  destruct (option_truthy (md !! js "urlChunkCount")); cbn; [| eauto].
  destruct (decode_chunks md _); cbn; eauto.
Qed.

End Helpers.

(** ** The orchestrator, from the specifications of its helpers *)

#[local] Arguments Webhook.isSessionProcessed : simpl never.
#[local] Arguments Webhook.retrieveApolloUrl : simpl never.
#[local] Arguments Webhook.order_from_metadata : simpl never.
#[local] Arguments Webhook.generateRandomFileName : simpl never.
#[local] Arguments Webhook.triggerApolloScraper : simpl never.
#[local] Arguments Webhook.sendEmailWebhook : simpl never.
#[local] Arguments Webhook.cleanupApolloUrl : simpl never.
#[local] Arguments Webhook.markSessionProcessed : simpl never.

Section Orchestrator.
Context (X : Platform).

Lemma run_fulfil_order session order w :
  exists r w' t,
    run X (Webhook.fulfil_order session order) w = (r, w', t)
    /\ match Webhook.apolloUrl order with
       | None => same_stores w w' /\ observe t = []
       | Some url =>
           exists payload answer,
             payload_for order url payload
             /\ ((trigger_succeeds answer = false /\ same_stores w w'
                  /\ observe t = [Job payload answer])
                 \/ (exists notices marker,
                       r = Returned tt
                       /\ trigger_succeeds answer = true
                       /\ observe t = Job payload answer :: notices ++ [Mark (id session)]
                       /\ notified X notices
                       /\ pending_orders w' = delete (id session) (pending_orders w)
                       /\ ledger w' = <[id session := marker]> (ledger w)))
       end.
Proof.
  unfold Webhook.fulfil_order. unfold_bind. run_next.
  destruct (run_generateRandomFileName X w)
    as (fileName & w1 & t1 & -> & [Hp1 Hl1] & Ho1).
  destruct (Webhook.apolloUrl order) as [url|].
  2:{ cbn. eexists _, _, _. split; [reflexivity |]. rewrite app_nil_r.
      repeat split; assumption. }
  cbn.
  match goal with |- context [Webhook.triggerApolloScraper ?p] => set (payload := p) end.
  run_next.
  destruct (run_triggerApolloScraper X payload w1) as (r2 & t2 & -> & Ho2 & Hr2).
  set (answer := apify X _ _ payload) in *.
  destruct (trigger_succeeds answer) eqn:Hok.
  - destruct Hr2 as [runId ->]. run_next.
    destruct (run_sendEmailWebhook X (Webhook.email order)
                (parseInt_value (Webhook.leads order)) url fileName w1)
      as (w3 & t3 & -> & [Hp3 Hl3] & Ho3).
    cbn. run_next.
    destruct (run_cleanupApolloUrl X (id session) w3)
      as (w4 & t4 & -> & Hp4 & Hl4 & Ho4).
    destruct (run_markSessionProcessed X (id session) w4)
      as (m & w5 & t5 & -> & Hp5 & Hl5 & Ho5).
    eexists _, _, _. split; [reflexivity |].
    exists payload, answer. split; [repeat split |]. right.
    exists (observe t3), m. repeat split.
    + assumption.
    + observe_parts. rewrite Ho1, Ho2, Ho4, Ho5. reflexivity.
    + unfold notified. destruct (option_truthy _); assumption.
    + congruence.
    + congruence.
  - destruct Hr2 as [e ->].
    eexists _, _, _. split; [reflexivity |].
    exists payload, answer. split; [repeat split |]. left.
    repeat split; try assumption.
    observe_parts. rewrite Ho1, Ho2. reflexivity.
Qed.

Lemma run_recover_order session w :
  exists r t,
    run X (Webhook.recover_order session) w = (r, w, t) /\ observe t = [].
Proof.
  unfold Webhook.recover_order. unfold_bind. run_next.
  destruct (run_retrieveApolloUrl X (id session) w) as (t1 & -> & Ho1).
  destruct (pending_orders w !! id session) as [data|]; cbn.
  - eexists _, _. split; [reflexivity |]. observe_parts. rewrite Ho1. reflexivity.
  - destruct (run_order_from_metadata X session w) as (r & t2 & -> & Ho2).
    eexists _, _. split; [reflexivity |].
    observe_parts. rewrite Ho1, Ho2. reflexivity.
Qed.

#[local] Arguments Webhook.recover_order : simpl never.
#[local] Arguments Webhook.fulfil_order : simpl never.

Lemma run_handleSuccessfulPayment session w :
  exists w' t,
    run X (Webhook.handleSuccessfulPayment session) w = (Returned tt, w', t)
    /\ Ending X session w w' t.
Proof.
  unfold Webhook.handleSuccessfulPayment. rewrite run_try_catch. cbn.
  run_next.
  destruct (run_isSessionProcessed X (id session) w)
    as (w1 & t1 & -> & [Hp1 Hl1] & Ho1).
  destruct (bool_decide (processed (id session) w)); cbn.
  { eexists _, _. split; [reflexivity |]. apply ending_idle.
    - split; assumption.
    - observe_parts. rewrite Ho1. reflexivity. }
  run_next.
  destruct (run_recover_order session w1) as (r2 & t2 & -> & Ho2).
  destruct r2 as [[order|]|e]; cbn.
  - destruct (run_fulfil_order session order w1) as (r3 & w3 & t3 & -> & H3).
    destruct (Webhook.apolloUrl order) as [url|].
    + destruct H3 as (payload & answer & _ & [(Hfail & [Hp3 Hl3] & Ho3)
        | (notices & marker & -> & Hok & Ho3 & Hn & Hp3 & Hl3)]).
      * destruct r3 as [[]|e]; cbn; eexists _, _; (split; [reflexivity |]);
          (eapply ending_failed; [split; congruence | | exact Hfail]);
          observe_parts; rewrite Ho1, Ho2, Ho3; reflexivity.
      * eexists _, _. split; [reflexivity |].
        apply ending_fulfilled with payload answer notices marker;
          [exact Hok | | exact Hn | rewrite Hp3, Hp1; reflexivity
          | rewrite Hl3, Hl1; reflexivity].
        observe_parts. rewrite Ho1, Ho2, Ho3. reflexivity.
    + destruct H3 as ([Hp3 Hl3] & Ho3).
      destruct r3 as [[]|e]; cbn; eexists _, _; (split; [reflexivity |]);
        (apply ending_idle; [split; congruence |]);
        observe_parts; rewrite Ho1, Ho2, Ho3; reflexivity.
  - eexists _, _. split; [reflexivity |]. apply ending_idle; [split; assumption |].
    observe_parts. rewrite Ho1, Ho2. reflexivity.
  - eexists _, _. split; [reflexivity |]. apply ending_idle; [split; assumption |].
    observe_parts. rewrite Ho1, Ho2. reflexivity.
Qed.

(** ** The handler around the orchestrator *)

#[local] Arguments Webhook.handleSuccessfulPayment : simpl never.

Lemma run_handler_completed req session w w' t :
  payment_completed X req session ->
  run X (Webhook.handleSuccessfulPayment session) w = (Returned tt, w', t) ->
  exists t0,
    run X (Webhook.handler req) w = (Returned acknowledged, w', t0 ++ t)
    /\ observe t0 = [].
Proof.
  intros (event & (Hpost & rawBody & Hbody & Hsig) & Htype & <-) Hrun.
  unfold Webhook.handler, Webhook.read_body.
  rewrite Hpost, Hbody, bool_decide_eq_true_2 by reflexivity.
  cbn. rewrite Hsig. cbn.
  rewrite Htype, bool_decide_eq_true_2 by reflexivity. cbn.
  run_next. rewrite Hrun. cbn. rewrite app_nil_r.
  eexists [_; _; _; _; _; _; _; _]. split; reflexivity.
Qed.

(** ** The orchestrator on a session of the ledger *)

Lemma run_handleSuccessfulPayment_processed session w :
  processed (id session) w ->
  exists w' t,
    run X (Webhook.handleSuccessfulPayment session) w = (Returned tt, w', t)
    /\ same_stores w w' /\ observe t = [].
Proof.
  intros Hp. unfold Webhook.handleSuccessfulPayment. rewrite run_try_catch. cbn.
  run_next.
  destruct (run_isSessionProcessed X (id session) w) as (w1 & t1 & -> & Hs1 & Ho1).
  rewrite bool_decide_eq_true_2 by assumption. cbn.
  eexists _, _. split; [reflexivity |]. split; [assumption |].
  observe_parts. rewrite Ho1. reflexivity.
Qed.

End Orchestrator.

(** ** The ledger only grows *)

Lemma every_op_bind P {A B} (p : Prog A) (f : A -> Prog B) :
  every_op P p -> (forall a, every_op P (f a)) -> every_op P (p ≫= f).
Proof.
  intros Hp Hf. induction p as [a|e|C op k IH]; cbn in *; auto.
  destruct Hp as [Hop Hk]. split; [assumption |]. intros b. apply IH, Hk.
Qed.

Lemma every_op_try_catch P {A} (p : Prog A) (h : Error -> Prog A) :
  every_op P p -> (forall e, every_op P (h e)) -> every_op P (try_catch p h).
Proof.
  intros Hp Hh. induction p as [a|e|C op k IH]; cbn in *; auto.
  destruct Hp as [Hop Hk]. split; [assumption |]. intros b. apply IH, Hk.
Qed.

Lemma exec_keeps_marker X {B} (op : Op B) w sid :
  keeps_markers op -> processed sid w -> processed sid (exec X op w).2.
Proof.
  unfold processed, ledger. intros Hop Hm.
  destruct w as [td pd n].
  destruct op; cbn in *; repeat case_match; cbn in *; subst; try done.
  - destruct (decide (sessionId = sid)) as [->|Hne].
    + rewrite lookup_insert_eq. eauto.
    + rewrite lookup_insert_ne by assumption. assumption.
Qed.

Lemma run_keeps_marker X {A} (p : Prog A) sid : forall w,
  every_op (@keeps_markers) p -> processed sid w -> processed sid (run X p w).1.2.
Proof.
  induction p as [a|e|B op k IH]; intros w Hp Hm; cbn; try assumption.
  destruct Hp as [Hop Hk].
  destruct (exec X op w) as [b w1] eqn:He.
  specialize (IH b w1 (Hk b)).
  destruct (run X (k b) w1) as [[r w2] t] eqn:Hr. cbn in *.
  apply IH. replace w1 with (exec X op w).2 by (rewrite He; reflexivity).
  apply exec_keeps_marker; assumption.
Qed.

Ltac every_op_step :=
  match goal with
  | |- every_op _ (_ ≫= _) => apply every_op_bind
  | |- every_op _ (try_catch _ _) => apply every_op_try_catch
  | |- every_op _ (match ?x with _ => _ end) => destruct x
  | |- every_op _ (if ?x then _ else _) => destruct x
  | |- every_op _ (let '(_, _) := ?x in _) => destruct x
  | |- forall _, _ => intro
  | |- _ /\ _ => split
  | |- True => exact I
  | |- every_op _ _ => progress cbn
  end.

Lemma webhook_keeps_markers req : every_op (@keeps_markers) (Webhook.handler req).
Proof.
  unfold Webhook.handler, Webhook.handleSuccessfulPayment, Webhook.recover_order,
    Webhook.fulfil_order, Webhook.order_from_metadata,
    Webhook.isSessionProcessed, Webhook.retrieveApolloUrl, Webhook.triggerApolloScraper,
    Webhook.sendEmailWebhook, Webhook.cleanupApolloUrl, Webhook.markSessionProcessed,
    Webhook.ensureProcessedDir, Webhook.constructEvent, Webhook.read_body,
    Webhook.generateRandomFileName.
  repeat every_op_step.
Qed.

Lemma checkout_keeps_markers req : every_op (@keeps_markers) (Checkout.handler req).
Proof.
  unfold Checkout.handler, Checkout.storeApolloUrl, Checkout.ensureTempDir,
    Checkout.createSession.
  repeat every_op_step.
Qed.

Lemma config_keeps_markers req : every_op (@keeps_markers) (Config.handler req).
Proof. unfold Config.handler. repeat every_op_step. Qed.

Lemma serve_keeps_marker sid w r : processed sid w -> processed sid (serve w r).
Proof.
  intros Hm. unfold serve. apply run_keeps_marker; [| assumption].
  destruct r as [X [req|req|req]]; cbn;
    [apply config_keeps_markers | apply checkout_keeps_markers
    | apply webhook_keeps_markers].
Qed.

Lemma serve_all_keeps_marker sid rs : forall w,
  processed sid w -> processed sid (serve_all w rs).
Proof.
  induction rs as [|r rs IH]; intros w Hm; [exact Hm |].
  apply IH, serve_keeps_marker, Hm.
Qed.

(** ** The fallback on a complete envelope *)

Lemma decode_chunks_complete md count :
  complete_envelope md count ->
  decode_chunks md count = Returned (reconstructed_url md count).
Proof.
  intros (_ & _ & _ & Hchunks). unfold decode_chunks, reconstructed_url, joined_chunks.
  rewrite reconstruct_from_present by exact Hchunks. reflexivity.
Qed.

End WebhookFacts.

(* ================================================================== *)
(** * Facts: the event loop                                            *)
(* ================================================================== *)

Module EventLoopFacts.
Import EventLoop.

(** A turn is a part of the run: what is left after it runs to the same
    end. *)
Lemma run_advance X {A} (p : Prog A) : forall w,
  run X p w =
  let '(p1, w1, t1) := advance X p w in
  let '(r, w2, t2) := run X p1 w1 in (r, w2, t1 ++ t2).
Proof.
  induction p as [a|e|B op k IH]; intros w; try reflexivity.
  cbn [advance]. destruct (is_await op).
  - cbn [app]. destruct (run X (Vis op k) w) as [[r w2] t2]. reflexivity.
  - cbn [run]. destruct (exec X op w) as [b w1]. rewrite IH.
    destruct (advance X (k b) w1) as [[p1 w2] t1].
    destruct (run X p1 w2) as [[r w3] t2]. reflexivity.
Qed.

Lemma run_resume X {A} (p : Prog A) w :
  run X p w =
  let '(p1, w1, t1) := resume X p w in
  let '(r, w2, t2) := run X p1 w1 in (r, w2, t1 ++ t2).
Proof.
  destruct p as [a|e|B op k]; try reflexivity.
  cbn [resume run]. destruct (exec X op w) as [b w1]. rewrite run_advance.
  destruct (advance X (k b) w1) as [[p1 w2] t1].
  destruct (run X p1 w2) as [[r w3] t2]. reflexivity.
Qed.

Lemma run_finished X {A} (p : Prog A) w :
  finished p = true -> exists r, run X p w = (r, w, []).
Proof. destruct p; [eauto | eauto | discriminate]. Qed.

Lemma arrive_in_progress X {A} (p : Prog A) (s : State A) :
  in_progress X p (world s) s (turn X s (Arrive p)).
Proof.
  unfold in_progress. cbn [turn]. pose proof (run_advance X p (world s)) as H.
  destruct (advance X p (world s)) as [[p1 w1] t1]. cbn.
  exists p1, t1. auto.
Qed.

Lemma deliver_in_progress X {A} (p : Prog A) w0 (before s : State A) :
  in_progress X p w0 before s ->
  in_progress X p w0 before (turn X s (Deliver (length (handlers before)))).
Proof.
  intros (p' & t' & Hh & Ht & Hrun). unfold in_progress. cbn [turn].
  rewrite Hh, lookup_app_r, Nat.sub_diag by lia. cbn [lookup list_lookup].
  pose proof (run_resume X p' (world s)) as Hres.
  destruct (resume X p' (world s)) as [[p1 w1] t1]. cbn.
  exists p1, (t' ++ t1). repeat split.
  - rewrite insert_app_r_alt, Nat.sub_diag by lia. reflexivity.
  - rewrite Ht, app_assoc. reflexivity.
  - rewrite Hrun, Hres. destruct (run X p1 w1) as [[r w2] t2].
    rewrite app_assoc. reflexivity.
Qed.

Lemma deliveries_in_progress X {A} (p : Prog A) w0 (before : State A) n :
  forall s,
    in_progress X p w0 before s ->
    in_progress X p w0 before
      (fold_left (turn X) (replicate n (Deliver (length (handlers before)))) s).
Proof.
  induction n as [|n IH]; intros s Hs; [exact Hs |].
  cbn [replicate fold_left]. apply IH, deliver_in_progress, Hs.
Qed.

(** A request that arrives and is served to its end, with no other handler
    running in between, does what [run] says. *)
Lemma serial_turns X {A} (p : Prog A) (s : State A) n :
  let s' := fold_left (turn X)
              (Arrive p :: replicate n (Deliver (length (handlers s)))) s in
  Forall (fun q => finished q = true) (handlers s') ->
  exists r t,
    run X p (world s) = (r, world s', t)
    /\ trace s' = trace s ++ t
    /\ length (handlers s') = S (length (handlers s)).
Proof.
  cbn [fold_left].
  set (s' := fold_left (turn X) _ (turn X s (Arrive p))). intros Hfin.
  destruct (deliveries_in_progress X p (world s) s n (turn X s (Arrive p))
              (arrive_in_progress X p s)) as (p' & t' & Hh & Ht & Hrun).
  fold s' in Hh, Ht, Hrun. rewrite Hh in Hfin.
  apply Forall_app in Hfin as [_ Hfin]. apply Forall_cons in Hfin as [Hfin _].
  destruct (run_finished X p' (world s') Hfin) as [r Hr].
  rewrite Hr, app_nil_r in Hrun. exists r, t'.
  split; [exact Hrun |]. split; [exact Ht |].
  rewrite Hh, length_app. cbn. lia.
Qed.

End EventLoopFacts.

(* ================================================================== *)
(** * The claims of the specification                                  *)
(* ================================================================== *)

Module Claims.
Import BufferFacts JsStringFacts CodecFacts NormalizerFacts WebhookFacts EventLoopFacts.

#[local] Arguments js : simpl never.
#[local] Arguments option_truthy : simpl never.
#[local] Arguments decode_chunks : simpl never.

(* ------------------------------------------------------------------ *)
(** ** C1: the configuration endpoint and the secrets                   *)

(** C1 (the code departs from the claim).  On a GET request the
    configuration endpoint answers 200 with a body whose [APIFY_TOKEN] field
    is the Apify token of the process environment: the secret is exposed,
    although the same handler logs only whether the token is set. *)
Theorem config_response_exposes_apify_token X w token :
  option_truthy (env X !! "APIFY_TOKEN") = Some token ->
  exists response body t,
    run X (Config.handler {| Config.method := js "GET" |}) w
      = (Returned response, w, t)
    /\ res_status response = 200
    /\ res_body response = Some body
    /\ get_prop (js "APIFY_TOKEN") body = Some (VStr token).
Proof.
  intros Htoken. unfold Config.handler. cbn.
  eexists _, _, _. split; [reflexivity |]. cbn.
  repeat split. unfold Config.config_object, get_prop. cbn [lookup_prop].
  rewrite bool_decide_eq_true_2 by reflexivity. rewrite Htoken. reflexivity.
Qed.

Lemma config_response_exposes_apify_token_witness :
  exists response body t,
    run (Scenario.platform Scenario.paid_session)
        (Config.handler {| Config.method := js "GET" |}) Scenario.empty_world
      = (Returned response, Scenario.empty_world, t)
    /\ res_status response = 200
    /\ res_body response = Some body
    /\ get_prop (js "APIFY_TOKEN") body = Some (VStr (js "apify_api_SECRET")).
Proof.
  apply (config_response_exposes_apify_token
           (Scenario.platform Scenario.paid_session) Scenario.empty_world
           (js "apify_api_SECRET")).
  vm_compute. exact eq_refl.
Defined.

(* ------------------------------------------------------------------ *)
(** ** C2: the output-cleaning flag                                     *)

(** C2 (the code departs from the claim).  A customer ticks "clean output"
    ([cleanOutput: true]); the checkout stores the order and sends Stripe the
    metadata of [paid_session]; the payment-completed event is delivered
    while the order is still in the staging store.  The job is invoked
    with [cleanOutput = false]: the stored flag is a boolean, and the
    webhook compares it with the string 'true'. *)
Theorem staged_clean_output_flag_is_lost :
  let X := Scenario.platform Scenario.paid_session in
  let checkout := Checkout.handler (Scenario.checkout_request (VBool true)) in
  let staged := world_after X checkout Scenario.empty_world in
  created_metadata (trace_of X checkout Scenario.empty_world)
    = [Scenario.envelope Scenario.url (VBool true)]
  /\ so_cleanOutput <$> pending_orders staged !! Scenario.session_id
     = Some (VBool true)
  /\ job_cleanOutput
       <$> job_invocations
             (trace_of X (Webhook.handler Scenario.delivery) staged)
     = [false].
Proof. cbv zeta. split; [| split]; vm_compute; exact eq_refl. Qed.

(** The sibling path keeps the flag: the metadata carry 'true' exactly when
    the customer's value is truthy, and the webhook reads that back. *)
Lemma metadata_clean_output_flag_is_kept
    (leads : Z) (apolloUrl email : jsstring) (cleanOutput : value)
    (timestamp orderId : jsstring) :
  strict_eq_str
    (Webhook.metadata_value
       (Checkout.build_metadata leads apolloUrl email cleanOutput timestamp orderId)
       "cleanOutput")
    (js "true")
  = truthy_value cleanOutput.
Proof.
  unfold Webhook.metadata_value, Checkout.build_metadata, Checkout.base_metadata.
  rewrite add_chunks_other by (intros i; unfold chunkKey; vm_compute; discriminate).
  rewrite !lookup_insert_ne by (vm_compute; discriminate).
  rewrite lookup_insert_eq.
  destruct (truthy_value cleanOutput); vm_compute; exact eq_refl.
Qed.

(* ------------------------------------------------------------------ *)
(** ** C3: the metadata codec                                           *)

Lemma js_code_units s : Forall code_unit (js s).
Proof.
  induction s as [|a s IH]; constructor; [| exact IH].
  unfold code_unit. pose proof (nat_ascii_bounded a). lia.
Qed.

Lemma build_metadata_count leads apolloUrl email cleanOutput timestamp orderId :
  Checkout.build_metadata leads apolloUrl email cleanOutput timestamp orderId
    !! js "urlChunkCount"
  = Some (number_toString
            (Z.of_nat (length (urlChunks (base64_encode (utf8_encode apolloUrl)))))).
Proof.
  unfold Checkout.build_metadata, Checkout.base_metadata.
  rewrite add_chunks_other.
  - apply lookup_insert_eq.
  - intros i H. symmetry in H. exact (chunkKey_not_count i H).
Qed.

Lemma build_metadata_chunk leads apolloUrl email cleanOutput timestamp orderId j :
  (j < length (urlChunks (base64_encode (utf8_encode apolloUrl))))%nat ->
  Checkout.build_metadata leads apolloUrl email cleanOutput timestamp orderId
    !! chunkKey j
  = urlChunks (base64_encode (utf8_encode apolloUrl)) !! j.
Proof.
  intros Hj. unfold Checkout.build_metadata.
  apply (add_chunks_chunk _ 0%nat). exact Hj.
Qed.

(** C3 (as amended).  For every URL without unpaired surrogates, the
    metadata the checkout builds hold the chunk count under
    [urlChunkCount], every chunk is non-empty and at most 450 characters
    long, and the webhook's decoding of these metadata (parse the count,
    join the chunks in index order, base64-decode, read as UTF-8) gives the
    URL back.  The same holds for any metadata that agree with them on the
    count and on the chunks. *)
Theorem url_round_trip (leads : Z) (apolloUrl email : jsstring)
    (cleanOutput : value) (timestamp orderId : jsstring)
    (received : gmap jsstring jsstring) :
  Forall code_unit apolloUrl ->
  well_formed apolloUrl = true ->
  let sent :=
    Checkout.build_metadata leads apolloUrl email cleanOutput timestamp orderId in
  let chunks := urlChunks (base64_encode (utf8_encode apolloUrl)) in
  (forall i, (i < length chunks)%nat -> received !! chunkKey i = sent !! chunkKey i) ->
  exists count,
    sent !! js "urlChunkCount" = Some count
    /\ Forall (fun chunk => truthy chunk = true
                            /\ (length chunk <= chunkSize)%nat) chunks
    /\ decode_chunks received count = Returned apolloUrl.
Proof.
  intros Hunits Hwf sent chunks Hreceived.
  exists (number_toString (Z.of_nat (length chunks))).
  split; [apply build_metadata_count |].
  split; [apply split_from_chunks |].
  unfold decode_chunks.
  rewrite parseInt_number_toString by lia. cbn [iterations].
  rewrite Nat2Z.id.
  rewrite (reconstruct_from_chunks received chunks 0%nat []).
  - cbn [app]. unfold chunks. rewrite urlChunks_concat.
    rewrite base64_decode_encode
      by (apply (utf8_encode_bytes_bounded (length apolloUrl)); [lia | assumption]).
    rewrite utf8_decode_encode by assumption. reflexivity.
  - intros j Hj. cbn [Nat.add]. rewrite Hreceived by assumption.
    apply build_metadata_chunk. exact Hj.
  - eapply Forall_impl; [apply split_from_chunks |]. intros c [Hc _]. exact Hc.
Qed.

Lemma url_round_trip_witness :
  exists count,
    Scenario.envelope Scenario.url (VBool true) !! js "urlChunkCount" = Some count
    /\ Forall (fun chunk => truthy chunk = true
                            /\ (length chunk <= chunkSize)%nat)
         (urlChunks (base64_encode (utf8_encode Scenario.url)))
    /\ decode_chunks (Scenario.envelope Scenario.url (VBool true)) count
       = Returned Scenario.url.
Proof.
  apply (url_round_trip 1000 Scenario.url Scenario.customer (VBool true)
           (js "2023-11-14T22:13:20.000Z") (js "apollo_1700000000000_k3j2h1g0f")
           (Scenario.envelope Scenario.url (VBool true))).
  - apply js_code_units.
  - vm_compute. exact eq_refl.
  - intros i _. reflexivity.
Defined.

(** C3 (counterexample).  A URL that ends in an unpaired surrogate: the
    metadata the checkout builds for it decode to a different string, with
    U+FFFD in place of the surrogate. *)
Lemma ill_formed_url_is_not_reconstructed :
  Scenario.envelope Scenario.ill_formed_url (VBool true) !! js "urlChunkCount"
    = Some (js "1")
  /\ decode_chunks (Scenario.envelope Scenario.ill_formed_url (VBool true)) (js "1")
     = Returned (js "https://app.apollo.io/?q=" ++ [0xFFFD])
  /\ decode_chunks (Scenario.envelope Scenario.ill_formed_url (VBool true)) (js "1")
     <> Returned Scenario.ill_formed_url.
Proof.
  split; [vm_compute; exact eq_refl |].
  split; [vm_compute; exact eq_refl |].
  vm_compute. discriminate.
Qed.

(* ------------------------------------------------------------------ *)
(** ** C4: events that fail verification                                *)

(** C4.  When signature verification fails (the body cannot be read, or
    the Stripe SDK rejects the body and signature header, a missing header
    included), the handler answers with a client error (400 for a POST),
    leaves the world as it is, performs no storage operation and no network
    call, and the orchestrator is not entered. *)
Theorem invalid_signature_is_rejected X req w :
  verification_fails X req ->
  exists response t,
    run X (Webhook.handler req) w = (Returned response, w, t)
    /\ 400 <= res_status response < 500
    /\ (Webhook.method req = js "POST" -> res_status response = 400)
    /\ Forall (fun e => is_storage e = false /\ is_network e = false) t
    /\ ~ reaches_orchestrator t.
Proof.
  intros Hfail. unfold Webhook.handler.
  destruct (bool_decide (Webhook.method req = js "POST")) eqn:Hm.
  2:{ eexists _, _. split; [reflexivity |]. cbn.
      apply bool_decide_eq_false in Hm.
      repeat split; try lia; try contradiction; try (by constructor).
      all: unfold reaches_orchestrator; cbn; tauto. }
  unfold verification_fails in Hfail. cbn. unfold Webhook.read_body.
  destruct (Webhook.rawBody req) as [rawBody|].
  - destruct Hfail as [err Herr]. cbn. rewrite Herr. cbn.
    eexists _, _. split; [reflexivity |]. cbn.
    repeat split; try lia.
    + repeat constructor.
    + unfold reaches_orchestrator. cbn. intuition discriminate.
  - cbn. eexists _, _. split; [reflexivity |]. cbn.
    repeat split; try lia.
    + repeat constructor.
    + unfold reaches_orchestrator. cbn. intuition discriminate.
Qed.

Lemma invalid_signature_is_rejected_witness :
  exists response t,
    run (Scenario.platform Scenario.paid_session)
        (Webhook.handler Scenario.forged_delivery) Scenario.empty_world
      = (Returned response, Scenario.empty_world, t)
    /\ 400 <= res_status response < 500
    /\ (Webhook.method Scenario.forged_delivery = js "POST" ->
        res_status response = 400)
    /\ Forall (fun e => is_storage e = false /\ is_network e = false) t
    /\ ~ reaches_orchestrator t.
Proof.
  apply (invalid_signature_is_rejected (Scenario.platform Scenario.paid_session)
           Scenario.forged_delivery Scenario.empty_world).
  unfold verification_fails. cbn [Scenario.forged_delivery Webhook.rawBody].
  eexists. vm_compute. exact eq_refl.
Defined.

(* ------------------------------------------------------------------ *)
(** ** C5: the ledger is a one-way gate                                 *)

Lemma jobs_of_quiet t : observe t = [] -> job_invocations t = [].
Proof. intros H. rewrite job_invocations_observe, H. reflexivity. Qed.

Lemma notifications_of_quiet t : observe t = [] -> notifications t = [].
Proof. intros H. rewrite notifications_observe, H. reflexivity. Qed.

Lemma marked_is_processed X sid w :
  processed sid (world_after X (Webhook.markSessionProcessed sid) w).
Proof.
  unfold world_after.
  destruct (run_markSessionProcessed X sid w) as (m & w' & t & -> & _ & Hl & _).
  unfold processed. cbn. rewrite Hl, lookup_insert_eq. eauto.
Qed.

(** C5.  Once [markSessionProcessed] has written the entry of a session,
    whatever requests the three endpoints serve afterwards, a verified
    payment-completed event for that session is acknowledged with 200,
    invokes no job and sends no notification, and the entry is still
    there. *)
Theorem processed_session_is_never_fulfilled_again
    X0 w0 (history : list (Platform * AnyRequest)) X req session :
  payment_completed X req session ->
  let marked := world_after X0 (Webhook.markSessionProcessed (id session)) w0 in
  exists w' t,
    run X (Webhook.handler req) (serve_all marked history)
      = (Returned acknowledged, w', t)
    /\ job_invocations t = []
    /\ notifications t = []
    /\ processed (id session) w'.
Proof.
  intros Hevent marked.
  assert (Hp : processed (id session) (serve_all marked history))
    by apply serve_all_keeps_marker, marked_is_processed.
  destruct (run_handleSuccessfulPayment_processed X session _ Hp)
    as (w' & t & Hrun & [_ Hl] & Hquiet).
  destruct (run_handler_completed X req session _ w' t Hevent Hrun)
    as (t0 & Hhandler & Hquiet0).
  exists w', (t0 ++ t). split; [exact Hhandler |].
  assert (Ho : observe (t0 ++ t) = []) by (rewrite observe_app, Hquiet0, Hquiet; reflexivity).
  split; [apply jobs_of_quiet, Ho |]. split; [apply notifications_of_quiet, Ho |].
  unfold processed in *. rewrite Hl. exact Hp.
Qed.

Lemma processed_session_is_never_fulfilled_again_witness :
  let X := Scenario.platform Scenario.paid_session in
  let marked :=
    world_after X (Webhook.markSessionProcessed (id Scenario.paid_session))
      Scenario.empty_world in
  exists w' t,
    run X (Webhook.handler Scenario.delivery)
        (serve_all marked
           [(X, ToCheckout (Scenario.checkout_request (VBool true)));
            (X, ToWebhook Scenario.forged_delivery)])
      = (Returned acknowledged, w', t)
    /\ job_invocations t = []
    /\ notifications t = []
    /\ processed (id Scenario.paid_session) w'.
Proof.
  apply (processed_session_is_never_fulfilled_again
           (Scenario.platform Scenario.paid_session) Scenario.empty_world
           [(Scenario.platform Scenario.paid_session,
             ToCheckout (Scenario.checkout_request (VBool true)));
            (Scenario.platform Scenario.paid_session,
             ToWebhook Scenario.forged_delivery)]
           (Scenario.platform Scenario.paid_session) Scenario.delivery
           Scenario.paid_session).
  exists {| type := js "checkout.session.completed"; event_id := js "evt_1";
            created := 1700000000; data_object := Scenario.paid_session |}.
  repeat split. exists (utf8_encode (js "{}")). split; reflexivity.
Defined.

(* ------------------------------------------------------------------ *)
(** ** C6: fulfilment from the metadata                                 *)

#[local] Arguments Webhook.isSessionProcessed : simpl never.
#[local] Arguments Webhook.retrieveApolloUrl : simpl never.
#[local] Arguments Webhook.order_from_metadata : simpl never.
#[local] Arguments Webhook.recover_order : simpl never.
#[local] Arguments Webhook.fulfil_order : simpl never.

Lemma logs_app t1 t2 : logs (t1 ++ t2) = logs t1 ++ logs t2.
Proof. apply omap_app. Qed.

Lemma notices_hold_no_job X notices :
  notified X notices -> omap job_of_observation notices = [].
Proof.
  unfold notified. destruct (option_truthy _); [intros [p ->] | intros ->]; reflexivity.
Qed.

Lemma run_order_from_metadata_complete X session md count w :
  metadata session = Some md ->
  complete_envelope md count ->
  exists order t,
    run X (Webhook.order_from_metadata session) w = (Returned (Some order), w, t)
    /\ observe t = []
    /\ Webhook.apolloUrl order = Some (reconstructed_url md count).
Proof.
  intros Hmd Hc. pose proof (decode_chunks_complete md count Hc) as Hdecode.
  destruct Hc as ([leads Hleads] & [email Hemail] & Hcount & _).
  unfold Webhook.order_from_metadata. rewrite Hmd, Hleads, Hemail, Hcount.
  cbn. rewrite Hdecode. cbn.
  eexists _, _. split; [reflexivity |]. split; reflexivity.
Qed.

Lemma run_recover_order_fallback X session w :
  pending_orders w !! id session = None ->
  exists t1,
    observe t1 = []
    /\ logs t1 <> []
    /\ forall r t2,
         run X (Webhook.order_from_metadata session) w = (r, w, t2) ->
         run X (Webhook.recover_order session) w = (r, w, t1 ++ t2).
Proof.
  intros Hmiss. unfold Webhook.recover_order. unfold_bind. run_next.
  destruct (run_retrieveApolloUrl X (id session) w) as (t1 & -> & Ho1).
  rewrite Hmiss. cbn.
  exists (t1 ++ [Ev (Console ConsoleError "No stored Apollo URL found for session:") ()]).
  split; [observe_parts; rewrite Ho1; reflexivity |].
  split.
  { rewrite logs_app. cbn. intros H. apply app_eq_nil in H as [_ H]. discriminate H. }
  intros r t2 ->. destruct r; rewrite <- app_assoc; reflexivity.
Qed.

(** The orchestrator when the ledger has no entry for the session and the
    staging store no order: what [order_from_metadata] gives decides. *)
Lemma run_handleSuccessfulPayment_fallback X session w :
  ~ processed (id session) w ->
  pending_orders w !! id session = None ->
  exists w1 t1,
    same_stores w w1 /\ observe t1 = []
    /\ forall r t2 w' t3,
         run X (Webhook.order_from_metadata session) w1 = (r, w1, t2) ->
         match r with
         | Returned (Some order) =>
             exists r3,
               run X (Webhook.fulfil_order session order) w1 = (r3, w', t3)
         | _ => w' = w1 /\ t3 = []
         end ->
         exists t4,
           run X (Webhook.handleSuccessfulPayment session) w
             = (Returned tt, w', t1 ++ t2 ++ t3 ++ t4)
           /\ observe t4 = [].
Proof.
  intros Hnew Hmiss.
  destruct (run_isSessionProcessed X (id session) w)
    as (w1 & t1 & Hrun1 & [Hp1 Hl1] & Ho1).
  rewrite <- Hp1 in Hmiss.
  destruct (run_recover_order_fallback X session w1 Hmiss) as (t1' & Ho1' & _ & Hrec).
  exists w1, (Ev (Console ConsoleLog "Processing successful payment:") () :: t1 ++ t1').
  split; [split; assumption |].
  split; [observe_parts; rewrite Ho1, Ho1'; reflexivity |].
  intros r t2 w' t3 Hmeta Hrest.
  unfold Webhook.handleSuccessfulPayment. rewrite run_try_catch. cbn.
  run_next. rewrite Hrun1, bool_decide_eq_false_2 by assumption. cbn.
  run_next. rewrite (Hrec r t2 Hmeta).
  destruct r as [[order|]|e]; cbn.
  - destruct Hrest as [[[]|e] ->]; cbn.
    + exists []. split; [| reflexivity].
      rewrite !app_nil_r, <- !app_assoc. reflexivity.
    + exists [Ev (Console ConsoleError "Error processing successful payment:") ()].
      split; [| reflexivity]. rewrite <- !app_assoc. reflexivity.
  - destruct Hrest as [-> ->]. exists []. split; [| reflexivity].
    rewrite !app_nil_r, <- !app_assoc. reflexivity.
  - destruct Hrest as [-> ->].
    exists [Ev (Console ConsoleError "Error processing successful payment:") ()].
    split; [| reflexivity]. rewrite <- !app_assoc. reflexivity.
Qed.

(** C6 (as amended).  A verified payment-completed event for a session
    that has no ledger entry and no order in the staging store, and whose
    metadata are complete, is acknowledged with 200 and invokes the job
    exactly once, with the URL rebuilt from the chunks. *)
Theorem fallback_uses_reconstructed_url X req session md count w :
  payment_completed X req session ->
  ~ processed (id session) w ->
  pending_orders w !! id session = None ->
  metadata session = Some md ->
  complete_envelope md count ->
  exists w' t payload,
    run X (Webhook.handler req) w = (Returned acknowledged, w', t)
    /\ job_invocations t = [payload]
    /\ job_url payload = reconstructed_url md count.
Proof.
  intros Hevent Hnew Hmiss Hmd Hcomplete.
  destruct (run_handleSuccessfulPayment_fallback X session w Hnew Hmiss)
    as (w1 & t1 & _ & Ho1 & Hrun).
  destruct (run_order_from_metadata_complete X session md count w1 Hmd Hcomplete)
    as (order & t2 & Hmeta & Ho2 & Hurl).
  destruct (run_fulfil_order X session order w1) as (r3 & w' & t3 & Hfulfil & H3).
  rewrite Hurl in H3. destruct H3 as (payload & answer & (Hjob & _) & Hobs).
  destruct (Hrun _ t2 w' t3 Hmeta (ex_intro _ r3 Hfulfil)) as (t4 & Hhandle & Ho4).
  destruct (run_handler_completed X req session w w' _ Hevent Hhandle)
    as (t0 & Hhandler & Ho0).
  eexists w', _, payload. split; [exact Hhandler |]. split; [| exact Hjob].
  rewrite job_invocations_observe. observe_parts. rewrite Ho0, Ho1, Ho2, Ho4.
  destruct Hobs as [(_ & _ & ->) | (notices & marker & _ & _ & -> & Hn & _)].
  - reflexivity.
  - cbn. rewrite app_nil_r, omap_app, (notices_hold_no_job X notices Hn). reflexivity.
Qed.

Lemma paid_session_is_delivered :
  payment_completed (Scenario.platform Scenario.paid_session) Scenario.delivery
    Scenario.paid_session.
Proof.
  exists {| type := js "checkout.session.completed"; event_id := js "evt_1";
            created := 1700000000; data_object := Scenario.paid_session |}.
  repeat split. exists (utf8_encode (js "{}")). split; reflexivity.
Defined.

Lemma paid_session_envelope_is_complete :
  complete_envelope (Scenario.envelope Scenario.url (VBool true)) (js "1").
Proof.
  unfold complete_envelope. split; [| split; [| split]].
  - vm_compute. eauto.
  - vm_compute. eauto.
  - vm_compute. exact eq_refl.
  - intros i Hi. assert (i = 0%nat) as -> by (vm_compute in Hi; lia).
    vm_compute. eauto.
Defined.

Lemma fallback_uses_reconstructed_url_witness :
  exists w' t payload,
    run (Scenario.platform Scenario.paid_session)
        (Webhook.handler Scenario.delivery) Scenario.empty_world
      = (Returned acknowledged, w', t)
    /\ job_invocations t = [payload]
    /\ job_url payload
       = reconstructed_url (Scenario.envelope Scenario.url (VBool true)) (js "1").
Proof.
  apply (fallback_uses_reconstructed_url
           (Scenario.platform Scenario.paid_session) Scenario.delivery
           Scenario.paid_session (Scenario.envelope Scenario.url (VBool true))
           (js "1") Scenario.empty_world).
  - exact paid_session_is_delivered.
  - intros [m Hm]. vm_compute in Hm. discriminate Hm.
  - vm_compute. exact eq_refl.
  - reflexivity.
  - exact paid_session_envelope_is_complete.
Defined.

(** C6 (counterexample).  The event of [paid_session] is delivered twice to
    a deployment whose staging store is empty.  At the second delivery the
    signature is valid, the staging store has no order for the session
    and the metadata are complete, and no job is invoked: the ledger entry of
    the first delivery stops it. *)
Lemma redelivered_event_invokes_no_job :
  let X := Scenario.platform Scenario.paid_session in
  let w := world_after X (Webhook.handler Scenario.delivery) Scenario.empty_world in
  payment_completed X Scenario.delivery Scenario.paid_session
  /\ pending_orders w !! id Scenario.paid_session = None
  /\ complete_envelope (Scenario.envelope Scenario.url (VBool true)) (js "1")
  /\ job_invocations (trace_of X (Webhook.handler Scenario.delivery) w) = [].
Proof.
  cbv zeta. split; [exact paid_session_is_delivered |].
  split; [vm_compute; exact eq_refl |].
  split; [exact paid_session_envelope_is_complete |].
  vm_compute. exact eq_refl.
Qed.

(* ------------------------------------------------------------------ *)
(** ** C7: the ledger entry comes last                                  *)

Lemma mark_is_observed ev :
  is_Some (mark_of ev) -> exists sid, observation_of ev = Some (Mark sid).
Proof. destruct ev as [B op r]. destruct op; intros [sid H]; try discriminate H; eauto. Qed.

Lemma observe_split t1 ev t2 :
  is_Some (mark_of ev) ->
  exists sid, observe (t1 ++ ev :: t2) = observe t1 ++ Mark sid :: observe t2.
Proof.
  intros Hm. destruct (mark_is_observed ev Hm) as [sid Hsid]. exists sid.
  rewrite observe_app, observe_cons, Hsid. reflexivity.
Qed.

(** C7.  [handleSuccessfulPayment] always returns, and in its trace every
    write of a ledger entry comes after a job invocation whose trigger
    succeeded and after the notification step (a request to the channel, or
    none configured).  If the job was invoked and the trigger failed, the
    staging store and the ledger hold what they held and no ledger entry
    was written. *)
Theorem ledger_entry_follows_trigger_and_notification X session w :
  exists w' t,
    run X (Webhook.handleSuccessfulPayment session) w = (Returned tt, w', t)
    /\ (forall t1 ev t2,
          t = t1 ++ ev :: t2 -> is_Some (mark_of ev) ->
          triggered_and_notified X t1)
    /\ (forall answer,
          In answer (job_results t) -> trigger_succeeds answer = false ->
          same_stores w w' /\ marks t = []).
Proof.
  destruct (run_handleSuccessfulPayment X session w) as (w' & t & Hrun & Hend).
  exists w', t. split; [exact Hrun |].
  destruct Hend as [Hsame Ho | payload answer Hsame Ho Hfail
                   | payload answer notices marker Hok Ho Hn Hp Hl].
  - split.
    + intros t1 ev t2 -> Hm. destruct (observe_split t1 ev t2 Hm) as [sid Hs].
      rewrite Ho in Hs. destruct (observe t1); discriminate Hs.
    + intros a Hin. rewrite job_results_observe, Ho in Hin. destruct Hin.
  - split.
    + intros t1 ev t2 -> Hm. destruct (observe_split t1 ev t2 Hm) as [sid Hs].
      rewrite Ho in Hs. destruct (observe t1) as [|o [|o' l]]; discriminate Hs.
    + intros a _ _. split; [exact Hsame |]. rewrite marks_observe, Ho. reflexivity.
  - assert (Hjobs : job_results t = [answer]).
    { rewrite job_results_observe, Ho. cbn. rewrite omap_app.
      unfold notified in Hn. destruct (option_truthy _);
        [destruct Hn as [p ->] | rewrite Hn]; reflexivity. }
    split.
    + intros t1 ev t2 -> Hm. destruct (observe_split t1 ev t2 Hm) as [sid Hs].
      rewrite Ho in Hs. unfold triggered_and_notified, notification_done.
      rewrite job_results_observe, notifications_observe.
      unfold notified in Hn.
      destruct (option_truthy (env X !! "EMAIL_WEBHOOK_URL")) as [url|].
      * destruct Hn as [p ->].
        destruct (observe t1) as [|o1 [|o2 [|o3 l]]]; cbn in Hs; try discriminate Hs.
        -- injection Hs as <- <- _. split; [exists answer; cbn; auto |].
           left. discriminate.
        -- injection Hs as _ _ _ Hs. destruct l; discriminate Hs.
      * rewrite Hn in Hs.
        destruct (observe t1) as [|o1 [|o2 l]]; cbn in Hs; try discriminate Hs.
        -- injection Hs as <- _. split; [exists answer; cbn; auto |]. right. reflexivity.
        -- injection Hs as _ _ Hs. destruct l; discriminate Hs.
    + intros a Hin Hfail. rewrite Hjobs in Hin. destruct Hin as [<-|[]]. congruence.
Qed.

(** C7 (counterexample).  A deployment without a notification channel
    ([EMAIL_WEBHOOK_URL] is not set) receives the event of [paid_session]:
    the job is triggered with success and the ledger entry of the session
    is written, and no notification was dispatched, before it or after. *)
Lemma ledger_entry_without_notification :
  let X := Scenario.platform_without_channel Scenario.paid_session in
  let t := trace_of X (Webhook.handleSuccessfulPayment Scenario.paid_session)
             Scenario.empty_world in
  marks t = [Scenario.session_id]
  /\ (exists answer, job_results t = [answer] /\ trigger_succeeds answer = true)
  /\ notifications t = [].
Proof.
  cbv zeta. split; [vm_compute; exact eq_refl |].
  split; [| vm_compute; exact eq_refl].
  eexists. split; vm_compute; exact eq_refl.
Qed.

(* ------------------------------------------------------------------ *)
(** ** C8: a required field is missing                                  *)

Lemma run_order_from_metadata_missing X session md w :
  metadata session = Some md ->
  option_truthy (md !! js "leads") = None
  \/ option_truthy (md !! js "email") = None ->
  run X (Webhook.order_from_metadata session) w
  = (Returned None, w,
     [Ev (Console ConsoleError "Missing required metadata in session:") ()]).
Proof.
  intros Hmd Hfield. unfold Webhook.order_from_metadata. rewrite Hmd.
  destruct Hfield as [-> | ->]; [reflexivity |].
  destruct (option_truthy (md !! js "leads")); reflexivity.
Qed.

(** C8 (as amended).  A verified payment-completed event for a session
    that has no ledger entry and no order in the staging store, and whose
    metadata lack [leads] or [email]: the handler acknowledges it with 200,
    invokes no job, logs the failure with [console.error], sends nothing to
    the notification channel (configured or not), and leaves the stores as
    they are. *)
Theorem missing_required_field_aborts X req session md w :
  payment_completed X req session ->
  ~ processed (id session) w ->
  pending_orders w !! id session = None ->
  metadata session = Some md ->
  option_truthy (md !! js "leads") = None
  \/ option_truthy (md !! js "email") = None ->
  exists w' t,
    run X (Webhook.handler req) w = (Returned acknowledged, w', t)
    /\ job_invocations t = []
    /\ In (ConsoleError, "Missing required metadata in session:"%string) (logs t)
    /\ notifications t = []
    /\ same_stores w w'.
Proof.
  intros Hevent Hnew Hmiss Hmd Hfield.
  destruct (run_handleSuccessfulPayment_fallback X session w Hnew Hmiss)
    as (w1 & t1 & Hsame & Ho1 & Hrun).
  pose proof (run_order_from_metadata_missing X session md w1 Hmd Hfield) as Hmeta.
  destruct (Hrun _ _ w1 [] Hmeta (conj eq_refl eq_refl)) as (t4 & Hhandle & Ho4).
  destruct (run_handler_completed X req session w w1 _ Hevent Hhandle)
    as (t0 & Hhandler & Ho0).
  eexists w1, _. split; [exact Hhandler |].
  assert (Ho : observe
                 (t0 ++ t1 ++
                  [Ev (Console ConsoleError "Missing required metadata in session:") ()]
                  ++ [] ++ t4) = []).
  { observe_parts. rewrite Ho0, Ho1, Ho4. reflexivity. }
  split; [apply jobs_of_quiet, Ho |].
  split; [| split; [apply notifications_of_quiet, Ho | exact Hsame]].
  rewrite !logs_app. apply in_or_app. right. apply in_or_app. right.
  left. reflexivity.
Qed.

Lemma session_without_email_is_delivered :
  payment_completed (Scenario.platform Scenario.session_without_email)
    Scenario.delivery Scenario.session_without_email.
Proof.
  exists {| type := js "checkout.session.completed"; event_id := js "evt_1";
            created := 1700000000; data_object := Scenario.session_without_email |}.
  repeat split. exists (utf8_encode (js "{}")). split; reflexivity.
Defined.

Lemma missing_required_field_aborts_witness :
  exists w' t,
    run (Scenario.platform Scenario.session_without_email)
        (Webhook.handler Scenario.delivery) Scenario.empty_world
      = (Returned acknowledged, w', t)
    /\ job_invocations t = []
    /\ In (ConsoleError, "Missing required metadata in session:"%string) (logs t)
    /\ notifications t = []
    /\ same_stores Scenario.empty_world w'.
Proof.
  apply (missing_required_field_aborts
           (Scenario.platform Scenario.session_without_email) Scenario.delivery
           Scenario.session_without_email
           (delete (js "email") (Scenario.envelope Scenario.url (VBool true)))
           Scenario.empty_world).
  - exact session_without_email_is_delivered.
  - intros [m Hm]. vm_compute in Hm. discriminate Hm.
  - vm_compute. exact eq_refl.
  - reflexivity.
  - right. vm_compute. exact eq_refl.
Defined.

(** C8 (counterexample).  A notification channel is configured and the
    metadata of the delivered session lack the e-mail address: the handler
    answers 200 and logs the failure, and no request goes to the channel
    (nor anywhere else on the network). *)
Lemma recovery_failure_is_not_reported_to_channel :
  let X := Scenario.platform Scenario.session_without_email in
  let t := trace_of X (Webhook.handler Scenario.delivery) Scenario.empty_world in
  option_truthy (env X !! "EMAIL_WEBHOOK_URL")
    = Some (js "https://hooks.example.com/mail")
  /\ option_truthy
       (delete (js "email") (Scenario.envelope Scenario.url (VBool true))
          !! js "email") = None
  /\ In (ConsoleError, "Missing required metadata in session:"%string) (logs t)
  /\ notifications t = []
  /\ filter (fun e => is_network e = true) t = [].
Proof.
  cbv zeta. split; [vm_compute; exact eq_refl |].
  split; [vm_compute; exact eq_refl |].
  split; [vm_compute; tauto |].
  split; vm_compute; exact eq_refl.
Qed.

(* ------------------------------------------------------------------ *)
(** ** C9: [cleanData]                                                  *)

Import Normalizer.

(** C9 (as amended).  [cleanData] is a function of its input alone and is
    total over finite acyclic input: when following object-valued
    properties from the items ends within [d + 1] steps, every call stack
    with room for more than [d] nested calls gives the same result, a value
    or the TypeError of [Object.keys] on null or undefined, and the stack
    is not exhausted. *)
Theorem cleanData_total_on_finite_input (h : heap) (d : nat) (data : list jsval) :
  Forall (nesting h (S d)) data ->
  forall stack, (d <= stack)%nat ->
    cleanData (S stack) h data = cleanData (S d) h data
    /\ terminates (cleanData (S d) h data).
Proof.
  intros Hdata stack Hle. cbn [cleanData].
  induction Hdata as [|item rest Hitem Hrest [IHeq IHt]]; [split; [reflexivity | discriminate] |].
  destruct (clean_item_total h d item stack Hitem Hle) as [Heq Ht].
  cbn [map_items]. rewrite Heq, IHeq. split; [reflexivity |].
  unfold terminates in *.
  destruct (clean_item (cleanData d h) h item); [| discriminate | contradiction].
  destruct (map_items (clean_item (cleanData d h) h) rest);
    [discriminate | discriminate | contradiction].
Qed.

Lemma example_heap_nesting : Forall (nesting example_heap 2) [Ref 0%nat].
Proof.
  constructor; [| constructor].
  constructor. intros es key value He Hin Hobj.
  cbn in He. injection He as <-.
  cbn in Hin. destruct Hin as [H|[H|[H|[H|[]]]]]; injection H as <- <-;
    cbn in Hobj; try contradiction.
  constructor. intros es' key' value' He' Hin' Hobj'.
  cbn in He'. injection He' as <-.
  cbn in Hin'. destruct Hin' as [H|[H|[]]]; injection H as <- <-;
    cbn in Hobj'; contradiction.
Defined.

Lemma cleanData_total_on_finite_input_witness :
  cleanData 5 example_heap [Ref 0%nat] = cleanData 2 example_heap [Ref 0%nat]
  /\ terminates (cleanData 2 example_heap [Ref 0%nat]).
Proof.
  apply (cleanData_total_on_finite_input example_heap 1 [Ref 0%nat]
           example_heap_nesting 4%nat).
  lia.
Defined.

(** C9 (counterexample).  On an object that holds itself, [cleanData]
    exhausts every call stack: nothing caps the depth of its recursion. *)
Lemma cleanData_is_not_guarded_on_cycles :
  exhausts_every_stack cyclic_heap [Ref 0%nat].
Proof. intros stack. apply cleanData_cyclic. Qed.

(* ------------------------------------------------------------------ *)
(** ** C10: two deliveries of the same event                            *)

Import EventLoop.

Lemma successful_job_means_fulfilled X session w w' t :
  Ending X session w w' t ->
  (exists answer, In answer (job_results t) /\ trigger_succeeds answer = true) ->
  processed (id session) w' /\ length (job_invocations t) = 1%nat.
Proof.
  intros Hend (answer & Hin & Hok). rewrite job_results_observe in Hin.
  rewrite job_invocations_observe.
  destruct Hend as [_ Ho | payload a _ Ho Hfail
                   | payload a notices marker _ Ho Hn _ Hl].
  - rewrite Ho in Hin. destruct Hin.
  - rewrite Ho in Hin. destruct Hin as [<-|[]]. congruence.
  - split.
    + unfold processed. rewrite Hl, lookup_insert_eq. eauto.
    + rewrite Ho. cbn. rewrite omap_app, (notices_hold_no_job X notices Hn).
      reflexivity.
Qed.

(** C10 (as amended).  When the same verified payment-completed event is
    delivered twice and the first handler has run to its end, with its job
    triggered, before the second request arrives, the two deliveries invoke
    the job exactly once. *)
Theorem serial_deliveries_trigger_once X req session w n1 n2 :
  payment_completed X req session ->
  let first :=
    schedule X w (Arrive (Webhook.handler req) :: replicate n1 (Deliver 0)) in
  Forall (fun p => finished p = true) (handlers first) ->
  (exists answer,
      In answer (job_results (trace first)) /\ trigger_succeeds answer = true) ->
  let both :=
    fold_left (turn X)
      (Arrive (Webhook.handler req) :: replicate n2 (Deliver 1)) first in
  Forall (fun p => finished p = true) (handlers both) ->
  length (job_invocations (trace both)) = 1%nat.
Proof.
  intros Hevent first Hfin1 Hjob both Hfin2.
  assert (H1 : exists r t,
             run X (Webhook.handler req) w = (r, world first, t)
             /\ trace first = t /\ length (handlers first) = 1%nat).
  { destruct (serial_turns X (Webhook.handler req)
                {| handlers := []; world := w; trace := [] |} n1 Hfin1)
      as (r & t & Hr & Ht & Hl).
    exists r, t. exact (conj Hr (conj Ht Hl)). }
  destruct H1 as (r1 & t1 & Hrun1 & Htrace1 & Hlen1).
  destruct (run_handleSuccessfulPayment X session w) as (w1 & t1' & Hh1 & Hend1).
  destruct (run_handler_completed X req session w w1 t1' Hevent Hh1)
    as (t0 & Hhandler1 & Ho0).
  rewrite Hhandler1 in Hrun1. injection Hrun1 as _ Hw1 Ht1.
  assert (Hend : Ending X session w (world first) (trace first)).
  { rewrite Htrace1, <- Ht1, <- Hw1.
    destruct Hend1 as [Hs Ho | p a Hs Ho Hf | p a ns m Hok Ho Hn Hp Hl].
    - apply ending_idle; [exact Hs |]. rewrite observe_app, Ho0, Ho. reflexivity.
    - apply ending_failed with p a; [exact Hs | | exact Hf].
      rewrite observe_app, Ho0, Ho. reflexivity.
    - apply ending_fulfilled with p a ns m; try assumption.
      rewrite observe_app, Ho0, Ho. reflexivity. }
  destruct (successful_job_means_fulfilled X session w _ _ Hend Hjob)
    as [Hprocessed Hone].
  pose proof (serial_turns X (Webhook.handler req) first n2) as H2.
  cbv zeta in H2. rewrite Hlen1 in H2.
  destruct (H2 Hfin2) as (r2 & t2 & Hrun2 & Htrace2 & _). clear H2.
  change (fold_left (turn X)
            (Arrive (Webhook.handler req) :: replicate n2 (Deliver 1)) first)
    with both in Hrun2, Htrace2.
  destruct (run_handleSuccessfulPayment_processed X session (world first) Hprocessed)
    as (w2 & t2' & Hh2 & _ & Ho2).
  destruct (run_handler_completed X req session _ w2 t2' Hevent Hh2)
    as (t0' & Hhandler2 & Ho0').
  rewrite Hhandler2 in Hrun2. injection Hrun2 as _ _ Ht2.
  rewrite Htrace2, <- Ht2. unfold job_invocations in *. rewrite omap_app.
  fold (job_invocations (t0' ++ t2')).
  rewrite (jobs_of_quiet (t0' ++ t2')), app_nil_r
    by (rewrite observe_app, Ho0', Ho2; reflexivity).
  exact Hone.
Qed.

Lemma serial_deliveries_trigger_once_witness :
  let X := Scenario.platform Scenario.paid_session in
  let first :=
    schedule X Scenario.empty_world
      (Arrive (Webhook.handler Scenario.delivery) :: replicate 2 (Deliver 0)) in
  let both :=
    fold_left (turn X)
      (Arrive (Webhook.handler Scenario.delivery) :: replicate 2 (Deliver 1))
      first in
  length (job_invocations (trace both)) = 1%nat.
Proof.
  apply (serial_deliveries_trigger_once
           (Scenario.platform Scenario.paid_session) Scenario.delivery
           Scenario.paid_session Scenario.empty_world 2 2).
  - exact paid_session_is_delivered.
  - vm_compute. repeat constructor.
  - eexists. split; [vm_compute; left; reflexivity | vm_compute; exact eq_refl].
  - vm_compute. repeat constructor.
Defined.

(** C10 (counterexample).  Two deliveries of the same event whose handlers
    take turns: each passes the ledger check before the other writes its
    entry, both run to their end, and the job is invoked twice. *)
Lemma interleaved_deliveries_trigger_twice :
  let X := Scenario.platform Scenario.paid_session in
  let final := schedule X Scenario.empty_world Scenario.interleaved in
  Forall (fun p => finished p = true) (handlers final)
  /\ length (job_invocations (trace final)) = 2%nat
  /\ marks (trace final) = [Scenario.session_id; Scenario.session_id].
Proof.
  cbv zeta. split; [vm_compute; repeat constructor |].
  split; vm_compute; exact eq_refl.
Qed.

End Claims.

(* ================================================================== *)
(** * Properties of the checkout endpoint                              *)
(* ================================================================== *)

Module CheckoutProperties.
Import JsStringFacts CodecFacts WebhookFacts.

#[local] Arguments js : simpl never.
#[local] Arguments option_truthy : simpl never.
#[local] Arguments includes : simpl never.
#[local] Arguments number_toString : simpl never.
#[local] Arguments Checkout.build_metadata : simpl never.
#[local] Arguments Checkout.baseUrl : simpl never.
#[local] Arguments Checkout.stripe_error_response : simpl never.

Lemma includes_nonempty t s :
  truthy t = true -> includes t s = true -> truthy s = true.
Proof.
  destruct t as [|a t]; [discriminate |]. intros _.
  destruct s as [|b s]; [| reflexivity]. cbn. discriminate.
Qed.

Lemma option_truthy_includes t s :
  truthy t = true -> includes t s = true -> option_truthy (Some s) = Some s.
Proof.
  intros Ht Hs. unfold option_truthy. rewrite (includes_nonempty t s Ht Hs).
  reflexivity.
Qed.

Lemma option_truthy_Some_inv (o : option jsstring) s :
  option_truthy o = Some s -> o = Some s.
Proof.
  unfold option_truthy. destruct o as [t|]; [| discriminate].
  destruct (truthy t); [congruence | discriminate].
Qed.

(** One step of the interpreter at a time, leaving the data alone. *)
Ltac run_steps :=
  cbn [run exec mbind mret Prog_bind Prog_ret bind try_catch perform
       console_log console_error console_warn process_env date_now date_iso
       Checkout.createSession negb].

Ltac run_steps_in H :=
  cbn [run exec mbind mret Prog_bind Prog_ret bind try_catch perform
       console_log console_error console_warn process_env date_now date_iso
       Checkout.createSession negb] in H.

Lemma run_storeApolloUrl X sid fullUrl email leads cleanOutput w :
  exists timestamp w' t,
    run X (Checkout.storeApolloUrl sid fullUrl email leads cleanOutput) w
      = (Returned tt, w', t)
    /\ pending_orders w'
       = <[sid := {| so_apolloUrl := fullUrl; so_email := email;
                     so_leads := leads; so_cleanOutput := cleanOutput;
                     so_timestamp := timestamp |}]> (pending_orders w)
    /\ ledger w' = ledger w
    /\ List.filter is_network t = [].
Proof.
  destruct w as [[td|] pd k]; cbn; eexists _, _, _;
    (split; [reflexivity |]); cbn; auto.
Qed.

Ltac quiet_400 :=
  eexists _, _; split; [reflexivity |]; split; [reflexivity |];
  repeat constructor.

(** X1. A POST the validation refuses is answered with 400; the world is left
    as it is, nothing is stored and no network call is made (no Checkout
    Session is created). *)
Theorem checkout_refuses_invalid_order X req w :
  Checkout.method req = js "POST" ->
  refused X req ->
  exists response t,
    run X (Checkout.handler req) w = (Returned response, w, t)
    /\ res_status response = 400
    /\ Forall (fun e => is_storage e = false /\ is_network e = false) t.
Proof.
  intros Hpost Hbad. unfold Checkout.handler.
  rewrite Hpost, bool_decide_eq_true_2 by reflexivity. cbn [negb].
  rewrite run_try_catch.
  destruct (Checkout.leads (Checkout.body req)) as [| |b|n|s|items|props] eqn:Hleads;
    try quiet_400.
  destruct (Z.eqb_spec n 0); [quiet_400 |].
  destruct (Z.ltb_spec n 500); [quiet_400 |]. cbn [orb].
  destruct (option_truthy (Checkout.apolloUrl (Checkout.body req)))
    as [u|] eqn:Hurl; [| quiet_400].
  apply option_truthy_Some_inv in Hurl.
  destruct (includes (js "apollo.io") u) eqn:Hu; [| quiet_400]. cbn [negb].
  destruct (option_truthy (Checkout.email (Checkout.body req)))
    as [e|] eqn:Hemail; [| quiet_400].
  apply option_truthy_Some_inv in Hemail.
  destruct (includes (js "@") e) eqn:He; [| quiet_400]. cbn [negb].
  destruct Hbad as [Hb | [Hb | [Hb | Hb]]].
  - specialize (Hb n Hleads). lia.
  - specialize (Hb u Hurl). congruence.
  - specialize (Hb e Hemail). congruence.
  - specialize (Hb n Hleads). cbn.
    destruct (Z.ltb_spec (price_cents X n) 250); [quiet_400 |].
    destruct (Z.ltb_spec 25000 (price_cents X n)); [quiet_400 |]. lia.
Qed.

Lemma checkout_refuses_invalid_order_witness :
  exists response t,
    run (Scenario.platform Scenario.paid_session)
        (Checkout.handler Cases.small_order) Scenario.empty_world
      = (Returned response, Scenario.empty_world, t)
    /\ res_status response = 400
    /\ Forall (fun e => is_storage e = false /\ is_network e = false) t.
Proof.
  apply (checkout_refuses_invalid_order
           (Scenario.platform Scenario.paid_session) Cases.small_order
           Scenario.empty_world).
  - reflexivity.
  - left. intros n Hn. injection Hn as <-. lia.
Defined.

Lemma run_checkout_order X req w n u e :
  Checkout.method req = js "POST" ->
  Checkout.leads (Checkout.body req) = VNum n -> 500 <= n ->
  Checkout.apolloUrl (Checkout.body req) = Some u ->
  includes (js "apollo.io") u = true ->
  Checkout.email (Checkout.body req) = Some e ->
  includes (js "@") e = true ->
  250 <= price_cents X n <= 25000 ->
  exists response w' t params timestamp orderId,
    run X (Checkout.handler req) w = (Returned response, w', t)
    /\ List.filter is_network t
       = [Ev (StripeCreateSession params) (stripe_create X params)]
    /\ cp_unit_amount params = price_cents X n
    /\ cp_customer_email params = e
    /\ cp_metadata params
       = Checkout.build_metadata n u e (Checkout.cleanOutput (Checkout.body req))
           timestamp orderId
    /\ cp_success_url params
       = Checkout.baseUrl req (env X !! "VERCEL_URL")
           ++ js "/lead-scraper/payment-success?session_id={CHECKOUT_SESSION_ID}"
    /\ cp_cancel_url params
       = Checkout.baseUrl req (env X !! "VERCEL_URL")
           ++ js "/lead-scraper/payment-cancelled"
    /\ ledger w' = ledger w
    /\ match stripe_create X params with
       | SessionCreated sid surl =>
           response
           = json_response 200
               (VObj [(js "url", VStr surl); (js "sessionId", VStr sid)])
           /\ exists stored,
                pending_orders w' = <[sid := stored]> (pending_orders w)
                /\ so_apolloUrl stored = u
                /\ so_email stored = e
                /\ so_leads stored = n
                /\ so_cleanOutput stored = Checkout.cleanOutput (Checkout.body req)
       | SessionFailed err =>
           response = Checkout.stripe_error_response err
           /\ pending_orders w' = pending_orders w
       end.
Proof.
  intros Hpost Hleads Hn Hurl Hu Hemail He Hprice. unfold Checkout.handler.
  rewrite Hpost, bool_decide_eq_true_2 by reflexivity. cbn [negb].
  rewrite run_try_catch. rewrite Hleads, Hurl, Hemail.
  destruct (Z.eqb_spec n 0); [lia |]. destruct (Z.ltb_spec n 500); [lia |].
  cbn [orb].
  rewrite (option_truthy_includes (js "apollo.io") u eq_refl Hu), Hu.
  rewrite (option_truthy_includes (js "@") e eq_refl He), He. cbn [negb].
  run_steps.
  destruct (Z.ltb_spec (price_cents X n) 250); [lia |].
  destruct (Z.ltb_spec 25000 (price_cents X n)); [lia |].
  run_steps.
  match goal with
  | |- context [stripe_create X ?p] => set (params := p)
  end.
  destruct (stripe_create X params) as [sid surl|err] eqn:Hcreate.
  - run_steps. run_next.
    destruct (run_storeApolloUrl X sid u e n
                (Checkout.cleanOutput (Checkout.body req))
                (next_draw (next_draw (next_draw w))))
      as (ts & w' & t & -> & Hp & Hl & Hnet).
    run_steps.
    eexists _, _, _, params, _, _. split; [reflexivity |].
    split; [cbn; rewrite List.filter_app, Hnet, Hcreate; reflexivity |].
    repeat (split; [reflexivity |]). split; [exact Hl |].
    rewrite Hcreate. split; [reflexivity |].
    eexists. split; [exact Hp |]. repeat split.
  - run_steps. eexists _, _, _, params, _, _. split; [reflexivity |].
    split; [cbn; rewrite Hcreate; reflexivity |].
    repeat (split; [reflexivity |]). rewrite Hcreate. split; reflexivity.
Qed.

Lemma run_checkout_valid X req w n u e :
  Checkout.method req = js "POST" ->
  Checkout.leads (Checkout.body req) = VNum n -> 500 <= n ->
  Checkout.apolloUrl (Checkout.body req) = Some u ->
  includes (js "apollo.io") u = true ->
  Checkout.email (Checkout.body req) = Some e ->
  includes (js "@") e = true ->
  250 <= price_cents X n <= 25000 ->
  exists response w' t params timestamp orderId,
    run X (Checkout.handler req) w = (Returned response, w', t)
    /\ List.filter is_network t
       = [Ev (StripeCreateSession params) (stripe_create X params)]
    /\ cp_unit_amount params = price_cents X n
    /\ cp_customer_email params = e
    /\ cp_metadata params
       = Checkout.build_metadata n u e (Checkout.cleanOutput (Checkout.body req))
           timestamp orderId
    /\ ledger w' = ledger w
    /\ match stripe_create X params with
       | SessionCreated sid surl =>
           response
           = json_response 200
               (VObj [(js "url", VStr surl); (js "sessionId", VStr sid)])
           /\ exists stored,
                pending_orders w' = <[sid := stored]> (pending_orders w)
                /\ so_apolloUrl stored = u
                /\ so_email stored = e
                /\ so_leads stored = n
                /\ so_cleanOutput stored = Checkout.cleanOutput (Checkout.body req)
       | SessionFailed err =>
           response = Checkout.stripe_error_response err
           /\ pending_orders w' = pending_orders w
       end.
Proof.
  intros Hpost Hleads Hn Hurl Hu Hemail He Hprice.
  destruct (run_checkout_order X req w n u e Hpost Hleads Hn Hurl Hu Hemail He Hprice)
    as (response & w' & t & params & timestamp & orderId
        & Hrun & Hnet & Hamount & Hmail & Hmd & _ & _ & Hl & Hcase).
  exists response, w', t, params, timestamp, orderId. auto 10.
Qed.

(** X2. A valid order (a POST with at least 500 leads, a URL that contains
    "apollo.io", an address with an "@" and a price between 250 and 25000
    cents) makes exactly one network call, the creation of a Checkout
    Session for that price and address whose metadata are those of
    [build_metadata].  When Stripe creates the session, the answer is 200
    with the session's URL and id and the order is staged under the session
    id with the whole URL; when Stripe fails, the answer is the error
    response and nothing is staged.  The ledger is not touched. *)
Theorem checkout_outcome_follows_stripe X req w n u e :
  Checkout.method req = js "POST" ->
  Checkout.leads (Checkout.body req) = VNum n -> 500 <= n ->
  Checkout.apolloUrl (Checkout.body req) = Some u ->
  includes (js "apollo.io") u = true ->
  Checkout.email (Checkout.body req) = Some e ->
  includes (js "@") e = true ->
  250 <= price_cents X n <= 25000 ->
  exists response w' t params timestamp orderId,
    run X (Checkout.handler req) w = (Returned response, w', t)
    /\ List.filter is_network t
       = [Ev (StripeCreateSession params) (stripe_create X params)]
    /\ cp_unit_amount params = price_cents X n
    /\ cp_customer_email params = e
    /\ cp_metadata params
       = Checkout.build_metadata n u e (Checkout.cleanOutput (Checkout.body req))
           timestamp orderId
    /\ ledger w' = ledger w
    /\ match stripe_create X params with
       | SessionCreated sid surl =>
           response
           = json_response 200
               (VObj [(js "url", VStr surl); (js "sessionId", VStr sid)])
           /\ exists stored,
                pending_orders w' = <[sid := stored]> (pending_orders w)
                /\ so_apolloUrl stored = u
                /\ so_email stored = e
                /\ so_leads stored = n
                /\ so_cleanOutput stored = Checkout.cleanOutput (Checkout.body req)
       | SessionFailed err =>
           response = Checkout.stripe_error_response err
           /\ pending_orders w' = pending_orders w
       end.
Proof. apply run_checkout_valid. Qed.

Lemma checkout_outcome_follows_stripe_witness :
  let X := Scenario.platform Scenario.paid_session in
  let req := Scenario.checkout_request (VBool true) in
  exists response w' t params timestamp orderId,
    run X (Checkout.handler req) Scenario.empty_world = (Returned response, w', t)
    /\ List.filter is_network t
       = [Ev (StripeCreateSession params) (stripe_create X params)]
    /\ cp_unit_amount params = price_cents X 1000
    /\ cp_customer_email params = Scenario.customer
    /\ cp_metadata params
       = Checkout.build_metadata 1000 Scenario.url Scenario.customer
           (Checkout.cleanOutput (Checkout.body req)) timestamp orderId
    /\ ledger w' = ledger Scenario.empty_world
    /\ match stripe_create X params with
       | SessionCreated sid surl =>
           response
           = json_response 200
               (VObj [(js "url", VStr surl); (js "sessionId", VStr sid)])
           /\ exists stored,
                pending_orders w'
                = <[sid := stored]> (pending_orders Scenario.empty_world)
                /\ so_apolloUrl stored = Scenario.url
                /\ so_email stored = Scenario.customer
                /\ so_leads stored = 1000
                /\ so_cleanOutput stored = Checkout.cleanOutput (Checkout.body req)
       | SessionFailed err =>
           response = Checkout.stripe_error_response err
           /\ pending_orders w' = pending_orders Scenario.empty_world
       end.
Proof.
  apply (checkout_outcome_follows_stripe
           (Scenario.platform Scenario.paid_session)
           (Scenario.checkout_request (VBool true)) Scenario.empty_world
           1000 Scenario.url Scenario.customer).
  - reflexivity.
  - reflexivity.
  - lia.
  - reflexivity.
  - vm_compute. exact eq_refl.
  - reflexivity.
  - vm_compute. exact eq_refl.
  - vm_compute. split; discriminate.
Defined.

Ltac enter_handler H Hpost :=
  unfold Checkout.handler in H;
  rewrite Hpost, bool_decide_eq_true_2 in H by reflexivity;
  cbn [negb] in H; rewrite run_try_catch in H.

Lemma stripe_error_response_status err :
  400 <= res_status (Checkout.stripe_error_response err).
Proof.
  unfold Checkout.stripe_error_response.
  destruct err as [m|m|ty m]; [cbn; lia | cbn; lia |].
  repeat case_bool_decide; cbn; lia.
Qed.

(** The checkout answers 200 only for an order it has staged. *)
Lemma run_checkout_200 X req w response w' t :
  run X (Checkout.handler req) w = (Returned response, w', t) ->
  res_status response = 200 ->
  exists n u e sid surl stored,
    Checkout.leads (Checkout.body req) = VNum n
    /\ Checkout.apolloUrl (Checkout.body req) = Some u
    /\ Checkout.email (Checkout.body req) = Some e
    /\ response
       = json_response 200 (VObj [(js "url", VStr surl); (js "sessionId", VStr sid)])
    /\ pending_orders w' = <[sid := stored]> (pending_orders w)
    /\ so_apolloUrl stored = u
    /\ so_email stored = e
    /\ so_leads stored = n
    /\ so_cleanOutput stored = Checkout.cleanOutput (Checkout.body req)
    /\ ledger w' = ledger w.
Proof.
  intros Hrun H200.
  assert (Hno : forall (P : Prop) body,
             (Returned (json_response 400 body), w, @nil Event) = (Returned response, w', t) -> P).
  { intros P body H. injection H as <- _ _. discriminate H200. }
  assert (Hno1 : forall (P : Prop) body ev,
             (Returned (json_response 400 body), w, [ev]) = (Returned response, w', t) -> P).
  { intros P body ev H. injection H as <- _ _. discriminate H200. }
  destruct (decide (Checkout.method req = js "POST")) as [Hpost|Hother].
  2:{ unfold Checkout.handler in Hrun.
      rewrite (bool_decide_eq_false_2 _ Hother) in Hrun. cbn in Hrun.
      injection Hrun as <- _ _. discriminate H200. }
  destruct (Checkout.leads (Checkout.body req)) as [| |b|n|s|items|props] eqn:Hleads.
  1-3, 5-7:
    enter_handler Hrun Hpost; rewrite Hleads in Hrun; exact (Hno _ _ Hrun).
  destruct (Z.ltb_spec n 500) as [Hsmall|Hn].
  { enter_handler Hrun Hpost. rewrite Hleads in Hrun.
    destruct (Z.ltb_spec n 500); [| lia]. rewrite orb_true_r in Hrun.
    exact (Hno _ _ Hrun). }
  destruct (option_truthy (Checkout.apolloUrl (Checkout.body req))) as [u|] eqn:Hurl.
  2:{ enter_handler Hrun Hpost. rewrite Hleads, Hurl in Hrun.
      destruct ((n =? 0) || (n <? 500)); exact (Hno _ _ Hrun). }
  destruct (includes (js "apollo.io") u) eqn:Hu.
  2:{ enter_handler Hrun Hpost. rewrite Hleads, Hurl, Hu in Hrun.
      destruct ((n =? 0) || (n <? 500)); exact (Hno _ _ Hrun). }
  destruct (option_truthy (Checkout.email (Checkout.body req))) as [e|] eqn:Hemail.
  2:{ enter_handler Hrun Hpost. rewrite Hleads, Hurl, Hu, Hemail in Hrun.
      destruct ((n =? 0) || (n <? 500)); exact (Hno _ _ Hrun). }
  destruct (includes (js "@") e) eqn:He.
  2:{ enter_handler Hrun Hpost. rewrite Hleads, Hurl, Hu, Hemail, He in Hrun.
      destruct ((n =? 0) || (n <? 500)); exact (Hno _ _ Hrun). }
  apply option_truthy_Some_inv in Hurl, Hemail.
  destruct (Z.ltb_spec (price_cents X n) 250) as [Hlow|Hlow].
  { enter_handler Hrun Hpost. rewrite Hleads, Hurl, Hemail in Hrun.
    rewrite (option_truthy_includes (js "apollo.io") u eq_refl Hu), Hu in Hrun.
    rewrite (option_truthy_includes (js "@") e eq_refl He), He in Hrun.
    destruct (Z.eqb_spec n 0); [lia |]. destruct (Z.ltb_spec n 500); [lia |].
    cbn [orb negb] in Hrun. run_steps_in Hrun.
    destruct (Z.ltb_spec (price_cents X n) 250); [| lia].
    exact (Hno1 _ _ _ Hrun). }
  destruct (Z.ltb_spec 25000 (price_cents X n)) as [Hhigh|Hhigh].
  { enter_handler Hrun Hpost. rewrite Hleads, Hurl, Hemail in Hrun.
    rewrite (option_truthy_includes (js "apollo.io") u eq_refl Hu), Hu in Hrun.
    rewrite (option_truthy_includes (js "@") e eq_refl He), He in Hrun.
    destruct (Z.eqb_spec n 0); [lia |]. destruct (Z.ltb_spec n 500); [lia |].
    cbn [orb negb] in Hrun. run_steps_in Hrun.
    destruct (Z.ltb_spec (price_cents X n) 250); [lia |].
    destruct (Z.ltb_spec 25000 (price_cents X n)); [| lia].
    exact (Hno1 _ _ _ Hrun). }
  destruct (run_checkout_valid X req w n u e Hpost Hleads Hn Hurl Hu Hemail He
              (conj Hlow Hhigh))
    as (response0 & w0 & t0 & params & ts & oid & Hrun0 & _ & _ & _ & _ & Hl & Hout).
  rewrite Hrun0 in Hrun. injection Hrun as -> -> _.
  destruct (stripe_create X params) as [sid surl|err].
  - destruct Hout as (-> & stored & Hp & H1 & H2 & H3 & H4).
    exists n, u, e, sid, surl, stored. auto 10.
  - destruct Hout as [-> _].
    pose proof (stripe_error_response_status err). lia.
Qed.

(* ------------------------------------------------------------------ *)
(** ** The size of the metadata *)

Lemma length_split_from fuel : forall i (s : jsstring),
  (length s <= i + fuel)%nat ->
  length (split_from fuel i s) = ((length s - i + 449) / 450)%nat.
Proof.
  induction fuel as [|f IH]; intros i s Hlen; cbn [split_from].
  - replace (length s - i)%nat with 0%nat by lia. reflexivity.
  - destruct (Nat.ltb_spec i (length s)) as [Hlt|Hge].
    + cbn [length]. rewrite IH by (unfold chunkSize; lia). unfold chunkSize.
      destruct (Nat.le_gt_cases (length s) (i + 450)) as [Hle|Hgt].
      * replace (length s - (i + 450))%nat with 0%nat by lia.
        change ((0 + 449) / 450)%nat with 0%nat.
        apply Nat.div_unique with (r := (length s - i + 449 - 450)%nat); lia.
      * replace (length s - i + 449)%nat
          with (length s - (i + 450) + 449 + 1 * 450)%nat by lia.
        rewrite Nat.div_add by lia. lia.
    + replace (length s - i)%nat with 0%nat by lia. reflexivity.
Qed.

Lemma length_urlChunks s :
  length (urlChunks s) = ((length s + 449) / 450)%nat.
Proof.
  unfold urlChunks. rewrite length_split_from by lia.
  rewrite Nat.sub_0_r. reflexivity.
Qed.

Lemma add_chunks_beyond chunks : forall index md j,
  (index + length chunks <= j)%nat ->
  add_chunks chunks index md !! chunkKey j = md !! chunkKey j.
Proof.
  induction chunks as [|c r IH]; intros index md j Hj; cbn in *; [reflexivity |].
  rewrite IH by lia. apply lookup_insert_ne. intros H%chunkKey_inj. lia.
Qed.

Lemma size_add_chunks chunks : forall index md,
  (forall j, (index <= j)%nat -> md !! chunkKey j = None) ->
  size (add_chunks chunks index md) = (length chunks + size md)%nat.
Proof.
  induction chunks as [|c r IH]; intros index md Hfree; cbn [add_chunks length];
    [reflexivity |].
  rewrite IH.
  - rewrite map_size_insert_None by (apply Hfree; lia). lia.
  - intros j Hj. rewrite lookup_insert_ne by (intros H%chunkKey_inj; lia).
    apply Hfree. lia.
Qed.

Lemma base_metadata_no_chunk leads apolloUrl email cleanOutput timestamp orderId count j :
  Checkout.base_metadata leads apolloUrl email cleanOutput timestamp orderId count
    !! chunkKey j = None.
Proof.
  unfold Checkout.base_metadata.
  rewrite lookup_insert_ne by (intros H; exact (chunkKey_not_count j (eq_sym H))).
  rewrite !lookup_insert_ne by (unfold chunkKey; vm_compute; discriminate).
  apply lookup_empty.
Qed.

Lemma size_base_metadata leads apolloUrl email cleanOutput timestamp orderId count :
  size (Checkout.base_metadata leads apolloUrl email cleanOutput timestamp orderId count)
  = 8%nat.
Proof.
  unfold Checkout.base_metadata.
  repeat (rewrite map_size_insert_None;
          [| rewrite ?lookup_insert_ne by (vm_compute; discriminate);
             apply lookup_empty]).
  rewrite map_size_empty. reflexivity.
Qed.

Lemma truncatedUrl_length apolloUrl :
  (length (truncatedUrl apolloUrl) <= 453)%nat.
Proof.
  unfold truncatedUrl, substring0.
  destruct (Nat.ltb_spec 450 (length apolloUrl)).
  - rewrite length_app, length_take. change (length (js "...")) with 3%nat. lia.
  - lia.
Qed.

(** X3. Every value of the metadata that comes from the URL is short enough
    for a metadata field: the [apolloUrl] field is the URL itself when it
    has at most 450 characters, else its first 450 characters and "...";
    every [urlChunk] field holds between 1 and 450 characters; and there are
    no [urlChunk] fields beyond the count. *)
Theorem url_metadata_are_bounded
    (leads : Z) (apolloUrl email : jsstring) (cleanOutput : value)
    (timestamp orderId : jsstring) :
  let md :=
    Checkout.build_metadata leads apolloUrl email cleanOutput timestamp orderId in
  let chunks := urlChunks (base64_encode (utf8_encode apolloUrl)) in
  md !! js "apolloUrl"
    = Some (if (450 <? length apolloUrl)%nat
            then take 450 apolloUrl ++ js "..." else apolloUrl)
  /\ (forall v : jsstring, md !! js "apolloUrl" = Some v -> (length v <= 453)%nat)
  /\ (forall (i : nat) (chunk : jsstring), md !! chunkKey i = Some chunk ->
        (i < length chunks)%nat /\ (1 <= length chunk <= 450)%nat).
Proof.
  cbv zeta.
  assert (Hurl : Checkout.build_metadata leads apolloUrl email cleanOutput
                   timestamp orderId !! js "apolloUrl"
                 = Some (truncatedUrl apolloUrl)).
  { unfold Checkout.build_metadata.
    rewrite add_chunks_other by (intros i; unfold chunkKey; vm_compute; discriminate).
    unfold Checkout.base_metadata.
    rewrite !lookup_insert_ne by (vm_compute; discriminate).
    apply lookup_insert_eq. }
  split; [exact Hurl |]. split.
  { intros v Hv. rewrite Hurl in Hv. injection Hv as <-. apply truncatedUrl_length. }
  intros i chunk Hi.
  set (chunks := urlChunks (base64_encode (utf8_encode apolloUrl))) in *.
  destruct (Nat.lt_ge_cases i (length chunks)) as [Hlt|Hge].
  - split; [exact Hlt |].
    rewrite (Claims.build_metadata_chunk _ _ _ _ _ _ i Hlt) in Hi. fold chunks in Hi.
    pose proof (split_from_chunks (length (base64_encode (utf8_encode apolloUrl)))
                  0 (base64_encode (utf8_encode apolloUrl))) as Hall.
    fold (urlChunks (base64_encode (utf8_encode apolloUrl))) in Hall. fold chunks in Hall.
    rewrite Forall_lookup in Hall. destruct (Hall i chunk Hi) as [Htruthy Hlen].
    unfold chunkSize in Hlen. split; [| exact Hlen].
    destruct chunk; [discriminate Htruthy | cbn; lia].
  - unfold Checkout.build_metadata in Hi. fold chunks in Hi.
    rewrite add_chunks_beyond, base_metadata_no_chunk in Hi by (cbn; lia).
    discriminate Hi.
Qed.

(** X4. The metadata object has eight fields and one more for every 450
    characters, or part of them, of the base64 text of the URL. *)
Theorem metadata_field_count
    (leads : Z) (apolloUrl email : jsstring) (cleanOutput : value)
    (timestamp orderId : jsstring) :
  size (Checkout.build_metadata leads apolloUrl email cleanOutput timestamp orderId)
  = (8 + (length (base64_encode (utf8_encode apolloUrl)) + 449) / 450)%nat.
Proof.
  unfold Checkout.build_metadata.
  rewrite size_add_chunks by (intros j _; apply base_metadata_no_chunk).
  rewrite size_base_metadata, length_urlChunks. lia.
Qed.

Lemma starts_with_prefix (t s : jsstring) : starts_with t (t ++ s) = true.
Proof.
  induction t as [|c t IH]; [destruct s; reflexivity |].
  cbn [app starts_with]. rewrite Z.eqb_refl. exact IH.
Qed.

(** X27. The pages Stripe sends the customer back to are built from the
    request.  For a valid order whose request has an Origin header that is
    not empty, the success URL and the cancel URL of the session both
    start with that header as it is, whatever it holds: no list of allowed
    origins is consulted.  Without such a header they start with
    "https://". *)
Theorem redirect_urls_follow_the_origin X req w n u e :
  Checkout.method req = js "POST" ->
  Checkout.leads (Checkout.body req) = VNum n -> 500 <= n ->
  Checkout.apolloUrl (Checkout.body req) = Some u ->
  includes (js "apollo.io") u = true ->
  Checkout.email (Checkout.body req) = Some e ->
  includes (js "@") e = true ->
  250 <= price_cents X n <= 25000 ->
  exists params base,
    List.filter is_network (trace_of X (Checkout.handler req) w)
    = [Ev (StripeCreateSession params) (stripe_create X params)]
    /\ cp_success_url params
       = base ++ js "/lead-scraper/payment-success?session_id={CHECKOUT_SESSION_ID}"
    /\ cp_cancel_url params = base ++ js "/lead-scraper/payment-cancelled"
    /\ match option_truthy (Checkout.origin req) with
       | Some origin => base = origin
       | None => starts_with (js "https://") base = true
       end.
Proof.
  intros Hpost Hleads Hn Hurl Hu Hemail He Hprice.
  destruct (run_checkout_order X req w n u e Hpost Hleads Hn Hurl Hu Hemail He Hprice)
    as (response & w' & t & params & timestamp & orderId
        & Hrun & Hnet & _ & _ & _ & Hsuccess & Hcancel & _).
  exists params, (Checkout.baseUrl req (env X !! "VERCEL_URL")).
  unfold trace_of. rewrite Hrun. cbn [snd].
  split; [exact Hnet |]. split; [exact Hsuccess |]. split; [exact Hcancel |].
  unfold Checkout.baseUrl. destruct (option_truthy (Checkout.origin req)); [reflexivity |].
  destruct (match Checkout.host req with
            | Some h => includes (js "resources.bluecraftleads.com") h
            | None => false
            end).
  - apply (starts_with_prefix (js "https://") (js "resources.bluecraftleads.com")).
  - apply starts_with_prefix.
Qed.

Lemma redirect_urls_follow_the_origin_witness :
  let X := Scenario.platform Scenario.paid_session in
  let req := Scenario.checkout_request (VBool true) in
  exists params base,
    List.filter is_network (trace_of X (Checkout.handler req) Scenario.empty_world)
    = [Ev (StripeCreateSession params) (stripe_create X params)]
    /\ cp_success_url params
       = base ++ js "/lead-scraper/payment-success?session_id={CHECKOUT_SESSION_ID}"
    /\ cp_cancel_url params = base ++ js "/lead-scraper/payment-cancelled"
    /\ match option_truthy (Checkout.origin req) with
       | Some origin => base = origin
       | None => starts_with (js "https://") base = true
       end.
Proof.
  apply (redirect_urls_follow_the_origin
           (Scenario.platform Scenario.paid_session)
           (Scenario.checkout_request (VBool true)) Scenario.empty_world
           1000 Scenario.url Scenario.customer).
  - reflexivity.
  - reflexivity.
  - lia.
  - reflexivity.
  - vm_compute. exact eq_refl.
  - reflexivity.
  - vm_compute. exact eq_refl.
  - vm_compute. split; discriminate.
Defined.

End CheckoutProperties.

(* ================================================================== *)
(** * Properties of the webhook                                        *)
(* ================================================================== *)

Module WebhookProperties.
Import BufferFacts JsStringFacts CodecFacts WebhookFacts.

#[local] Arguments js : simpl never.
#[local] Arguments option_truthy : simpl never.
#[local] Arguments decode_chunks : simpl never.
#[local] Arguments Webhook.run_id : simpl never.
#[local] Arguments Webhook.charAt : simpl never.

(** ** The helpers, with the data they pass on *)

Section Helpers.
Context (X : Platform).

Lemma run_sendEmailWebhook_mail payload w :
  exists w' t,
    run X (Webhook.sendEmailWebhook (job_email payload) (job_totalRecords payload)
             (job_url payload) (job_fileName payload)) w
      = (Returned tt, w', t)
    /\ same_stores w w'
    /\ notices_of X payload (observe t).
Proof.
  unfold Webhook.sendEmailWebhook, notices_of. cbn.
  destruct (option_truthy (env X !! "EMAIL_WEBHOOK_URL")) as [url|]; cbn.
  - destruct (email_webhook X url _) as [|[|] status body]; cbn;
      eexists _, _; (split; [reflexivity |]); (split; [split; reflexivity |]);
      eexists; reflexivity.
  - eexists _, _. split; [reflexivity |]. split; [split |]; reflexivity.
Qed.

Lemma run_generateRandomFileName_draws w :
  exists fileName w' t,
    run X Webhook.generateRandomFileName w = (Returned fileName, w', t)
    /\ same_stores w w' /\ observe t = []
    /\ draws w' = (6 + draws w)%nat.
Proof.
  cbn. eexists _, _, _. split; [reflexivity |].
  split; [split; reflexivity |]. split; reflexivity.
Qed.

Lemma run_retrieveApolloUrl_quiet sid w :
  exists t,
    run X (Webhook.retrieveApolloUrl sid) w = (Returned (pending_orders w !! sid), w, t)
    /\ observe t = []
    /\ Forall (fun e => is_network e = false) t.
Proof.
  destruct w as [[td|] pd n]; unfold pending_orders; sym_run;
    eexists; (split; [reflexivity |]); (split; [reflexivity |]);
    repeat constructor.
Qed.

End Helpers.

#[local] Arguments Webhook.isSessionProcessed : simpl never.
#[local] Arguments Webhook.retrieveApolloUrl : simpl never.
#[local] Arguments Webhook.order_from_metadata : simpl never.
#[local] Arguments Webhook.generateRandomFileName : simpl never.
#[local] Arguments Webhook.triggerApolloScraper : simpl never.
#[local] Arguments Webhook.sendEmailWebhook : simpl never.
#[local] Arguments Webhook.cleanupApolloUrl : simpl never.
#[local] Arguments Webhook.markSessionProcessed : simpl never.

Section Orchestrator.
Context (X : Platform).

(** [fulfil_order] on an order that has a URL: the job it invokes and, by
    the answer, what follows. *)
Lemma run_fulfil_order_job session order url w :
  Webhook.apolloUrl order = Some url ->
  exists r w' t fileName,
    run X (Webhook.fulfil_order session order) w = (r, w', t)
    /\ let payload := job_for order url fileName in
       let answer := answer_to X payload in
       if trigger_succeeds answer then
         r = Returned tt
         /\ exists notices marker,
              observe t = Job payload answer :: notices ++ [Mark (id session)]
              /\ notices_of X payload notices
              /\ pending_orders w' = delete (id session) (pending_orders w)
              /\ ledger w' = <[id session := marker]> (ledger w)
       else
         same_stores w w' /\ observe t = [Job payload answer].
Proof.
  intros Hurl. unfold Webhook.fulfil_order. unfold_bind. run_next.
  destruct (run_generateRandomFileName X w)
    as (fileName & w1 & t1 & -> & [Hp1 Hl1] & Ho1).
  rewrite Hurl. cbn.
  change {| job_url := url;
            job_totalRecords := parseInt_value (Webhook.leads order);
            job_fileName := fileName; job_email := Webhook.email order;
            job_cleanOutput :=
              strict_eq_str (Webhook.cleanOutput order) (js "true") |}
    with (job_for order url fileName).
  set (payload := job_for order url fileName).
  run_next.
  destruct (run_triggerApolloScraper X payload w1) as (r2 & t2 & -> & Ho2 & Hr2).
  fold (answer_to X payload) in Ho2, Hr2.
  destruct (trigger_succeeds (answer_to X payload)) eqn:Hok.
  - destruct Hr2 as [runId ->]. run_next.
    change (Webhook.email order) with (job_email payload).
    change (parseInt_value (Webhook.leads order)) with (job_totalRecords payload).
    change url with (job_url payload) at 1.
    change fileName with (job_fileName payload) at 1.
    destruct (run_sendEmailWebhook_mail X payload w1)
      as (w3 & t3 & -> & [Hp3 Hl3] & Ho3).
    cbn. run_next.
    destruct (run_cleanupApolloUrl X (id session) w3)
      as (w4 & t4 & -> & Hp4 & Hl4 & Ho4).
    destruct (run_markSessionProcessed X (id session) w4)
      as (m & w5 & t5 & -> & Hp5 & Hl5 & Ho5).
    eexists _, _, _, fileName. split; [reflexivity |].
    cbv zeta. fold payload. rewrite Hok. split; [reflexivity |].
    exists (observe t3), m. split; [| split; [exact Ho3 | split; congruence]].
    observe_parts. rewrite Ho1, Ho2, Ho4, Ho5. reflexivity.
  - destruct Hr2 as [e ->].
    eexists _, _, _, fileName. split; [reflexivity |].
    cbv zeta. fold payload. rewrite Hok. split; [split; assumption |].
    observe_parts. rewrite Ho1, Ho2. reflexivity.
Qed.

Lemma run_recover_order_staged session data w :
  pending_orders w !! id session = Some data ->
  exists t,
    run X (Webhook.recover_order session) w
      = (Returned (Some (Webhook.order_of_stored data)), w, t)
    /\ observe t = [].
Proof.
  intros Hstaged. unfold Webhook.recover_order. unfold_bind. run_next.
  destruct (run_retrieveApolloUrl X (id session) w) as (t1 & -> & Ho1).
  rewrite Hstaged. cbn. eexists. split; [reflexivity |].
  observe_parts. rewrite Ho1. reflexivity.
Qed.

#[local] Arguments Webhook.recover_order : simpl never.
#[local] Arguments Webhook.fulfil_order : simpl never.

(** The orchestrator on a session the ledger does not hold: what
    [recover_order] gives decides. *)
Lemma run_handleSuccessfulPayment_new session w :
  ~ processed (id session) w ->
  exists w1 t1,
    same_stores w w1 /\ observe t1 = []
    /\ forall r t2 w' t3,
         run X (Webhook.recover_order session) w1 = (r, w1, t2) ->
         match r with
         | Returned (Some order) =>
             exists r3,
               run X (Webhook.fulfil_order session order) w1 = (r3, w', t3)
         | _ => w' = w1 /\ t3 = []
         end ->
         exists t4,
           run X (Webhook.handleSuccessfulPayment session) w
             = (Returned tt, w', t1 ++ t2 ++ t3 ++ t4)
           /\ observe t4 = [].
Proof.
  intros Hnew.
  destruct (run_isSessionProcessed X (id session) w)
    as (w1 & t1 & Hrun1 & Hsame & Ho1).
  exists w1, (Ev (Console ConsoleLog "Processing successful payment:") () :: t1).
  split; [exact Hsame |]. split; [observe_parts; exact Ho1 |].
  intros r t2 w' t3 Hrec Hrest.
  unfold Webhook.handleSuccessfulPayment. rewrite run_try_catch. cbn.
  run_next. rewrite Hrun1, bool_decide_eq_false_2 by assumption. cbn.
  run_next. rewrite Hrec.
  destruct r as [[order|]|e]; cbn.
  - destruct Hrest as [[[]|e] ->]; cbn.
    + exists []. split; [| reflexivity]. rewrite !app_nil_r. reflexivity.
    + exists [Ev (Console ConsoleError "Error processing successful payment:") ()].
      split; [| reflexivity]. rewrite <- !app_assoc. reflexivity.
  - destruct Hrest as [-> ->]. exists []. split; [| reflexivity].
    rewrite !app_nil_r. reflexivity.
  - destruct Hrest as [-> ->].
    exists [Ev (Console ConsoleError "Error processing successful payment:") ()].
    split; [| reflexivity]. rewrite <- !app_assoc. reflexivity.
Qed.

End Orchestrator.

Lemma jobs_of_observed t os :
  observe t = os -> job_invocations t = omap job_of_observation os.
Proof. intros <-. apply job_invocations_observe. Qed.

Lemma notices_of_no_job X payload notices :
  notices_of X payload notices -> omap job_of_observation notices = [].
Proof.
  unfold notices_of. destruct (option_truthy _); [intros [ts ->] | intros ->];
    reflexivity.
Qed.

(** An order that has a URL, recovered for a session the ledger does not
    hold: the handler invokes the job for it once and acknowledges; by the
    answer, the session is fulfilled or the stores are left as they were. *)
Lemma run_handler_order X req session order url w :
  payment_completed X req session ->
  ~ processed (id session) w ->
  (forall w1, same_stores w w1 ->
     exists t2,
       run X (Webhook.recover_order session) w1 = (Returned (Some order), w1, t2)
       /\ observe t2 = []) ->
  Webhook.apolloUrl order = Some url ->
  exists w' t fileName,
    run X (Webhook.handler req) w = (Returned acknowledged, w', t)
    /\ let payload := job_for order url fileName in
       let answer := answer_to X payload in
       job_invocations t = [payload]
       /\ if trigger_succeeds answer then
            (exists notices,
               observe t = Job payload answer :: notices ++ [Mark (id session)]
               /\ notices_of X payload notices)
            /\ pending_orders w' = delete (id session) (pending_orders w)
            /\ processed (id session) w'
          else
            same_stores w w' /\ observe t = [Job payload answer].
Proof.
  intros Hevent Hnew Hrec Hurl.
  destruct (run_handleSuccessfulPayment_new X session w Hnew)
    as (w1 & t1 & [Hp1 Hl1] & Ho1 & Hrun).
  destruct (Hrec w1 (conj Hp1 Hl1)) as (t2 & Hrec2 & Ho2).
  clear Hrec. rename Hrec2 into Hrec.
  destruct (run_fulfil_order_job X session order url w1 Hurl)
    as (r3 & w' & t3 & fileName & Hfulfil & H3).
  destruct (Hrun _ t2 w' t3 Hrec (ex_intro _ r3 Hfulfil)) as (t4 & Hhandle & Ho4).
  destruct (run_handler_completed X req session w w' _ Hevent Hhandle)
    as (t0 & Hhandler & Ho0).
  eexists w', _, fileName. split; [exact Hhandler |].
  cbv zeta in *.
  set (payload := job_for order url fileName) in *.
  destruct (trigger_succeeds (answer_to X payload)).
  - destruct H3 as (_ & notices & marker & Ho3 & Hn & Hp3 & Hl3).
    assert (Ho : observe (t0 ++ t1 ++ t2 ++ t3 ++ t4)
                 = Job payload (answer_to X payload) :: notices ++ [Mark (id session)]).
    { observe_parts. rewrite Ho0, Ho1, Ho2, Ho3, Ho4, app_nil_r. reflexivity. }
    split.
    + rewrite (jobs_of_observed _ _ Ho). cbn.
      rewrite omap_app, (notices_of_no_job X payload notices Hn). reflexivity.
    + split; [exists notices; split; assumption |].
      split; [rewrite Hp3, Hp1; reflexivity |].
      unfold processed. rewrite Hl3, lookup_insert_eq. eauto.
  - destruct H3 as ([Hp3 Hl3] & Ho3).
    assert (Ho : observe (t0 ++ t1 ++ t2 ++ t3 ++ t4)
                 = [Job payload (answer_to X payload)]).
    { observe_parts. rewrite Ho0, Ho1, Ho2, Ho3, Ho4. reflexivity. }
    split; [rewrite (jobs_of_observed _ _ Ho); reflexivity |].
    split; [split; congruence | exact Ho].
Qed.

(* ------------------------------------------------------------------ *)
(** ** The staged order *)

(** The deployment of the scenario delivers its session. *)
Lemma session_is_delivered session :
  payment_completed (Scenario.platform session) Scenario.delivery session.
Proof.
  exists {| type := js "checkout.session.completed"; event_id := js "evt_1";
            created := 1700000000; data_object := session |}.
  repeat split. exists (utf8_encode (js "{}")). split; reflexivity.
Defined.

Lemma run_handler_staged X req session data w :
  payment_completed X req session ->
  ~ processed (id session) w ->
  pending_orders w !! id session = Some data ->
  exists w' t fileName,
    run X (Webhook.handler req) w = (Returned acknowledged, w', t)
    /\ let payload :=
         {| job_url := so_apolloUrl data;
            job_totalRecords := Some (so_leads data);
            job_fileName := fileName;
            job_email := so_email data;
            job_cleanOutput := strict_eq_str (so_cleanOutput data) (js "true") |} in
       job_invocations t = [payload]
       /\ if trigger_succeeds (answer_to X payload) then
            pending_orders w' = delete (id session) (pending_orders w)
            /\ processed (id session) w'
          else same_stores w w'.
Proof.
  intros Hevent Hnew Hstaged.
  destruct (run_handler_order X req session (Webhook.order_of_stored data)
              (so_apolloUrl data) w Hevent Hnew) as (w' & t & fileName & Hrun & H).
  { intros w1 [Hp1 _]. apply run_recover_order_staged. rewrite Hp1. exact Hstaged. }
  { reflexivity. }
  exists w', t, fileName. split; [exact Hrun |]. cbv zeta in *.
  change (job_for (Webhook.order_of_stored data) (so_apolloUrl data) fileName)
    with {| job_url := so_apolloUrl data;
            job_totalRecords := Some (so_leads data);
            job_fileName := fileName;
            job_email := so_email data;
            job_cleanOutput := strict_eq_str (so_cleanOutput data) (js "true") |}
    in H.
  destruct H as [Hjobs H]. split; [exact Hjobs |].
  destruct (trigger_succeeds _); [| apply H].
  destruct H as (_ & Hp & Hl). split; assumption.
Qed.

(** X5. A verified payment-completed event for a session that the ledger does
    not hold and whose order is in the staging store: the handler
    acknowledges with 200 and invokes the job exactly once, with the URL
    and the address of the staged order, and with [cleanOutput] set
    exactly when the staged value is the string "true".  When the trigger
    succeeds the order leaves the staging store and the session enters the
    ledger, whatever the notification channel answers; when it fails both
    stores are left as they were. *)
Theorem staged_order_is_sent_to_the_actor X req session data w :
  payment_completed X req session ->
  ~ processed (id session) w ->
  pending_orders w !! id session = Some data ->
  exists w' t payload,
    run X (Webhook.handler req) w = (Returned acknowledged, w', t)
    /\ job_invocations t = [payload]
    /\ job_url payload = so_apolloUrl data
    /\ job_email payload = so_email data
    /\ job_cleanOutput payload = strict_eq_str (so_cleanOutput data) (js "true")
    /\ if trigger_succeeds (answer_to X payload) then
         pending_orders w' = delete (id session) (pending_orders w)
         /\ processed (id session) w'
       else same_stores w w'.
Proof.
  intros Hevent Hnew Hstaged.
  destruct (run_handler_staged X req session data w Hevent Hnew Hstaged)
    as (w' & t & fileName & Hrun & Hjobs & Hstores).
  eexists w', t, _. split; [exact Hrun |]. split; [exact Hjobs |].
  repeat (split; [reflexivity |]). exact Hstores.
Qed.

Lemma staged_order_is_sent_to_the_actor_witness :
  let X := Scenario.platform Scenario.paid_session in
  exists w' t payload,
    run X (Webhook.handler Scenario.delivery) Cases.staged_world
      = (Returned acknowledged, w', t)
    /\ job_invocations t = [payload]
    /\ job_url payload = so_apolloUrl Cases.staged_order
    /\ job_email payload = so_email Cases.staged_order
    /\ job_cleanOutput payload
       = strict_eq_str (so_cleanOutput Cases.staged_order) (js "true")
    /\ if trigger_succeeds (answer_to X payload) then
         pending_orders w'
         = delete (id Scenario.paid_session) (pending_orders Cases.staged_world)
         /\ processed (id Scenario.paid_session) w'
       else same_stores Cases.staged_world w'.
Proof.
  apply (staged_order_is_sent_to_the_actor
           (Scenario.platform Scenario.paid_session) Scenario.delivery
           Scenario.paid_session Cases.staged_order Cases.staged_world).
  - exact (session_is_delivered Scenario.paid_session).
  - intros [m Hm]. vm_compute in Hm. discriminate Hm.
  - vm_compute. exact eq_refl.
Defined.

(** X28. A whole number of leads passes through the staged order
    unchanged: when the staged order holds a whole number [n] with
    0 <= n < 2^53 (the whole numbers a JavaScript number holds exactly),
    the job is invoked with [totalRecords] equal to [n]. *)
Theorem staged_whole_leads_are_passed_on X req session data w :
  payment_completed X req session ->
  ~ processed (id session) w ->
  pending_orders w !! id session = Some data ->
  0 <= so_leads data < 2 ^ 53 ->
  exists w' t payload,
    run X (Webhook.handler req) w = (Returned acknowledged, w', t)
    /\ job_invocations t = [payload]
    /\ job_totalRecords payload = Some (so_leads data).
Proof.
  intros Hevent Hnew Hstaged _.
  destruct (run_handler_staged X req session data w Hevent Hnew Hstaged)
    as (w' & t & fileName & Hrun & Hjobs & _).
  eexists w', t, _. split; [exact Hrun |]. split; [exact Hjobs | reflexivity].
Qed.

Lemma staged_whole_leads_are_passed_on_witness :
  exists w' t payload,
    run (Scenario.platform Scenario.paid_session)
        (Webhook.handler Scenario.delivery) Cases.staged_world
      = (Returned acknowledged, w', t)
    /\ job_invocations t = [payload]
    /\ job_totalRecords payload = Some (so_leads Cases.staged_order).
Proof.
  apply (staged_whole_leads_are_passed_on
           (Scenario.platform Scenario.paid_session) Scenario.delivery
           Scenario.paid_session Cases.staged_order Cases.staged_world).
  - exact (session_is_delivered Scenario.paid_session).
  - intros [m Hm]. vm_compute in Hm. discriminate Hm.
  - vm_compute. exact eq_refl.
  - vm_compute. split; [discriminate | reflexivity].
Defined.

(* ------------------------------------------------------------------ *)
(** ** The notification *)

(** What [handleSuccessfulPayment] lets be observed: nothing; a job whose
    trigger failed; or a job whose trigger succeeded, the notification that
    goes with it when a channel is configured, and the ledger entry. *)
Lemma run_handleSuccessfulPayment_observed X session w :
  exists w' t,
    run X (Webhook.handleSuccessfulPayment session) w = (Returned tt, w', t)
    /\ (observe t = []
        \/ exists payload,
             let answer := answer_to X payload in
             if trigger_succeeds answer then
               exists notices,
                 observe t = Job payload answer :: notices ++ [Mark (id session)]
                 /\ notices_of X payload notices
             else observe t = [Job payload answer]).
Proof.
  destruct (decide (processed (id session) w)) as [Hold|Hnew].
  { destruct (run_handleSuccessfulPayment_processed X session w Hold)
      as (w' & t & Hrun & _ & Ho).
    exists w', t. split; [exact Hrun | left; exact Ho]. }
  destruct (run_handleSuccessfulPayment_new X session w Hnew)
    as (w1 & t1 & _ & Ho1 & Hrun).
  destruct (run_recover_order X session w1) as (r & t2 & Hrec & Ho2).
  destruct r as [[order|]|e].
  - destruct (Webhook.apolloUrl order) as [url|] eqn:Hurl.
    + destruct (run_fulfil_order_job X session order url w1 Hurl)
        as (r3 & w' & t3 & fileName & Hfulfil & H3).
      destruct (Hrun _ t2 w' t3 Hrec (ex_intro _ r3 Hfulfil)) as (t4 & Hhandle & Ho4).
      eexists w', _. split; [exact Hhandle |]. right.
      exists (job_for order url fileName). cbv zeta in *.
      destruct (trigger_succeeds _).
      * destruct H3 as (_ & notices & marker & Ho3 & Hn & _).
        exists notices. split; [| exact Hn].
        observe_parts. rewrite Ho1, Ho2, Ho3, Ho4, app_nil_r. reflexivity.
      * destruct H3 as (_ & Ho3).
        observe_parts. rewrite Ho1, Ho2, Ho3, Ho4. reflexivity.
    + destruct (run_fulfil_order X session order w1) as (r3 & w' & t3 & Hfulfil & H3).
      rewrite Hurl in H3. destruct H3 as [_ Ho3].
      destruct (Hrun _ t2 w' t3 Hrec (ex_intro _ r3 Hfulfil)) as (t4 & Hhandle & Ho4).
      eexists w', _. split; [exact Hhandle |]. left.
      observe_parts. rewrite Ho1, Ho2, Ho3, Ho4. reflexivity.
  - destruct (Hrun _ t2 w1 [] Hrec (conj eq_refl eq_refl)) as (t4 & Hhandle & Ho4).
    eexists w1, _. split; [exact Hhandle |]. left.
    observe_parts. rewrite Ho1, Ho2, Ho4. reflexivity.
  - destruct (Hrun _ t2 w1 [] Hrec (conj eq_refl eq_refl)) as (t4 & Hhandle & Ho4).
    eexists w1, _. split; [exact Hhandle |]. left.
    observe_parts. rewrite Ho1, Ho2, Ho4. reflexivity.
Qed.

(** X6. [handleSuccessfulPayment] sends at most one notification, only after a
    job whose trigger succeeded, and the notification repeats the address,
    the number of leads, the URL and the file name of that job. *)
Theorem notification_repeats_the_job X session w :
  let t := trace_of X (Webhook.handleSuccessfulPayment session) w in
  (length (notifications t) <= 1)%nat
  /\ forall mail,
       In mail (notifications t) ->
       exists payload,
         job_invocations t = [payload]
         /\ trigger_succeeds (answer_to X payload) = true
         /\ mail = mail_for payload (mail_timestamp mail).
Proof.
  cbv zeta. unfold trace_of.
  destruct (run_handleSuccessfulPayment_observed X session w)
    as (w' & t & -> & [Ho | (payload & H)]); cbn [snd].
  { rewrite notifications_observe, Ho. split; [cbn; lia | intros mail []]. }
  cbv zeta in H. destruct (trigger_succeeds (answer_to X payload)) eqn:Hok.
  - destruct H as (notices & Ho & Hn).
    rewrite notifications_observe, job_invocations_observe, Ho. cbn.
    rewrite !omap_app, (notices_of_no_job X payload notices Hn). cbn.
    rewrite app_nil_r. unfold notices_of in Hn.
    destruct (option_truthy _); [destruct Hn as [ts ->] | rewrite Hn]; cbn.
    + split; [lia |]. intros mail [<-|[]]. exists payload. auto.
    + split; [lia | intros mail []].
  - rewrite notifications_observe, H. split; [cbn; lia | intros mail []].
Qed.

(* ------------------------------------------------------------------ *)
(** ** The acknowledgement *)

#[local] Arguments Webhook.handleSuccessfulPayment : simpl never.

(** X7. Every event that passes the signature check is acknowledged with 200
    and [received: true], whatever its type and whatever happens to the
    order (a failed trigger included).  An event of another type than
    [checkout.session.completed] changes nothing: no storage operation, no
    network call. *)
Theorem verified_event_is_always_acknowledged X req event w :
  verified X req event ->
  exists w' t,
    run X (Webhook.handler req) w = (Returned acknowledged, w', t)
    /\ (type event <> js "checkout.session.completed" ->
        w' = w
        /\ Forall (fun e => is_storage e = false /\ is_network e = false) t).
Proof.
  intros Hverified.
  destruct (decide (type event = js "checkout.session.completed")) as [Htype|Htype].
  - destruct (run_handleSuccessfulPayment X (data_object event) w)
      as (w' & t & Hrun & _).
    destruct (run_handler_completed X req (data_object event) w w' t) as (t0 & H & _).
    + exists event. auto.
    + exact Hrun.
    + exists w', (t0 ++ t). split; [exact H | contradiction].
  - destruct Hverified as (Hpost & rawBody & Hbody & Hsig).
    unfold Webhook.handler, Webhook.read_body.
    rewrite Hpost, Hbody, bool_decide_eq_true_2 by reflexivity.
    cbn. rewrite Hsig. cbn.
    rewrite (bool_decide_eq_false_2 _ Htype).
    destruct (bool_decide (type event = js "payment_intent.succeeded"));
      [| destruct (bool_decide (type event = js "payment_intent.payment_failed"))];
      cbn; eexists _, _; (split; [reflexivity |]); intros _;
      (split; [reflexivity | repeat constructor]).
Qed.

Lemma verified_event_is_always_acknowledged_witness :
  let event := {| type := js "checkout.session.completed"; event_id := js "evt_1";
                  created := 1700000000; data_object := Scenario.paid_session |} in
  exists w' t,
    run (Scenario.platform Scenario.paid_session)
        (Webhook.handler Scenario.delivery) Scenario.empty_world
      = (Returned acknowledged, w', t)
    /\ (type event <> js "checkout.session.completed" ->
        w' = Scenario.empty_world
        /\ Forall (fun e => is_storage e = false /\ is_network e = false) t).
Proof.
  apply (verified_event_is_always_acknowledged
           (Scenario.platform Scenario.paid_session) Scenario.delivery).
  split; [reflexivity |].
  exists (utf8_encode (js "{}")). split; reflexivity.
Defined.

(* ------------------------------------------------------------------ *)
(** ** The fallback on the metadata *)

#[local] Arguments Webhook.recover_order : simpl never.
#[local] Arguments Webhook.fulfil_order : simpl never.

Lemma reconstruct_from_missing md n : forall i acc j,
  (j < n)%nat ->
  option_truthy (md !! chunkKey (i + j)) = None ->
  exists e, reconstruct_from md i n acc = Thrown e.
Proof.
  induction n as [|n IH]; intros i acc j Hj Hmiss; [lia |].
  cbn [reconstruct_from]. unfold option_truthy in *.
  destruct j as [|j].
  - rewrite Nat.add_0_r in Hmiss.
    destruct (md !! chunkKey i) as [chunk|]; [| eauto].
    destruct (truthy chunk); [discriminate | eauto].
  - destruct (md !! chunkKey i) as [chunk|]; [| eauto].
    destruct (truthy chunk); [| eauto].
    apply (IH (S i) _ j); [lia |].
    replace (S i + j)%nat with (i + S j)%nat by lia. exact Hmiss.
Qed.

Lemma decode_chunks_missing md count i :
  (i < iterations (parseInt count))%nat ->
  option_truthy (md !! chunkKey i) = None ->
  exists e, decode_chunks md count = Thrown e.
Proof.
  intros Hi Hmiss. unfold decode_chunks.
  destruct (reconstruct_from_missing md _ 0%nat [] i Hi Hmiss) as [e ->]. eauto.
Qed.

(** The order the fallback rebuilds, by what the chunks give. *)
Lemma run_order_from_metadata_url X session md leads email w :
  metadata session = Some md ->
  option_truthy (md !! js "leads") = Some leads ->
  option_truthy (md !! js "email") = Some email ->
  exists t,
    run X (Webhook.order_from_metadata session) w
      = (Returned
           (Some {| Webhook.apolloUrl :=
                      match option_truthy (md !! js "urlChunkCount") with
                      | Some count =>
                          match decode_chunks md count with
                          | Returned url => Some url
                          | Thrown _ => md !! js "apolloUrl"
                          end
                      | None => md !! js "apolloUrl"
                      end;
                    Webhook.email := email;
                    Webhook.leads := VStr leads;
                    Webhook.cleanOutput := Webhook.metadata_value md "cleanOutput" |}),
         w, t)
    /\ observe t = [].
Proof.
  intros Hmd Hleads Hemail. unfold Webhook.order_from_metadata.
  rewrite Hmd, Hleads, Hemail.
  destruct (option_truthy (md !! js "urlChunkCount")) as [count|]; cbn.
  - destruct (decode_chunks md count); cbn; eexists; split; reflexivity.
  - eexists; split; reflexivity.
Qed.

#[local] Arguments Webhook.order_from_metadata : simpl never.

Lemma run_recover_order_missing X session w r t2 :
  pending_orders w !! id session = None ->
  run X (Webhook.order_from_metadata session) w = (r, w, t2) ->
  observe t2 = [] ->
  exists t, run X (Webhook.recover_order session) w = (r, w, t) /\ observe t = [].
Proof.
  intros Hmiss Hmeta Ho2. unfold Webhook.recover_order. unfold_bind. run_next.
  destruct (run_retrieveApolloUrl X (id session) w) as (t1 & -> & Ho1).
  rewrite Hmiss. cbn. rewrite Hmeta.
  destruct r; eexists; (split; [reflexivity |]);
    observe_parts; rewrite Ho1, Ho2; reflexivity.
Qed.

(** The handler on a session that only the metadata describe. *)
Lemma run_handler_fallback X req session md leads email w :
  payment_completed X req session ->
  ~ processed (id session) w ->
  pending_orders w !! id session = None ->
  metadata session = Some md ->
  option_truthy (md !! js "leads") = Some leads ->
  option_truthy (md !! js "email") = Some email ->
  forall url,
    match option_truthy (md !! js "urlChunkCount") with
    | Some count =>
        match decode_chunks md count with
        | Returned url => Some url
        | Thrown _ => md !! js "apolloUrl"
        end
    | None => md !! js "apolloUrl"
    end = Some url ->
    exists w' t fileName,
      run X (Webhook.handler req) w = (Returned acknowledged, w', t)
      /\ job_invocations t
         = [{| job_url := url;
               job_totalRecords := parseInt leads;
               job_fileName := fileName;
               job_email := email;
               job_cleanOutput :=
                 strict_eq_str (Webhook.metadata_value md "cleanOutput") (js "true") |}].
Proof.
  intros Hevent Hnew Hmiss Hmd Hleads Hemail url Hurl.
  set (order := {| Webhook.apolloUrl := Some url; Webhook.email := email;
                   Webhook.leads := VStr leads;
                   Webhook.cleanOutput := Webhook.metadata_value md "cleanOutput" |}).
  destruct (run_handler_order X req session order url w Hevent Hnew)
    as (w' & t & fileName & Hrun & Hjobs & _).
  { intros w1 [Hp1 _].
    destruct (run_order_from_metadata_url X session md leads email w1 Hmd Hleads Hemail)
      as (t2 & Hmeta & Ho2).
    rewrite Hurl in Hmeta. fold order in Hmeta.
    apply (run_recover_order_missing X session w1 _ t2); [| exact Hmeta | exact Ho2].
    rewrite Hp1. exact Hmiss. }
  { reflexivity. }
  exists w', t, fileName. split; [exact Hrun | exact Hjobs].
Qed.

(** X8. When the chunk count is missing from the metadata, or a chunk below
    the count is missing or empty, the order is not refused: the job is
    invoked with the [apolloUrl] field of the metadata as it is (the copy
    the checkout cut at 450 characters). *)
Theorem incomplete_envelope_uses_truncated_url
    X req session md leads email truncated w :
  payment_completed X req session ->
  ~ processed (id session) w ->
  pending_orders w !! id session = None ->
  metadata session = Some md ->
  option_truthy (md !! js "leads") = Some leads ->
  option_truthy (md !! js "email") = Some email ->
  md !! js "apolloUrl" = Some truncated ->
  option_truthy (md !! js "urlChunkCount") = None
  \/ (exists count i,
        option_truthy (md !! js "urlChunkCount") = Some count
        /\ (i < iterations (parseInt count))%nat
        /\ option_truthy (md !! chunkKey i) = None) ->
  exists w' t payload,
    run X (Webhook.handler req) w = (Returned acknowledged, w', t)
    /\ job_invocations t = [payload]
    /\ job_url payload = truncated.
Proof.
  intros Hevent Hnew Hmiss Hmd Hleads Hemail Htruncated Hincomplete.
  destruct (run_handler_fallback X req session md leads email w
              Hevent Hnew Hmiss Hmd Hleads Hemail truncated)
    as (w' & t & fileName & Hrun & Hjobs).
  { destruct Hincomplete as [-> | (count & i & -> & Hi & Hchunk)]; [exact Htruncated |].
    destruct (decode_chunks_missing md count i Hi Hchunk) as [e ->]. exact Htruncated. }
  eexists w', t, _. split; [exact Hrun |]. split; [exact Hjobs | reflexivity].
Qed.

Lemma incomplete_envelope_uses_truncated_url_witness :
  exists w' t payload,
    run (Scenario.platform (Scenario.session Cases.envelope_without_count))
        (Webhook.handler Scenario.delivery) Scenario.empty_world
      = (Returned acknowledged, w', t)
    /\ job_invocations t = [payload]
    /\ job_url payload = Scenario.url.
Proof.
  apply (incomplete_envelope_uses_truncated_url
           (Scenario.platform (Scenario.session Cases.envelope_without_count))
           Scenario.delivery (Scenario.session Cases.envelope_without_count)
           Cases.envelope_without_count (js "1000") Scenario.customer Scenario.url
           Scenario.empty_world).
  - exact (session_is_delivered _).
  - intros [m Hm]. vm_compute in Hm. discriminate Hm.
  - vm_compute. exact eq_refl.
  - reflexivity.
  - vm_compute. exact eq_refl.
  - vm_compute. exact eq_refl.
  - vm_compute. exact eq_refl.
  - left. vm_compute. exact eq_refl.
Defined.

(** X9. When the chunk count is present but [parseInt] reads it as NaN, zero
    or a negative number, the reconstruction loop does not run and the job
    is invoked with an empty URL: the truncated copy is not used. *)
Theorem unusable_chunk_count_gives_empty_url
    X req session md leads email count w :
  payment_completed X req session ->
  ~ processed (id session) w ->
  pending_orders w !! id session = None ->
  metadata session = Some md ->
  option_truthy (md !! js "leads") = Some leads ->
  option_truthy (md !! js "email") = Some email ->
  option_truthy (md !! js "urlChunkCount") = Some count ->
  iterations (parseInt count) = 0%nat ->
  exists w' t payload,
    run X (Webhook.handler req) w = (Returned acknowledged, w', t)
    /\ job_invocations t = [payload]
    /\ job_url payload = [].
Proof.
  intros Hevent Hnew Hmiss Hmd Hleads Hemail Hcount Hzero.
  destruct (run_handler_fallback X req session md leads email w
              Hevent Hnew Hmiss Hmd Hleads Hemail [])
    as (w' & t & fileName & Hrun & Hjobs).
  { rewrite Hcount. unfold decode_chunks. rewrite Hzero. reflexivity. }
  eexists w', t, _. split; [exact Hrun |]. split; [exact Hjobs | reflexivity].
Qed.

Lemma unusable_chunk_count_gives_empty_url_witness :
  exists w' t payload,
    run (Scenario.platform (Scenario.session Cases.envelope_with_zero_count))
        (Webhook.handler Scenario.delivery) Scenario.empty_world
      = (Returned acknowledged, w', t)
    /\ job_invocations t = [payload]
    /\ job_url payload = [].
Proof.
  apply (unusable_chunk_count_gives_empty_url
           (Scenario.platform (Scenario.session Cases.envelope_with_zero_count))
           Scenario.delivery (Scenario.session Cases.envelope_with_zero_count)
           Cases.envelope_with_zero_count (js "1000") Scenario.customer (js "0")
           Scenario.empty_world).
  - exact (session_is_delivered _).
  - intros [m Hm]. vm_compute in Hm. discriminate Hm.
  - vm_compute. exact eq_refl.
  - reflexivity.
  - vm_compute. exact eq_refl.
  - vm_compute. exact eq_refl.
  - vm_compute. exact eq_refl.
  - vm_compute. exact eq_refl.
Defined.

(* ------------------------------------------------------------------ *)
(** ** From the checkout to the actor *)

Lemma build_metadata_field leads apolloUrl email cleanOutput timestamp orderId key :
  (forall i, key <> chunkKey i) ->
  Checkout.build_metadata leads apolloUrl email cleanOutput timestamp orderId !! key
  = Checkout.base_metadata leads apolloUrl email cleanOutput timestamp orderId
      (length (urlChunks (base64_encode (utf8_encode apolloUrl)))) !! key.
Proof. intros Hkey. unfold Checkout.build_metadata. apply add_chunks_other, Hkey. Qed.

Lemma build_metadata_leads leads apolloUrl email cleanOutput timestamp orderId :
  Checkout.build_metadata leads apolloUrl email cleanOutput timestamp orderId
    !! js "leads" = Some (number_toString leads).
Proof.
  rewrite build_metadata_field by (intros i; unfold chunkKey; vm_compute; discriminate).
  unfold Checkout.base_metadata.
  rewrite !lookup_insert_ne by (vm_compute; discriminate).
  apply lookup_insert_eq.
Qed.

Lemma build_metadata_email leads apolloUrl email cleanOutput timestamp orderId :
  Checkout.build_metadata leads apolloUrl email cleanOutput timestamp orderId
    !! js "email" = Some email.
Proof.
  rewrite build_metadata_field by (intros i; unfold chunkKey; vm_compute; discriminate).
  unfold Checkout.base_metadata.
  rewrite !lookup_insert_ne by (vm_compute; discriminate).
  apply lookup_insert_eq.
Qed.

Lemma build_metadata_decodes leads apolloUrl email cleanOutput timestamp orderId :
  Forall code_unit apolloUrl ->
  well_formed apolloUrl = true ->
  exists count,
    option_truthy
      (Checkout.build_metadata leads apolloUrl email cleanOutput timestamp orderId
         !! js "urlChunkCount") = Some count
    /\ decode_chunks
         (Checkout.build_metadata leads apolloUrl email cleanOutput timestamp orderId)
         count
       = Returned apolloUrl.
Proof.
  intros Hunits Hwf.
  set (chunks := urlChunks (base64_encode (utf8_encode apolloUrl))).
  exists (number_toString (Z.of_nat (length chunks))). split.
  - rewrite Claims.build_metadata_count. fold chunks. unfold option_truthy.
    destruct (number_toString_digits (Z.of_nat (length chunks))) as [_ Hne]; [lia |].
    destruct (number_toString (Z.of_nat (length chunks))); [contradiction | reflexivity].
  - unfold decode_chunks. rewrite parseInt_number_toString by lia.
    cbn [iterations]. rewrite Nat2Z.id.
    rewrite (reconstruct_from_chunks _ chunks 0%nat []).
    + cbn [app]. unfold chunks. rewrite urlChunks_concat.
      rewrite base64_decode_encode
        by (apply (utf8_encode_bytes_bounded (length apolloUrl)); [lia | assumption]).
      rewrite utf8_decode_encode by assumption. reflexivity.
    + intros j Hj. cbn [Nat.add]. apply Claims.build_metadata_chunk. exact Hj.
    + eapply Forall_impl; [apply split_from_chunks |]. intros c [Hc _]. exact Hc.
Qed.

(** The handler on a session that carries the metadata the checkout built
    for an order, the staging store holding nothing for it. *)
Lemma run_handler_checkout_metadata
    X req session (n : Z) (u e : jsstring) (cleanOutput : value)
    (timestamp orderId : jsstring) w :
  payment_completed X req session ->
  ~ processed (id session) w ->
  pending_orders w !! id session = None ->
  metadata session
    = Some (Checkout.build_metadata n u e cleanOutput timestamp orderId) ->
  0 <= n ->
  truthy e = true ->
  Forall code_unit u ->
  well_formed u = true ->
  exists w' t fileName,
    run X (Webhook.handler req) w = (Returned acknowledged, w', t)
    /\ job_invocations t
       = [{| job_url := u;
             job_totalRecords := Some n;
             job_fileName := fileName;
             job_email := e;
             job_cleanOutput := truthy_value cleanOutput |}].
Proof.
  intros Hevent Hnew Hmiss Hmd Hn He Hunits Hwf.
  set (md := Checkout.build_metadata n u e cleanOutput timestamp orderId) in *.
  destruct (build_metadata_decodes n u e cleanOutput timestamp orderId Hunits Hwf)
    as (count & Hcount & Hdecode).
  fold md in Hcount, Hdecode.
  destruct (run_handler_fallback X req session md (number_toString n) e w
              Hevent Hnew Hmiss Hmd) with (url := u)
    as (w' & t & fileName & Hrun & Hjobs).
  - unfold md. rewrite build_metadata_leads. unfold option_truthy.
    destruct (number_toString_digits n Hn) as [_ Hne].
    destruct (number_toString n); [contradiction | reflexivity].
  - unfold md. rewrite build_metadata_email. unfold option_truthy.
    rewrite He. reflexivity.
  - rewrite Hcount, Hdecode. reflexivity.
  - exists w', t, fileName. split; [exact Hrun |].
    rewrite Hjobs, parseInt_number_toString by exact Hn.
    unfold md. rewrite Claims.metadata_clean_output_flag_is_kept. reflexivity.
Qed.

(** X10. The staging store is gone (another instance serves the webhook, or
    /tmp was cleared) and the session carries the metadata the checkout
    built for an order: the job is invoked once with the whole URL of the
    order (without unpaired surrogates) and its address, and with
    [cleanOutput] set exactly when the customer's value was truthy. *)
Theorem checkout_metadata_restore_the_order
    X req session (n : Z) (u e : jsstring) (cleanOutput : value)
    (timestamp orderId : jsstring) w :
  payment_completed X req session ->
  ~ processed (id session) w ->
  pending_orders w !! id session = None ->
  metadata session
    = Some (Checkout.build_metadata n u e cleanOutput timestamp orderId) ->
  0 <= n ->
  truthy e = true ->
  Forall code_unit u ->
  well_formed u = true ->
  exists w' t payload,
    run X (Webhook.handler req) w = (Returned acknowledged, w', t)
    /\ job_invocations t = [payload]
    /\ job_url payload = u
    /\ job_email payload = e
    /\ job_cleanOutput payload = truthy_value cleanOutput.
Proof.
  intros Hevent Hnew Hmiss Hmd Hn He Hunits Hwf.
  destruct (run_handler_checkout_metadata X req session n u e cleanOutput
              timestamp orderId w Hevent Hnew Hmiss Hmd Hn He Hunits Hwf)
    as (w' & t & fileName & Hrun & Hjobs).
  eexists w', t, _. split; [exact Hrun |]. split; [exact Hjobs |].
  repeat split.
Qed.

Lemma checkout_metadata_restore_the_order_witness :
  exists w' t payload,
    run (Scenario.platform Scenario.paid_session)
        (Webhook.handler Scenario.delivery) Scenario.empty_world
      = (Returned acknowledged, w', t)
    /\ job_invocations t = [payload]
    /\ job_url payload = Scenario.url
    /\ job_email payload = Scenario.customer
    /\ job_cleanOutput payload = truthy_value (VBool true).
Proof.
  apply (checkout_metadata_restore_the_order
           (Scenario.platform Scenario.paid_session) Scenario.delivery
           Scenario.paid_session 1000 Scenario.url Scenario.customer (VBool true)
           (js "2023-11-14T22:13:20.000Z") (js "apollo_1700000000000_k3j2h1g0f")
           Scenario.empty_world).
  - exact (session_is_delivered _).
  - intros [m Hm]. vm_compute in Hm. discriminate Hm.
  - vm_compute. exact eq_refl.
  - reflexivity.
  - lia.
  - reflexivity.
  - apply Claims.js_code_units.
  - vm_compute. exact eq_refl.
Defined.

(** X29. A whole number of leads passes through the metadata unchanged:
    when the staging store is gone and the session carries the metadata
    the checkout built for an order of [n] leads, [n] a whole number with
    0 <= n < 2^53 (the whole numbers a JavaScript number holds exactly),
    the job is invoked with [totalRecords] equal to [n]. *)
Theorem metadata_whole_leads_are_passed_on
    X req session (n : Z) (u e : jsstring) (cleanOutput : value)
    (timestamp orderId : jsstring) w :
  payment_completed X req session ->
  ~ processed (id session) w ->
  pending_orders w !! id session = None ->
  metadata session
    = Some (Checkout.build_metadata n u e cleanOutput timestamp orderId) ->
  0 <= n < 2 ^ 53 ->
  truthy e = true ->
  Forall code_unit u ->
  well_formed u = true ->
  exists w' t payload,
    run X (Webhook.handler req) w = (Returned acknowledged, w', t)
    /\ job_invocations t = [payload]
    /\ job_totalRecords payload = Some n.
Proof.
  intros Hevent Hnew Hmiss Hmd [Hn _] He Hunits Hwf.
  destruct (run_handler_checkout_metadata X req session n u e cleanOutput
              timestamp orderId w Hevent Hnew Hmiss Hmd Hn He Hunits Hwf)
    as (w' & t & fileName & Hrun & Hjobs).
  eexists w', t, _. split; [exact Hrun |]. split; [exact Hjobs | reflexivity].
Qed.

Lemma metadata_whole_leads_are_passed_on_witness :
  exists w' t payload,
    run (Scenario.platform Scenario.paid_session)
        (Webhook.handler Scenario.delivery) Scenario.empty_world
      = (Returned acknowledged, w', t)
    /\ job_invocations t = [payload]
    /\ job_totalRecords payload = Some 1000.
Proof.
  apply (metadata_whole_leads_are_passed_on
           (Scenario.platform Scenario.paid_session) Scenario.delivery
           Scenario.paid_session 1000 Scenario.url Scenario.customer (VBool true)
           (js "2023-11-14T22:13:20.000Z") (js "apollo_1700000000000_k3j2h1g0f")
           Scenario.empty_world).
  - exact (session_is_delivered _).
  - intros [m Hm]. vm_compute in Hm. discriminate Hm.
  - vm_compute. exact eq_refl.
  - reflexivity.
  - vm_compute. split; [discriminate | reflexivity].
  - reflexivity.
  - apply Claims.js_code_units.
  - vm_compute. exact eq_refl.
Defined.

(** X11. The checkout has answered 200 for a session, and a verified
    payment-completed event for that session is handled on the state the
    checkout left (the same instance, with the staged order still in
    /tmp) while the ledger does not hold the session: the job is invoked
    once, with the URL of the checkout request whole and unchanged
    (whatever its length and its characters) and with its address. *)
Theorem paid_order_reaches_the_actor
    X1 creq w0 surl w t0 X2 req session :
  run X1 (Checkout.handler creq) w0
    = (Returned (json_response 200
                   (VObj [(js "url", VStr surl);
                          (js "sessionId", VStr (id session))])), w, t0) ->
  ~ processed (id session) w0 ->
  payment_completed X2 req session ->
  exists w' t payload,
    run X2 (Webhook.handler req) w = (Returned acknowledged, w', t)
    /\ job_invocations t = [payload]
    /\ Checkout.apolloUrl (Checkout.body creq) = Some (job_url payload)
    /\ Checkout.email (Checkout.body creq) = Some (job_email payload).
Proof.
  intros Hcheckout Hnew Hevent.
  destruct (CheckoutProperties.run_checkout_200 X1 creq w0 _ w t0 Hcheckout eq_refl)
    as (n & u & e & sid & surl' & stored & Hleads & Hurl & Hemail & Hresp
        & Hp & Hsu & Hse & Hsn & _ & Hl).
  injection Hresp as _ Hsid. 
  destruct (run_handler_staged X2 req session stored w Hevent)
    as (w' & t & fileName & Hrun & Hjobs & _).
  { unfold processed in *. rewrite Hl. exact Hnew. }
  { rewrite Hp, Hsid. apply lookup_insert_eq. }
  eexists w', t, _. split; [exact Hrun |]. split; [exact Hjobs |].
  cbn. rewrite Hsu, Hse. split; [exact Hurl | exact Hemail].
Qed.

Lemma paid_order_reaches_the_actor_witness :
  let X := Scenario.platform Scenario.paid_session in
  let creq := Scenario.checkout_request (VBool true) in
  exists w' t payload,
    run X (Webhook.handler Scenario.delivery)
      (world_after X (Checkout.handler creq) Scenario.empty_world)
      = (Returned acknowledged, w', t)
    /\ job_invocations t = [payload]
    /\ Checkout.apolloUrl (Checkout.body creq) = Some (job_url payload)
    /\ Checkout.email (Checkout.body creq) = Some (job_email payload).
Proof.
  apply (paid_order_reaches_the_actor
           (Scenario.platform Scenario.paid_session)
           (Scenario.checkout_request (VBool true)) Scenario.empty_world
           (js "https://checkout.stripe.com/c/pay/cs_test_a1B2")
           (world_after (Scenario.platform Scenario.paid_session)
              (Checkout.handler (Scenario.checkout_request (VBool true)))
              Scenario.empty_world)
           (trace_of (Scenario.platform Scenario.paid_session)
              (Checkout.handler (Scenario.checkout_request (VBool true)))
              Scenario.empty_world)
           (Scenario.platform Scenario.paid_session) Scenario.delivery
           Scenario.paid_session).
  - vm_compute. exact eq_refl.
  - intros [m Hm]. vm_compute in Hm. discriminate Hm.
  - exact (session_is_delivered _).
Defined.

End WebhookProperties.

(* ================================================================== *)
(** * Properties of the helpers of the webhook                          *)
(* ================================================================== *)

Module HelperProperties.
Import JsStringFacts CodecFacts WebhookFacts.

#[local] Arguments js : simpl never.
#[local] Arguments option_truthy : simpl never.
#[local] Arguments Webhook.run_id : simpl never.

(* ------------------------------------------------------------------ *)
(** ** The ledger *)

(** X12. [markSessionProcessed] returns normally from every world (it creates
    the directory when it is missing) and leaves the staged orders alone;
    afterwards [isSessionProcessed] says yes for that session, and for any
    other session what it said before. *)
Theorem marked_session_is_reported_processed X X' sid sid' w :
  exists w1 t1 w2 t2,
    run X (Webhook.markSessionProcessed sid) w = (Returned tt, w1, t1)
    /\ pending_orders w1 = pending_orders w
    /\ run X' (Webhook.isSessionProcessed sid') w1
       = (Returned (if decide (sid' = sid) then true
                    else bool_decide (processed sid' w)), w2, t2).
Proof.
  destruct (run_markSessionProcessed X sid w) as (m & w1 & t1 & Hrun1 & Hp & Hl & _).
  destruct (run_isSessionProcessed X' sid' w1) as (w2 & t2 & Hrun2 & _).
  exists w1, t1, w2, t2. split; [exact Hrun1 |]. split; [exact Hp |].
  rewrite Hrun2. do 3 f_equal. unfold processed. rewrite Hl.
  destruct (decide (sid' = sid)) as [->|Hne].
  - rewrite lookup_insert_eq. apply bool_decide_eq_true_2. eauto.
  - rewrite lookup_insert_ne by congruence. reflexivity.
Qed.

(* ------------------------------------------------------------------ *)
(** ** The staging store *)

(** X13. What [storeApolloUrl] writes, [retrieveApolloUrl] reads back: the
    record of that session with the URL, the address, the number of leads
    and the flag as given; the records of the other sessions and the ledger
    are not touched. *)
Theorem stored_order_is_retrieved
    X X' sid sid' (url email : jsstring) (leads : Z) (cleanOutput : value) w :
  exists timestamp w1 t1 t2,
    run X (Checkout.storeApolloUrl sid url email leads cleanOutput) w
      = (Returned tt, w1, t1)
    /\ ledger w1 = ledger w
    /\ run X' (Webhook.retrieveApolloUrl sid') w1
       = (Returned
            (if decide (sid' = sid)
             then Some {| so_apolloUrl := url; so_email := email;
                          so_leads := leads; so_cleanOutput := cleanOutput;
                          so_timestamp := timestamp |}
             else pending_orders w !! sid'), w1, t2).
Proof.
  destruct (CheckoutProperties.run_storeApolloUrl X sid url email leads cleanOutput w)
    as (ts & w1 & t1 & Hrun1 & Hp & Hl & _).
  destruct (run_retrieveApolloUrl X' sid' w1) as (t2 & Hrun2 & _).
  exists ts, w1, t1, t2. split; [exact Hrun1 |]. split; [exact Hl |].
  rewrite Hrun2, Hp. do 3 f_equal.
  destruct (decide (sid' = sid)) as [->|Hne].
  - apply lookup_insert_eq.
  - apply lookup_insert_ne. congruence.
Qed.

(** X14. [cleanupApolloUrl] returns normally from every world (also when
    nothing is staged for the session, or the directory is missing);
    afterwards [retrieveApolloUrl] finds nothing for that session, and for
    any other session what it found before.  The ledger is not touched. *)
Theorem cleaned_up_order_is_gone X X' sid sid' w :
  exists w1 t1 t2,
    run X (Webhook.cleanupApolloUrl sid) w = (Returned tt, w1, t1)
    /\ ledger w1 = ledger w
    /\ run X' (Webhook.retrieveApolloUrl sid') w1
       = (Returned (if decide (sid' = sid) then None else pending_orders w !! sid'),
          w1, t2).
Proof.
  destruct (run_cleanupApolloUrl X sid w) as (w1 & t1 & Hrun1 & Hp & Hl & _).
  destruct (run_retrieveApolloUrl X' sid' w1) as (t2 & Hrun2 & _).
  exists w1, t1, t2. split; [exact Hrun1 |]. split; [exact Hl |].
  rewrite Hrun2, Hp. do 3 f_equal.
  destruct (decide (sid' = sid)) as [->|Hne].
  - apply lookup_delete_eq.
  - apply lookup_delete_ne. congruence.
Qed.

(* ------------------------------------------------------------------ *)
(** ** The file name *)

Lemma charAt_characters i :
  0 <= i < 36 ->
  exists c, Webhook.charAt Webhook.characters i = [c]
            /\ In c Webhook.characters.
Proof.
  intros Hi. unfold Webhook.charAt. destruct (Z.ltb_spec i 0); [lia |].
  destruct (Webhook.characters !! Z.to_nat i) as [c|] eqn:Hc.
  - exists c. split; [reflexivity |]. apply list_elem_of_In.
    eapply list_elem_of_lookup_2. exact Hc.
  - apply lookup_ge_None in Hc. vm_compute length in Hc. lia.
Qed.

Lemma run_random_characters X count : forall result w,
  (forall k n, 0 < n -> 0 <= floor_times (math_random X k) n < n) ->
  exists suffix t,
    run X (Webhook.random_characters count result) w
      = (Returned (result ++ suffix),
         {| temp_dir := temp_dir w; processed_dir := processed_dir w;
            draws := (count + draws w)%nat |}, t)
    /\ length suffix = count
    /\ Forall (fun c => In c Webhook.characters) suffix.
Proof.
  induction count as [|count IH]; intros result w Hrandom.
  - exists [], []. rewrite app_nil_r. destruct w. repeat split. constructor.
  - cbn [Webhook.random_characters]. rewrite run_bind. cbn [perform run exec].
    destruct (charAt_characters
                (floor_times (math_random X (draws w))
                   (Z.of_nat (length Webhook.characters))))
      as (c & Hc & Hin).
    { apply Hrandom. vm_compute. reflexivity. }
    rewrite Hc.
    destruct (IH (result ++ [c]) (next_draw w) Hrandom) as (suffix & t & Hrun & Hlen & Hall).
    rewrite Hrun.
    exists (c :: suffix), (Ev MathRandom (math_random X (draws w)) :: t).
    rewrite <- app_assoc. cbn [app next_draw temp_dir processed_dir draws].
    replace (count + S (draws w))%nat with (S count + draws w)%nat by lia.
    split; [reflexivity |]. split; [cbn; lia |]. constructor; assumption.
Qed.

(** X15. When [Math.floor(Math.random() * n)] lies in [0, n), as it does for
    the numbers of [Math.random], the file name has exactly six characters,
    each an upper-case letter or a digit; the stores are not touched
    and six random numbers are drawn. *)
Theorem random_file_name_has_six_characters X w :
  (forall k n, 0 < n -> 0 <= floor_times (math_random X k) n < n) ->
  exists fileName w' t,
    run X Webhook.generateRandomFileName w = (Returned fileName, w', t)
    /\ length fileName = 6%nat
    /\ Forall (fun c => 65 <= c <= 90 \/ 48 <= c <= 57) fileName
    /\ same_stores w w'
    /\ draws w' = (6 + draws w)%nat.
Proof.
  intros Hrandom.
  destruct (run_random_characters X 6 [] w Hrandom) as (suffix & t & Hrun & Hlen & Hall).
  eexists suffix, _, t. split; [exact Hrun |]. split; [exact Hlen |].
  split; [| split; [split; reflexivity | reflexivity]].
  eapply Forall_impl; [exact Hall |]. intros c Hin.
  vm_compute in Hin. intuition lia.
Qed.

Lemma random_file_name_has_six_characters_witness :
  exists fileName w' t,
    run (Scenario.platform Scenario.paid_session) Webhook.generateRandomFileName
        Scenario.empty_world
      = (Returned fileName, w', t)
    /\ length fileName = 6%nat
    /\ Forall (fun c => 65 <= c <= 90 \/ 48 <= c <= 57) fileName
    /\ same_stores Scenario.empty_world w'
    /\ draws w' = (6 + draws Scenario.empty_world)%nat.
Proof.
  apply (random_file_name_has_six_characters
           (Scenario.platform Scenario.paid_session) Scenario.empty_world).
  intros k n Hn. simpl. apply Z.mod_pos_bound. lia.
Defined.

(* ------------------------------------------------------------------ *)
(** ** The two requests *)

(** X16. [triggerApolloScraper] sends exactly one request, to the actor and
    with the token of the environment, carrying the payload as given, and
    leaves the world as it is.  It returns only when the answer is ok and
    its body is JSON other than null; on a rejected request, a status that
    is not ok or a body that is not JSON it throws. *)
Theorem trigger_returns_only_on_a_json_answer X payload w :
  exists r t,
    run X (Webhook.triggerApolloScraper payload) w = (r, w, t)
    /\ List.filter is_network t
       = [Ev (FetchApify (env X !! "APOLLO_ACTOR_ID") (env X !! "APIFY_TOKEN") payload)
             (answer_to X payload)]
    /\ match answer_to X payload with
       | FetchResponse true _ (Some result) =>
           match result with
           | VNull | VUndefined => exists e, r = Thrown e
           | _ => exists runId, r = Returned runId
           end
       | _ => exists e, r = Thrown e
       end.
Proof.
  unfold Webhook.triggerApolloScraper, answer_to. cbn.
  destruct (apify X _ _ payload) as [|[|] status [result|]]; cbn;
    try (eexists _, _; (split; [reflexivity |]); split; [reflexivity | eauto]).
  destruct result; cbn;
    try (eexists _, _; (split; [reflexivity |]); split; [reflexivity | eauto]).
  all: match goal with
       | |- context [Webhook.run_id ?v] =>
           assert (Hid : exists runId, Webhook.run_id v = Returned runId)
             by (unfold Webhook.run_id; cbn; repeat case_match; eauto);
           destruct Hid as [runId ->]
       end.
  all: cbn; eexists _, _; (split; [reflexivity |]); split; [reflexivity | eauto].
Qed.

(** X17. [sendEmailWebhook] always returns normally, whatever the channel
    answers (a rejected request included), and leaves the stores as they
    are.  When [EMAIL_WEBHOOK_URL] is set and not empty it sends exactly
    one request, to that URL, with the address, the count, the URL and the
    file name as given; when it is not, it sends nothing. *)
Theorem notification_failure_is_swallowed
    X (email : jsstring) (leadCount : option Z) (apolloUrl fileName : jsstring) w :
  exists w' t,
    run X (Webhook.sendEmailWebhook email leadCount apolloUrl fileName) w
      = (Returned tt, w', t)
    /\ same_stores w w'
    /\ match option_truthy (env X !! "EMAIL_WEBHOOK_URL") with
       | Some target =>
           exists timestamp,
             let mail :=
               {| mail_email := email; mail_leadCount := leadCount;
                  mail_apolloUrl := apolloUrl; mail_timestamp := timestamp;
                  mail_fileName := fileName |} in
             List.filter is_network t
             = [Ev (FetchEmailWebhook target mail) (email_webhook X target mail)]
       | None => List.filter is_network t = []
       end.
Proof.
  unfold Webhook.sendEmailWebhook. cbn.
  destruct (option_truthy (env X !! "EMAIL_WEBHOOK_URL")) as [url|]; cbn.
  - destruct (email_webhook X url _) as [|[|] status body] eqn:Hanswer; cbn;
      eexists _, _; (split; [reflexivity |]); (split; [split; reflexivity |]);
      eexists; cbv zeta; rewrite Hanswer; reflexivity.
  - eexists _, _. split; [reflexivity |]. split; [split |]; reflexivity.
Qed.

End HelperProperties.

(* ================================================================== *)
(** * Properties of the configuration endpoint                         *)
(* ================================================================== *)

Module ConfigProperties.
Import WebhookFacts.

#[local] Arguments js : simpl never.
#[local] Arguments option_truthy : simpl never.
#[local] Arguments Config.config_object : simpl never.

(** X18. The configuration endpoint always answers, with the three CORS
    headers, and leaves the world as it is: it performs no storage
    operation and no network call.  OPTIONS gets 200 without a body, GET
    gets 200 with the configuration object made of the three variables
    [APIFY_TOKEN], [APOLLO_ACTOR_ID] and [EMAIL_WEBHOOK_URL], any other
    method 405 with the error "Method not allowed".  Its answer and its
    trace depend on these three environment variables only: two
    deployments that agree on them answer alike, whatever else their
    environments hold (the Stripe keys included). *)
Theorem config_depends_on_three_variables X X' req w :
  env X !! "APIFY_TOKEN" = env X' !! "APIFY_TOKEN" ->
  env X !! "APOLLO_ACTOR_ID" = env X' !! "APOLLO_ACTOR_ID" ->
  env X !! "EMAIL_WEBHOOK_URL" = env X' !! "EMAIL_WEBHOOK_URL" ->
  run X (Config.handler req) w = run X' (Config.handler req) w
  /\ exists response t,
       run X (Config.handler req) w = (Returned response, w, t)
       /\ res_headers response = Config.cors_headers
       /\ Forall (fun e => is_storage e = false /\ is_network e = false) t
       /\ res_status response
          = (if bool_decide (Config.method req = js "OPTIONS") then 200
             else if bool_decide (Config.method req = js "GET") then 200
             else 405)
       /\ res_body response
          = (if bool_decide (Config.method req = js "OPTIONS") then None
             else if bool_decide (Config.method req = js "GET")
             then Some (Config.config_object (env X !! "APIFY_TOKEN")
                          (env X !! "APOLLO_ACTOR_ID")
                          (env X !! "EMAIL_WEBHOOK_URL"))
             else Some (error_body (js "Method not allowed"))).
Proof.
  intros Htoken Hactor Hmail. unfold Config.handler. cbn.
  destruct (bool_decide (Config.method req = js "OPTIONS")) eqn:Hoptions;
    [| destruct (bool_decide (Config.method req = js "GET")) eqn:Hget]; cbn.
  all: rewrite <- ?Htoken, <- ?Hactor, <- ?Hmail.
  all: split; [reflexivity |].
  all: eexists _, _; split; [reflexivity |]; split; [reflexivity |].
  all: split; [repeat constructor |]; split; reflexivity.
Qed.

Lemma config_depends_on_three_variables_witness :
  let X := Scenario.platform Scenario.paid_session in
  let X' := Cases.other_deployment in
  let req := {| Config.method := js "GET" |} in
  run X (Config.handler req) Scenario.empty_world
    = run X' (Config.handler req) Scenario.empty_world
  /\ exists response t,
       run X (Config.handler req) Scenario.empty_world
         = (Returned response, Scenario.empty_world, t)
       /\ res_headers response = Config.cors_headers
       /\ Forall (fun e => is_storage e = false /\ is_network e = false) t
       /\ res_status response
          = (if bool_decide (Config.method req = js "OPTIONS") then 200
             else if bool_decide (Config.method req = js "GET") then 200
             else 405)
       /\ res_body response
          = (if bool_decide (Config.method req = js "OPTIONS") then None
             else if bool_decide (Config.method req = js "GET")
             then Some (Config.config_object (env (Scenario.platform Scenario.paid_session) !! "APIFY_TOKEN")
                          (env (Scenario.platform Scenario.paid_session) !! "APOLLO_ACTOR_ID")
                          (env (Scenario.platform Scenario.paid_session) !! "EMAIL_WEBHOOK_URL"))
             else Some (error_body (js "Method not allowed"))).
Proof.
  apply (config_depends_on_three_variables
           (Scenario.platform Scenario.paid_session) Cases.other_deployment
           {| Config.method := js "GET" |} Scenario.empty_world);
    vm_compute; exact eq_refl.
Defined.

End ConfigProperties.

(* ================================================================== *)
(** * Properties of [cleanData]                                        *)
(* ================================================================== *)

Module NormalizerProperties.
Import Normalizer NormalizerFacts.
Local Open Scope nat_scope.

Lemma map_items_length f data out :
  map_items f data = Done out -> length out = length data.
Proof.
  revert out. induction data as [|item rest IH]; intros out H; cbn in H.
  - injection H as <-. reflexivity.
  - destruct (f item); try discriminate H.
    destruct (map_items f rest); try discriminate H.
    injection H as <-. cbn. f_equal. apply IH. reflexivity.
Qed.

Lemma cleanData_length stack h data out :
  cleanData stack h data = Done out -> length out = length data.
Proof. destruct stack; [discriminate |]. apply map_items_length. Qed.

Lemma map_items_Forall f (P : cleaned -> Prop) data out :
  (forall item c, In item data -> f item = Done c -> P c) ->
  map_items f data = Done out -> Forall P out.
Proof.
  revert out. induction data as [|item rest IH]; intros out Hf H; cbn in H.
  - injection H as <-. constructor.
  - destruct (f item) as [c| |] eqn:Hc; try discriminate H.
    destruct (map_items f rest) as [cs| |]; try discriminate H.
    injection H as <-. constructor.
    + apply (Hf item); [left; reflexivity | exact Hc].
    + apply IH; [| reflexivity]. intros i c' Hin. apply Hf. right. exact Hin.
Qed.

Lemma filter_present items :
  forallb present (filter (fun v => present v = true) items) = true.
Proof.
  induction items as [|v items IH]; [reflexivity |].
  rewrite filter_cons. destruct (decide (present v = true)) as [Hv|Hv]; [| exact IH].
  cbn. rewrite Hv. exact IH.
Qed.

(** ** The output is clean *)

Lemma clean_entries_clean recurse h es : forall props,
  (forall v out, recurse [v] = Done out ->
     Forall (fun c => is_cleaned_item c = true) out) ->
  clean_entries recurse h es = Done props ->
  is_cleaned_item (Cleaned props) = true.
Proof.
  intros props Hrec. revert props. cbn [is_cleaned_item].
  induction es as [|[key value] rest IH]; intros props H; cbn [clean_entries] in H.
  - injection H as <-. reflexivity.
  - destruct (clean_entries recurse h rest) as [more| |] eqn:Hrest.
    2,3: destruct (present value); [| discriminate H];
         destruct value as [| | | | |l]; try discriminate H;
         destruct (h l); [| destruct (filter _ items); discriminate H];
         destruct (recurse [Ref l]) as [[|[| |[|]] ?]| |]; discriminate H.
    specialize (IH more eq_refl).
    destruct (present value) eqn:Hv.
    2:{ injection H as <-. exact IH. }
    destruct value as [| |b|n|s|l]; try discriminate Hv.
    1-3: injection H as <-; cbn [forallb is_clean]; rewrite Hv; exact IH.
    destruct (h l) as [ps|items].
    + destruct (recurse [Ref l]) as [out| |] eqn:Hout; try discriminate H.
      pose proof (Hrec _ _ Hout) as Hclean.
      destruct out as [|c out]; [discriminate H |].
      apply Forall_cons in Hclean as [Hc _].
      destruct c as [v|items|[|p nested]]; try discriminate Hc.
      * injection H as <-. exact IH.
      * injection H as <-. cbn [forallb is_clean]. cbn in Hc.
        rewrite Hc. exact IH.
    + destruct (filter (fun v => present v = true) items) as [|v kept] eqn:Hf.
      * injection H as <-. exact IH.
      * injection H as <-. pose proof (filter_present items) as Hfp.
        rewrite Hf in Hfp. cbn [forallb is_clean] in *. rewrite Hfp. exact IH.
Qed.

Lemma cleanData_clean stack h : forall data out,
  cleanData stack h data = Done out ->
  Forall (fun c => is_cleaned_item c = true) out.
Proof.
  induction stack as [|deeper IH]; intros data out H; [discriminate H |].
  cbn [cleanData] in H. eapply map_items_Forall; [| exact H].
  intros item c _ Hc. unfold clean_item in Hc.
  destruct (entries h item) as [es|]; [| discriminate Hc].
  destruct (clean_entries (cleanData deeper h) h es) as [props| |] eqn:Hprops;
    try discriminate Hc.
  injection Hc as <-.
  eapply clean_entries_clean; [| exact Hprops].
  intros v out'. apply IH.
Qed.

(** X19. When [cleanData] returns, it returns one object for every item.
    In these objects no value under a key is null, undefined or the empty
    string; an object under a key has been cleaned in the same way and has
    at least one key; an array under a key has at least one element and no
    element that is null, undefined or the empty string.  The elements of
    an array are only tested against these three values: what an element
    holds is not cleaned. *)
Theorem cleanData_output_is_clean stack h data out :
  cleanData stack h data = Done out ->
  length out = length data
  /\ Forall (fun c => is_cleaned_item c = true) out.
Proof.
  intros H. split; [eapply cleanData_length | eapply cleanData_clean]; exact H.
Qed.

Lemma cleanData_output_is_clean_witness :
  length [Cleaned [(js "c", Cleaned [(js "d", Kept (Str (js "x")))]);
                   (js "f", KeptArray [Num 1%Z])]]
  = length [Ref 0]
  /\ Forall (fun c => is_cleaned_item c = true)
       [Cleaned [(js "c", Cleaned [(js "d", Kept (Str (js "x")))]);
                 (js "f", KeptArray [Num 1%Z])]].
Proof.
  apply (cleanData_output_is_clean 2 example_heap [Ref 0]). reflexivity.
Defined.

(** ** Keys and values come from the input *)

Lemma clean_entries_keys recurse h es : forall props,
  (forall v out, recurse [v] = Done out ->
     Forall (fun c => is_cleaned_item c = true) out) ->
  clean_entries recurse h es = Done props ->
  sublist (fst <$> props) (fst <$> es)
  /\ forall key v, In (key, Kept v) props -> In (key, v) es.
Proof.
  intros props Hrec. revert props.
  induction es as [|[key value] rest IH]; intros props H; cbn [clean_entries] in H.
  - injection H as <-. split; [constructor | intros ? ? []].
  - destruct (clean_entries recurse h rest) as [more| |] eqn:Hrest.
    2,3: destruct (present value); [| discriminate H];
         destruct value as [| | | | |l]; try discriminate H;
         destruct (h l); [| destruct (filter _ items); discriminate H];
         destruct (recurse [Ref l]) as [[|[| |[|]] ?]| |]; discriminate H.
    destruct (IH more eq_refl) as [Hsub Hkept].
    assert (Hdrop : props = more ->
              sublist (fst <$> props) (fst <$> (key, value) :: rest)
              /\ forall k v, In (k, Kept v) props -> In (k, v) ((key, value) :: rest)).
    { intros ->. split; [cbn; apply sublist_cons, Hsub |].
      intros k v Hin. right. apply Hkept, Hin. }
    assert (Hkeep : forall c, (forall v, c = Kept v -> v = value) ->
              props = (key, c) :: more ->
              sublist (fst <$> props) (fst <$> (key, value) :: rest)
              /\ forall k v, In (k, Kept v) props -> In (k, v) ((key, value) :: rest)).
    { intros c Hc ->. split; [cbn; apply sublist_skip, Hsub |].
      intros k v [Heq|Hin]; [| right; apply Hkept, Hin].
      injection Heq as <- ->. left. rewrite (Hc v eq_refl). reflexivity. }
    destruct (present value) eqn:Hv.
    2:{ injection H as <-. apply Hdrop. reflexivity. }
    destruct value as [| |b|n|s|l]; try discriminate Hv.
    1-3: injection H as <-; eapply Hkeep; [| reflexivity]; intros v [= <-]; reflexivity.
    destruct (h l) as [ps|items].
    + destruct (recurse [Ref l]) as [[|c out]| |] eqn:Hout; try discriminate H.
      pose proof (Hrec _ _ Hout) as Hclean. apply Forall_cons in Hclean as [Hc _].
      destruct c as [v|items|[|p nested]]; try discriminate Hc; injection H as <-.
      * apply Hdrop. reflexivity.
      * eapply Hkeep; [| reflexivity]. intros v [=].
    + destruct (filter (fun v => present v = true) items) as [|v kept];
        injection H as <-.
      * apply Hdrop. reflexivity.
      * eapply Hkeep; [| reflexivity]. intros v' [=].
Qed.

Lemma map_items_Forall2 f (P : jsval -> cleaned -> Prop) data out :
  (forall item c, f item = Done c -> P item c) ->
  map_items f data = Done out -> Forall2 P data out.
Proof.
  intros Hf. revert out. induction data as [|item rest IH]; intros out H; cbn in H.
  - injection H as <-. constructor.
  - destruct (f item) as [c| |] eqn:Hc; try discriminate H.
    destruct (map_items f rest) as [cs| |]; try discriminate H.
    injection H as <-. constructor; [apply Hf, Hc | apply IH; reflexivity].
Qed.

(** X20. [cleanData] invents nothing: every object it returns has only keys of
    the item it was made from, in the same order, and its values that are
    not arrays or objects are those of the item, unchanged. *)
Theorem cleanData_keeps_keys_and_values stack h data out :
  cleanData stack h data = Done out ->
  Forall2 (comes_from h) data out.
Proof.
  destruct stack as [|deeper]; [discriminate |]. cbn [cleanData].
  apply map_items_Forall2. intros item c Hc. unfold clean_item in Hc.
  unfold comes_from, item_keys.
  destruct (entries h item) as [es|]; [| discriminate Hc].
  destruct (clean_entries (cleanData deeper h) h es) as [props| |] eqn:Hprops;
    try discriminate Hc.
  injection Hc as <-.
  destruct (clean_entries_keys (cleanData deeper h) h es props) as [Hsub Hkept].
  { intros v out'. apply cleanData_clean. }
  { exact Hprops. }
  split; [exact Hsub |].
  intros key v es' props' [= <-] [= <-]. apply Hkept.
Qed.

Lemma cleanData_keeps_keys_and_values_witness :
  Forall2 (comes_from example_heap) [Ref 0]
    [Cleaned [(js "c", Cleaned [(js "d", Kept (Str (js "x")))]);
              (js "f", KeptArray [Num 1%Z])]].
Proof.
  apply (cleanData_keeps_keys_and_values 2 example_heap [Ref 0]). reflexivity.
Defined.

(** ** The TypeError *)

Lemma clean_entries_no_type_error recurse h es :
  (forall l, recurse [Ref l] <> ThrowsTypeError) ->
  (forall l, recurse [Ref l] <> Done []) ->
  clean_entries recurse h es <> ThrowsTypeError.
Proof.
  intros Hrec Hnil. induction es as [|[key value] rest IH]; [discriminate |].
  cbn [clean_entries].
  destruct (clean_entries recurse h rest) as [more| |]; [| contradiction |].
  - destruct (present value); [| discriminate].
    destruct value as [| | | | |l]; try discriminate.
    destruct (h l) as [ps|items]; [| destruct (filter _ items); discriminate].
    specialize (Hrec l). specialize (Hnil l).
    destruct (recurse [Ref l]) as [[|[| |[|]] ?]| |]; try discriminate; contradiction.
  - destruct (present value); [| discriminate].
    destruct value as [| | | | |l]; try discriminate.
    destruct (h l) as [ps|items]; [| destruct (filter _ items); discriminate].
    specialize (Hrec l). specialize (Hnil l).
    destruct (recurse [Ref l]) as [[|[| |[|]] ?]| |]; try discriminate; contradiction.
Qed.

Lemma map_items_type_error f data :
  map_items f data = ThrowsTypeError ->
  exists item, In item data /\ f item = ThrowsTypeError.
Proof.
  induction data as [|item rest IH]; intros H; cbn in H; [discriminate H |].
  destruct (f item) as [c| |] eqn:Hc; try discriminate H.
  - destruct (map_items f rest) as [cs| |]; try discriminate H.
    destruct (IH eq_refl) as (item' & Hin & Hitem). exists item'. split; [right |]; assumption.
  - exists item. split; [left; reflexivity | exact Hc].
Qed.

Lemma cleanData_type_error stack h : forall data,
  cleanData stack h data = ThrowsTypeError ->
  exists item, In item data /\ is_nullish item = true.
Proof.
  induction stack as [|deeper IH]; intros data H; [discriminate H |].
  cbn [cleanData] in H. apply map_items_type_error in H as (item & Hin & Hitem).
  exists item. split; [exact Hin |]. unfold clean_item in Hitem.
  destruct (entries h item) as [es|] eqn:He.
  - exfalso.
    destruct (clean_entries (cleanData deeper h) h es) as [props| |] eqn:Hce;
      try discriminate Hitem.
    revert Hce. apply clean_entries_no_type_error.
    + intros l Hl. apply IH in Hl as (i & [<-|[]] & Hi). discriminate Hi.
    + intros l Hl. apply cleanData_length in Hl. discriminate Hl.
  - destruct item as [| |b|n|s|l]; try reflexivity; try discriminate He.
    cbn in He. destruct (h l); discriminate He.
Qed.

Lemma map_items_nullish f data :
  (forall item, is_nullish item = true -> f item = ThrowsTypeError) ->
  (exists item, In item data /\ is_nullish item = true) ->
  forall out, map_items f data <> Done out.
Proof.
  intros Hf (item & Hin & Hitem).
  induction data as [|first rest IH]; [destruct Hin |].
  intros out. cbn [map_items]. destruct Hin as [->|Hin].
  - rewrite (Hf item Hitem). discriminate.
  - destruct (f first); try discriminate.
    specialize (IH Hin). destruct (map_items f rest) as [cs| |]; try discriminate.
    exfalso. exact (IH cs eq_refl).
Qed.

(** X21. [cleanData] throws its TypeError only for an item of the list that is
    null or undefined (a null further down is dropped, not thrown for);
    and a list that holds such an item is never cleaned: the call throws,
    or exhausts the stack on an item before it. *)
Theorem type_error_comes_from_a_nullish_item stack h data :
  (cleanData stack h data = ThrowsTypeError ->
   exists item, In item data /\ is_nullish item = true)
  /\ ((exists item, In item data /\ is_nullish item = true) ->
      forall out, cleanData stack h data <> Done out).
Proof.
  split; [apply cleanData_type_error |].
  intros Hnullish out. destruct stack as [|deeper]; [discriminate |].
  cbn [cleanData]. apply map_items_nullish; [| exact Hnullish].
  intros item Hitem. destruct item; try discriminate Hitem; reflexivity.
Qed.

End NormalizerProperties.

(* ================================================================== *)
(** * Properties of the actor                                          *)
(* ================================================================== *)

Module ActorProperties.
Import WebhookFacts Normalizer Actor.

#[local] Arguments js : simpl never.
#[local] Arguments includes : simpl never.
#[local] Arguments cleanData : simpl never.

Lemma run_task_bind D {A B} (p : Task A) (f : A -> Task B) : forall ticks,
  run D (p ≫= f) ticks =
  match run D p ticks with
  | (Returned a, ticks1, t1) =>
      let '(r, ticks2, t2) := run D (f a) ticks1 in (r, ticks2, t1 ++ t2)
  | (Thrown e, ticks1, t1) => (Thrown e, ticks1, t1)
  end.
Proof.
  induction p as [a|e|C op k IH]; intros ticks.
  - cbn. destruct (run D (f a) ticks) as [[r w2] t2]. reflexivity.
  - reflexivity.
  - change (Vis op k ≫= f) with (Vis op (fun b => k b ≫= f)).
    cbn [run]. destruct (exec D op ticks) as [b w1]. rewrite IH.
    destruct (run D (k b) w1) as [[[a|e] w2] t]; [| reflexivity].
    destruct (run D (f a) w2) as [[r w3] t3]. reflexivity.
Qed.

Lemma run_task_try_catch D {A} (p : Task A) (handler : Exn -> Task A) : forall ticks,
  run D (try_catch p handler) ticks =
  match run D p ticks with
  | (Returned a, ticks1, t1) => (Returned a, ticks1, t1)
  | (Thrown e, ticks1, t1) =>
      let '(r, ticks2, t2) := run D (handler e) ticks1 in (r, ticks2, t1 ++ t2)
  end.
Proof.
  induction p as [a|e|C op k IH]; intros ticks.
  - reflexivity.
  - cbn. destruct (run D (handler e) ticks) as [[r w2] t2]. reflexivity.
  - cbn [try_catch run]. destruct (exec D op ticks) as [b w1]. rewrite IH.
    destruct (run D (k b) w1) as [[[a|e] w2] t]; [reflexivity |].
    destruct (run D (handler e) w2) as [[r w3] t3]. reflexivity.
Qed.

Lemma run_task_bind' D {A B} (p : Task A) (f : A -> Task B) ticks :
  run D (bind p f) ticks =
  match run D p ticks with
  | (Returned a, ticks1, t1) =>
      let '(r, ticks2, t2) := run D (f a) ticks1 in (r, ticks2, t1 ++ t2)
  | (Thrown e, ticks1, t1) => (Thrown e, ticks1, t1)
  end.
Proof. exact (run_task_bind D p f ticks). Qed.

(** ** What a trace shows *)

Lemma sent_app t1 t2 : sent (t1 ++ t2) = sent t1 ++ sent t2.
Proof. apply omap_app. Qed.
Lemma posts_app t1 t2 : posts (t1 ++ t2) = posts t1 ++ posts t2.
Proof. apply omap_app. Qed.
Lemma pushed_app t1 t2 : pushed (t1 ++ t2) = pushed t1 ++ pushed t2.
Proof. apply omap_app. Qed.
Lemma scraper_calls_app t1 t2 :
  scraper_calls (t1 ++ t2) = scraper_calls t1 ++ scraper_calls t2.
Proof. apply omap_app. Qed.

(** What a composed trace shows, from what its parts show. *)
Ltac trace_parts :=
  unfold sent, posts, pushed, scraper_calls in *;
  repeat (rewrite ?omap_app;
          cbn [omap list_omap sent_of post_of pushed_of scraper_call_of app]).

Lemma quiet_app t1 t2 : quiet t1 -> quiet t2 -> quiet (t1 ++ t2).
Proof.
  intros (H1 & H2 & H3 & H4) (H5 & H6 & H7 & H8). unfold quiet.
  rewrite scraper_calls_app, sent_app, posts_app, pushed_app,
    H1, H2, H3, H4, H5, H6, H7, H8. auto.
Qed.

Lemma quiet_cons e t : quiet [e] -> quiet t -> quiet (e :: t).
Proof. apply (quiet_app [e] t). Qed.

Ltac quiet_trace := repeat split; reflexivity.

Ltac solve_quiet :=
  repeat match goal with
    | |- quiet [] => quiet_trace
    | |- quiet (_ :: _) => apply quiet_cons; [quiet_trace |]
    | |- quiet (_ ++ _) => apply quiet_app; [assumption |]
    | |- quiet _ => assumption
    end.

(** One step of a sequence: the first program runs, the rest is left. *)
Ltac step :=
  first [rewrite run_task_bind | rewrite run_task_bind'];
  cbn [run exec console_log console_warn console_error perform app]; cbv beta.

(** ** Template literals *)

Lemma run_interpolate D v ticks :
  exists r t,
    run D (interpolate v) ticks = (r, ticks, t)
    /\ quiet t /\ Forall (fun ev => is_call ev = false) t
    /\ printable D v = match r with Returned _ => true | Thrown _ => false end.
Proof.
  unfold interpolate, printable.
  destruct v as [| | | | |l];
    try (eexists _, _; split; [reflexivity |]; split; [quiet_trace |];
         split; [constructor | reflexivity]).
  cbn. destruct (to_string D (Ref l)); cbn;
    eexists _, _; (split; [reflexivity |]); (split; [quiet_trace |]);
    (split; [repeat constructor | reflexivity]).
Qed.

Lemma run_caught D (p : Task unit) ticks r ticks' t :
  run D p ticks = (r, ticks', t) ->
  run D (caught p) ticks
  = (Returned match r with Returned _ => None | Thrown e => Some e end, ticks', t).
Proof.
  intros Hrun. unfold caught. rewrite run_task_try_catch, run_task_bind, Hrun.
  destruct r; cbn; rewrite app_nil_r; reflexivity.
Qed.

(** ** [sendToWebhook] *)

Lemma run_sendToWebhook D h webhookUrl items md ticks :
  exists r t,
    run D (sendToWebhook h webhookUrl items md) ticks = (r, ticks, t)
    /\ scraper_calls t = [] /\ pushed t = []
    /\ (printable D webhookUrl = true -> sent t = [{| data := items; metadata := md |}])
    /\ (r = Returned tt
          /\ sent t = [{| data := items; metadata := md |}]
          /\ posts t = [(webhookUrl, {| data := items; metadata := md |}, true)]
        \/ (exists cause,
              r = Thrown {| message := js "Webhook delivery failed: " ++ message cause;
                            response := None |})
           /\ (sent t = [] \/ sent t = [{| data := items; metadata := md |}])
           /\ (posts t = []
               \/ posts t = [(webhookUrl, {| data := items; metadata := md |}, false)])).
Proof.
  set (payload := {| data := items; metadata := md |}).
  assert (Hcatch : forall cause ticks,
            exists t,
              run D (console_error "Webhook delivery failed:";;
                     match response cause with
                     | Some (_, _, answer) =>
                         console_error "Webhook error response:";;
                         if truthy answer then console_error "Response data:"
                         else mret tt
                     | None => mret tt
                     end;;
                     @Throw unit
                       {| message := js "Webhook delivery failed: " ++ message cause;
                          response := None |}) ticks
              = (Thrown {| message := js "Webhook delivery failed: " ++ message cause;
                           response := None |}, ticks, t)
              /\ quiet t).
  { intros cause k. destruct (response cause) as [[[st txt] answer]|]; cbn;
      [destruct (truthy answer); cbn |];
      eexists; (split; [reflexivity | quiet_trace]). }
  unfold sendToWebhook. rewrite run_task_try_catch. fold payload. cbv zeta.
  rewrite run_task_bind.
  destruct (run_interpolate D webhookUrl ticks) as (r0 & t0 & -> & Hq0 & _ & Hr0).
  destruct r0 as [[]|cause].
  2:{ destruct (Hcatch cause ticks) as (tc & -> & Hqc).
      destruct Hq0 as (Hc0 & Hs0 & Hp0 & Hd0). destruct Hqc as (Hcc & Hsc & Hpc & Hdc).
      eexists _, _. split; [reflexivity |]. trace_parts.
      rewrite Hc0, Hs0, Hp0, Hd0, Hcc, Hsc, Hpc, Hdc.
      split; [reflexivity |]. split; [reflexivity |].
      split; [intros Hprintable; rewrite Hprintable in Hr0; discriminate Hr0 |].
      right. split; [eauto |]. split; left; reflexivity. }
  destruct Hq0 as (Hc0 & Hs0 & Hp0 & Hd0).
  step. rewrite run_task_bind.
  cbn [attempt mbind Task_bind bind perform run exec].
  destruct (stringify D payload) as [cause|]; cbn [run mret Task_ret app].
  { destruct (Hcatch cause ticks) as (tc & -> & (Hcc & Hsc & Hpc & Hdc)).
    eexists _, _. split; [reflexivity |]. trace_parts.
    rewrite Hc0, Hs0, Hp0, Hd0, Hcc, Hsc, Hpc, Hdc.
    split; [reflexivity |]. split; [reflexivity |]. split; [reflexivity |].
    right. split; [eauto |]. split; [right | left]; reflexivity. }
  step. rewrite run_task_bind.
  assert (Hlength : exists r1 t1,
            run D match items_length h items with
                  | Some n => interpolate n
                  | None =>
                      Throw (new_Error
                               "Cannot read properties of undefined (reading 'length')")
                  end ticks = (r1, ticks, t1)
            /\ quiet t1).
  { destruct (items_length h items) as [n|].
    - destruct (run_interpolate D n ticks) as (r1 & t1 & H1 & Hq1 & _). eauto.
    - eexists _, _. split; [reflexivity | quiet_trace]. }
  destruct Hlength as (r1 & t1 & -> & (Hc1 & Hs1 & Hp1 & Hd1)).
  destruct r1 as [[]|cause].
  2:{ destruct (Hcatch cause ticks) as (tc & -> & (Hcc & Hsc & Hpc & Hdc)).
      eexists _, _. split; [reflexivity |]. trace_parts.
      rewrite Hc0, Hs0, Hp0, Hd0, Hc1, Hs1, Hp1, Hd1, Hcc, Hsc, Hpc, Hdc.
      split; [reflexivity |]. split; [reflexivity |]. split; [reflexivity |].
      right. split; [eauto |]. split; [right | left]; reflexivity. }
  step. rewrite run_task_bind.
  cbn [await mbind Task_bind bind perform run exec].
  destruct (axios_post D webhookUrl payload) as [cause|resp]; cbn [run mret Task_ret app].
  { destruct (Hcatch cause ticks) as (tc & -> & (Hcc & Hsc & Hpc & Hdc)).
    eexists _, _. split; [reflexivity |]. trace_parts.
    rewrite Hc0, Hs0, Hp0, Hd0, Hc1, Hs1, Hp1, Hd1, Hcc, Hsc, Hpc, Hdc.
    split; [reflexivity |]. split; [reflexivity |]. split; [reflexivity |].
    right. split; [eauto |]. split; right; reflexivity. }
  destruct (truthy (response_data resp)); cbn;
    destruct ((200 <=? status resp) && (status resp <? 300)); cbn;
    eexists _, _; (split; [reflexivity |]); trace_parts;
    rewrite Hc0, Hs0, Hp0, Hd0, Hc1, Hs1, Hp1, Hd1;
    (split; [reflexivity |]); (split; [reflexivity |]); (split; [reflexivity |]);
    left; repeat split; reflexivity.
Qed.


Section Runs.
Context (D : Deployment) (CONFIG : Config) (stack : nat) (h : heap).

Lemma run_logged v text ticks :
  exists r t,
    run D (interpolate v;; console_log text) ticks = (r, ticks, t) /\ quiet t.
Proof.
  rewrite run_task_bind.
  destruct (run_interpolate D v ticks) as ([[]|e] & t & -> & Hq & _).
  - cbn. eexists _, _. split; [reflexivity | solve_quiet].
  - eauto.
Qed.

Lemma run_assigned items text ticks :
  exists r t, run D (assigned h items text) ticks = (Returned r, ticks, t) /\ quiet t.
Proof.
  unfold assigned. destruct (length_of h items) as [n|].
  2:{ eexists _, _. split; [reflexivity | quiet_trace]. }
  rewrite run_task_bind.
  destruct (run_logged n text ticks) as (r & t & Hrun & Hq).
  rewrite (run_caught D _ _ _ _ _ Hrun). cbn [run mret Task_ret].
  eexists _, _. split; [reflexivity |]. rewrite app_nil_r. exact Hq.
Qed.

Lemma run_from_own_dataset scrapedData ticks :
  exists r t,
    run D (from_own_dataset h scrapedData) ticks = (r, ticks, t) /\ quiet t.
Proof.
  unfold from_own_dataset.
  cbn [attempt await mbind Task_bind bind perform run exec mret Task_ret].
  destruct (open_dataset D); cbn [bind run exec mret Task_ret];
    [eexists _, _; split; [reflexivity | quiet_trace] |].
  destruct (dataset_info D) as [e|[n|]]; cbn [bind run exec mret Task_ret];
    try (eexists _, _; split; [reflexivity | quiet_trace]).
  destruct (0 <? n); cbn [bind run exec mret Task_ret];
    [| eexists _, _; split; [reflexivity | quiet_trace]].
  destruct (dataset_data D) as [e|result]; cbn [bind run exec mret Task_ret];
    [eexists _, _; split; [reflexivity | quiet_trace] |].
  destruct (nullish result); cbn [bind run exec mret Task_ret];
    [eexists _, _; split; [reflexivity | quiet_trace] |].
  first [rewrite run_task_bind | rewrite run_task_bind'].
  destruct (run_assigned (prop h (js "items") result)
              "Retrieved items from our dataset" ticks)
    as ([s [e|]] & t & -> & Hq);
    cbn [run mret Task_ret]; eexists _, _; (split; [reflexivity |]);
    rewrite ?app_nil_r; solve_quiet.
Qed.

Lemma run_from_dataset_url datasetId scrapedData ticks :
  exists r t,
    run D (from_dataset_url CONFIG h datasetId scrapedData) ticks
      = (Returned r, ticks, t)
    /\ quiet t.
Proof.
  unfold from_dataset_url. rewrite run_task_bind.
  assert (Hurl : exists r t,
            run D (interpolate datasetId;; interpolate (APIFY_TOKEN CONFIG);;
                   console_log "Fetching data from:") ticks = (r, ticks, t)
            /\ quiet t).
  { rewrite run_task_bind.
    destruct (run_interpolate D datasetId ticks) as ([[]|e] & t & -> & Hq & _);
      [| eauto].
    destruct (run_logged (APIFY_TOKEN CONFIG) "Fetching data from:" ticks)
      as (r & t' & -> & Hq').
    eexists _, _. split; [reflexivity | solve_quiet]. }
  destruct Hurl as (r & t & Hrun & Hq).
  rewrite (run_caught D _ _ _ _ _ Hrun).
  destruct r as [[]|e]; cbn [run mret Task_ret];
    [| eexists _, _; split; [reflexivity | rewrite app_nil_r; exact Hq]].
  rewrite run_task_bind. cbn [perform run exec app].
  destruct (axios_get D datasetId _) as [e|answer]; cbn [run mret Task_ret];
    [eexists _, _; split; [reflexivity | solve_quiet] |].
  destruct (run_assigned answer "Retrieved items from external actor's dataset" ticks)
    as (r & t' & -> & Hq').
  eexists _, _. split; [reflexivity | solve_quiet].
Qed.

Lemma run_from_client datasetId scrapedData ticks :
  exists r t,
    run D (from_client h datasetId scrapedData) ticks = (Returned r, ticks, t)
    /\ quiet t.
Proof.
  unfold from_client. rewrite run_task_bind. cbn [perform run exec app].
  destruct (list_items D datasetId) as [e|result]; cbn [run mret Task_ret];
    [eexists _, _; split; [reflexivity | quiet_trace] |].
  destruct (nullish result); cbn [run mret Task_ret];
    [eexists _, _; split; [reflexivity | quiet_trace] |].
  destruct (run_assigned (prop h (js "items") result)
              "Retrieved items using Apify client" ticks) as (r & t & -> & Hq).
  eexists _, _. split; [reflexivity | solve_quiet].
Qed.

Lemma run_retrieve apolloRun ticks :
  exists r t, run D (retrieve CONFIG h apolloRun) ticks = (r, ticks, t) /\ quiet t.
Proof.
  unfold retrieve.
  destruct (truthy apolloRun && truthy (prop h (js "defaultDatasetId") apolloRun)).
  2:{ step. destruct (run_from_own_dataset Initial ticks) as (r & t & -> & Hq).
      eexists _, _. split; [reflexivity | solve_quiet]. }
  rewrite run_task_bind.
  destruct (run_interpolate D (prop h (js "defaultDatasetId") apolloRun) ticks)
    as ([[]|e0] & t0 & -> & Hq0 & _); [| eauto].
  step. step.
  destruct (run_from_dataset_url (prop h (js "defaultDatasetId") apolloRun) Initial ticks)
    as ([s1 [e1|]] & t1 & -> & Hq1).
  2:{ cbn. eexists _, _. split; [reflexivity | solve_quiet]. }
  step. step. step.
  destruct (run_from_client (prop h (js "defaultDatasetId") apolloRun) s1 ticks)
    as ([s2 [e2|]] & t2 & -> & Hq2).
  2:{ cbn. eexists _, _. split; [reflexivity | solve_quiet]. }
  step. step.
  destruct (run_from_own_dataset s2 ticks) as (r & t3 & -> & Hq3).
  eexists _, _. split; [reflexivity | solve_quiet].
Qed.

Lemma run_clean scraped ticks :
  exists r,
    run D (clean stack h scraped) ticks = (r, ticks, [])
    /\ match r with
       | Returned items =>
           exists cs, items = CleanedItems cs
                      /\ Forall (fun c => is_cleaned_item c = true) cs
       | Thrown _ => True
       end.
Proof.
  unfold clean.
  destruct scraped as [| | | | |l]; try (eexists; split; [reflexivity | exact I]).
  destruct (h l) as [props|items]; [eexists; split; [reflexivity | exact I] |].
  destruct (cleanData stack h items) as [cs| |] eqn:Hclean;
    try (eexists; split; [reflexivity | exact I]).
  eexists. split; [reflexivity |]. exists cs. split; [reflexivity |].
  eapply NormalizerProperties.cleanData_clean. exact Hclean.
Qed.

Lemma nothing_scraped_false v : nothing_scraped h (Got v) = false -> truthy v = true.
Proof.
  cbn. destruct (truthy v); [reflexivity | discriminate].
Qed.

Lemma run_deliver apolloRun fileName cleanOutput target ticks :
  printable D target = true ->
  exists r ticks' t,
    run D (deliver CONFIG stack h apolloRun fileName cleanOutput target) ticks
      = (r, ticks', t)
    /\ scraper_calls t = []
    /\ Delivery target cleanOutput r t.
Proof.
  intros Hprintable.
  unfold deliver. do 4 step. rewrite run_task_bind.
  destruct (run_retrieve apolloRun ticks) as (r1 & t1 & -> & Hc1 & Hs1 & Hp1 & Hd1).
  destruct r1 as [scrapedData|e].
  2:{ eexists _, _, _. split; [reflexivity |].
      split; [trace_parts; rewrite Hc1; reflexivity |].
      apply nothing_sent; trace_parts; rewrite ?Hs1, ?Hp1, ?Hd1; reflexivity. }
  destruct (nothing_scraped h scrapedData) eqn:Hnothing.
  - step. rewrite run_task_bind. cbn [run exec perform].
    match goal with
    | |- context [sendToWebhook h target NoItems ?md] =>
        destruct (run_sendToWebhook D h target NoItems md (S ticks))
          as (r2 & t2 & -> & Hc2 & Hd2 & Hs2 & Hcase)
    end.
    specialize (Hs2 Hprintable).
    eexists _, _, _. split; [reflexivity |].
    split; [trace_parts; rewrite Hc1, Hc2; reflexivity |].
    destruct Hcase as [(-> & _ & Hp2) | ((cause & ->) & _ & Hp2)].
    + eapply nothing_found; trace_parts; rewrite ?Hs1, ?Hp1, ?Hd1, ?Hs2, ?Hp2, ?Hd2;
        reflexivity.
    + eapply not_accepted; trace_parts; rewrite ?Hs1, ?Hp1, ?Hd1, ?Hs2, ?Hd2;
        try reflexivity; [| discriminate].
      destruct Hp2 as [-> | ->]; [left | right]; reflexivity.
  - destruct scrapedData as [|scraped]; [discriminate Hnothing |].
    apply nothing_scraped_false in Hnothing.
    rewrite run_task_bind.
    assert (Hprocessed : exists r3 t3,
              run D (if truthy cleanOutput
                     then console_log "Cleaning output data...";; clean stack h scraped
                     else mret (Raw scraped)) ticks = (r3, ticks, t3)
              /\ quiet t3
              /\ match r3 with
                 | Returned items => follows_flag cleanOutput items
                 | Thrown _ => True
                 end).
    { unfold follows_flag. destruct (truthy cleanOutput).
      - step. destruct (run_clean scraped ticks) as (r3 & -> & H3).
        eexists _, _. split; [reflexivity |]. split; [solve_quiet |].
        destruct r3; exact H3.
      - eexists _, _. split; [reflexivity |]. split; [solve_quiet |]. eauto. }
    destruct Hprocessed as (r3 & t3 & -> & (Hc3 & Hs3 & Hp3 & Hd3) & Hflag).
    destruct r3 as [processedData|e].
    2:{ eexists _, _, _. split; [reflexivity |].
        split; [trace_parts; rewrite Hc1, Hc3; reflexivity |].
        apply nothing_sent; trace_parts; rewrite ?Hs1, ?Hp1, ?Hd1, ?Hs3, ?Hp3, ?Hd3;
          reflexivity. }
    destruct (items_length h processedData) as [count|].
    2:{ eexists _, _, _. split; [reflexivity |].
        split; [trace_parts; rewrite Hc1, Hc3; reflexivity |].
        apply nothing_sent; trace_parts; rewrite ?Hs1, ?Hp1, ?Hd1, ?Hs3, ?Hp3, ?Hd3;
          reflexivity. }
    rewrite run_task_bind.
    destruct (run_interpolate D count ticks)
      as ([[]|e] & t4 & -> & (Hc4 & Hs4 & Hp4 & Hd4) & _).
    2:{ eexists _, _, _. split; [reflexivity |].
        split; [trace_parts; rewrite Hc1, Hc3, Hc4; reflexivity |].
        apply nothing_sent; trace_parts;
          rewrite ?Hs1, ?Hp1, ?Hd1, ?Hs3, ?Hp3, ?Hd3, ?Hs4, ?Hp4, ?Hd4; reflexivity. }
    step. rewrite run_task_bind. cbn [run exec perform]. rewrite run_task_bind.
    match goal with
    | |- context [sendToWebhook h target processedData ?md] =>
        destruct (run_sendToWebhook D h target processedData md (S ticks))
          as (r2 & t2 & -> & Hc2 & Hd2 & Hs2 & Hcase)
    end.
    specialize (Hs2 Hprintable).
    destruct Hcase as [(-> & _ & Hp2) | ((cause & ->) & _ & Hp2)].
    2:{ eexists _, _, _. split; [reflexivity |].
        split; [trace_parts; rewrite Hc1, Hc2, Hc3, Hc4; reflexivity |].
        eapply not_accepted; trace_parts;
          rewrite ?Hs1, ?Hp1, ?Hd1, ?Hs2, ?Hd2, ?Hs3, ?Hp3, ?Hd3, ?Hs4, ?Hp4, ?Hd4;
          try reflexivity; [| intros _; exact Hflag].
        destruct Hp2 as [-> | ->]; [left | right]; reflexivity. }
    step. rewrite run_task_bind.
    cbn [attempt mbind Task_bind bind perform run exec mret Task_ret].
    destruct (push_data D processedData) as [cause|].
    + eexists _, _, _. split; [reflexivity |].
      split; [trace_parts; rewrite Hc1, Hc2, Hc3, Hc4; reflexivity |].
      eapply not_saved; trace_parts;
        rewrite ?Hs1, ?Hp1, ?Hd1, ?Hs2, ?Hp2, ?Hd2, ?Hs3, ?Hp3, ?Hd3, ?Hs4, ?Hp4, ?Hd4;
        try reflexivity; exact Hflag.
    + cbn. eexists _, _, _. split; [reflexivity |].
      split; [trace_parts; rewrite Hc1, Hc2, Hc3, Hc4; reflexivity |].
      eapply delivered_and_saved; trace_parts;
        rewrite ?Hs1, ?Hp1, ?Hd1, ?Hs2, ?Hp2, ?Hd2, ?Hs3, ?Hp3, ?Hd3, ?Hs4, ?Hp4, ?Hd4;
        try reflexivity; exact Hflag.
Qed.

Lemma run_report apolloRun fileName target e ticks :
  printable D target = true ->
  exists ticks' t payload,
    run D (report CONFIG h apolloRun fileName target e) ticks = (Thrown e, ticks', t)
    /\ scraper_calls t = [] /\ pushed t = []
    /\ sent t = [payload]
    /\ is_report_of e payload = true
    /\ (posts t = [] \/ exists answered, posts t = [(target, payload, answered)]).
Proof.
  intros Hprintable.
  unfold report. step. rewrite run_task_bind, run_task_try_catch.
  rewrite run_task_bind. cbn [run exec perform]. rewrite run_task_bind.
  match goal with
  | |- context [sendToWebhook h target NoItems ?md] =>
      destruct (run_sendToWebhook D h target NoItems md (S ticks))
        as (r2 & t2 & -> & Hc2 & Hd2 & Hs2 & Hcase)
  end.
  specialize (Hs2 Hprintable).
  assert (Hreport : forall ts a b c d,
            is_report_of e {| data := NoItems;
                              metadata := Failed (message e) fileName ts a b c d |}
            = true).
  { intros. cbn. apply bool_decide_eq_true_2. reflexivity. }
  destruct Hcase as [(-> & _ & Hp2) | ((cause & ->) & _ & Hp2)];
    cbn; eexists _, _, _; (split; [reflexivity |]);
    trace_parts; rewrite Hc2, Hd2, Hs2; repeat split; auto.
  - rewrite Hp2. eauto.
  - destruct Hp2 as [-> | ->]; eauto.
Qed.

(** ** [main] *)

Lemma run_warnings ticks :
  exists t,
    run D (if negb (isConfigured (config_status D))
           then console_warn "Configuration issues found:";;
                warn_each (errors (config_status D))
           else mret tt) ticks = (Returned tt, ticks, t)
    /\ quiet t /\ Forall (fun ev => is_call ev = false) t.
Proof.
  destruct (isConfigured (config_status D)); cbn [negb].
  { eexists. split; [reflexivity |]. split; [solve_quiet | constructor]. }
  step. induction (errors (config_status D)) as [|err errs IH].
  - eexists. split; [reflexivity |]. split; [solve_quiet | repeat constructor].
  - cbn [warn_each]. step.
    destruct (run D (warn_each errs) ticks) as [[r ticks'] t'].
    destruct IH as (t0 & [= -> -> <-] & Hq & Hall).
    apply Forall_cons in Hall as [_ Hall].
    assert (Hq' : quiet t').
    { destruct Hq as (H1 & H2 & H3 & H4). repeat split; assumption. }
    eexists. split; [reflexivity |]. split; [solve_quiet |].
    repeat constructor. exact Hall.
Qed.

(** [main] up to the checks of its input. *)
Lemma run_main_start given :
  input D = inr given ->
  exists t0,
    quiet t0 /\ Forall (fun ev => is_call ev = false) t0
    /\ forall r ticks t,
         run D (checked CONFIG stack h given) 0 = (r, ticks, t) ->
         run D (main CONFIG stack h) 0 = (r, ticks, t0 ++ t).
Proof.
  intros Hinput. destruct (run_warnings 0) as (tw & Hwarn & Hqw & Hcw).
  exists (Ev (Console ConsoleLog
                "Starting Apollo Scraper with Automated Webhook Integration") ()
          :: Ev GetConfigStatus (config_status D)
          :: tw ++ [Ev GetInput (inr given); Ev (Console ConsoleLog "Input received:") ()]).
  split; [solve_quiet; quiet_trace |].
  split.
  { repeat (apply Forall_cons; split; [reflexivity |]).
    apply Forall_app. split; [exact Hcw | repeat constructor]. }
  intros r ticks t Hrun. unfold main. step. step. step. rewrite Hwarn.
  step. cbn [await mbind Task_bind bind perform run exec]. rewrite Hinput.
  cbn [run mret Task_ret]. step. rewrite Hrun. cbn. rewrite <- !app_assoc. reflexivity.
Qed.

(** The four lines that announce the run. *)
Lemma run_announce (a b c d : jsval) (p : Task unit) ticks :
  exists t0,
    quiet t0 /\ Forall (fun ev => is_call ev = false) t0
    /\ if printable D a && printable D b && printable D c && printable D d
       then forall r ticks' t,
              run D p ticks = (r, ticks', t) ->
              run D (interpolate a;; console_log "Target: leads from Apollo";;
                     interpolate b;; console_log "File name:";;
                     interpolate c;; console_log "Clean output:";;
                     interpolate d;; console_log "Webhook URL:";; p) ticks
              = (r, ticks', t0 ++ t)
       else exists e,
              run D (interpolate a;; console_log "Target: leads from Apollo";;
                     interpolate b;; console_log "File name:";;
                     interpolate c;; console_log "Clean output:";;
                     interpolate d;; console_log "Webhook URL:";; p) ticks
              = (Thrown e, ticks, t0).
Proof.
  rewrite run_task_bind.
  destruct (run_interpolate D a ticks) as ([[]|ea] & ta & -> & Hqa & Hca & ->);
    cbn [andb]; [| exists ta; eauto].
  step. rewrite run_task_bind.
  destruct (run_interpolate D b ticks) as ([[]|eb] & tb & -> & Hqb & Hcb & ->);
    cbn [andb].
  2:{ eexists. split; [| split; [| eexists; reflexivity]].
      - solve_quiet.
      - apply Forall_app. split; [exact Hca |]. constructor; [reflexivity | exact Hcb]. }
  step. rewrite run_task_bind.
  destruct (run_interpolate D c ticks) as ([[]|ec] & tc & -> & Hqc & Hcc & ->);
    cbn [andb].
  2:{ eexists. split; [| split; [| eexists; reflexivity]].
      - solve_quiet.
      - apply Forall_app. split; [exact Hca |]. constructor; [reflexivity |].
        apply Forall_app. split; [exact Hcb |]. constructor; [reflexivity | exact Hcc]. }
  step. rewrite run_task_bind.
  destruct (run_interpolate D d ticks) as ([[]|ed] & td & -> & Hqd & Hcd & ->);
    cbn [andb].
  2:{ eexists. split; [| split; [| eexists; reflexivity]].
      - solve_quiet.
      - apply Forall_app. split; [exact Hca |]. constructor; [reflexivity |].
        apply Forall_app. split; [exact Hcb |]. constructor; [reflexivity |].
        apply Forall_app. split; [exact Hcc |]. constructor; [reflexivity | exact Hcd]. }
  step.
  exists (ta ++ Ev (Console ConsoleLog "Target: leads from Apollo") ()
          :: tb ++ Ev (Console ConsoleLog "File name:") ()
          :: tc ++ Ev (Console ConsoleLog "Clean output:") ()
          :: td ++ [Ev (Console ConsoleLog "Webhook URL:") ()]).
  split; [solve_quiet; quiet_trace |]. split.
  { apply Forall_app. split; [exact Hca |]. constructor; [reflexivity |].
    apply Forall_app. split; [exact Hcb |]. constructor; [reflexivity |].
    apply Forall_app. split; [exact Hcc |]. constructor; [reflexivity |].
    apply Forall_app. split; [exact Hcd |]. repeat constructor. }
  intros r ticks' t ->. cbn [app].
  repeat (rewrite <- ?app_assoc; cbn [app]). reflexivity.
Qed.

Lemma run_checked_rejected given :
  valid_input D CONFIG h given = false ->
  exists e t,
    run D (checked CONFIG stack h given) 0 = (Thrown e, 0%nat, t)
    /\ quiet t /\ Forall (fun ev => is_call ev = false) t.
Proof.
  unfold valid_input, checked, input_url, input_webhookUrl, input_totalRecords,
    input_fileName, input_cleanOutput. cbv zeta.
  intros Hinvalid.
  destruct (nullish given);
    [eexists _, _; split; [reflexivity |]; split; [solve_quiet | constructor] |].
  destruct (truthy (prop h (js "url") given)); cbn [negb];
    [| eexists _, _; split; [reflexivity |]; split; [solve_quiet | constructor]].
  destruct (js_includes h (js "app.apollo.io") (prop h (js "url") given)) as [[|]|].
  2,3: eexists _, _; (split; [reflexivity |]); split; [solve_quiet | constructor].
  destruct (truthy (or_else _ _)); cbn [negb orb];
    [| eexists _, _; split; [reflexivity |]; split; [solve_quiet | constructor]].
  destruct (is_string _ _);
    [eexists _, _; split; [reflexivity |]; split; [solve_quiet | constructor] |].
  cbn [negb andb] in Hinvalid. step.
  destruct (url_parses D _); cbn [negb andb] in Hinvalid |- *.
  2:{ eexists _, _. split; [reflexivity |]. split; [solve_quiet | repeat constructor]. }
  match goal with
  | |- context [run D (interpolate ?a;; _;; interpolate ?b;; _;; interpolate ?c;; _;;
                       interpolate ?d;; _;; ?p) ?k] =>
      destruct (run_announce a b c d p k) as (t0 & Hq0 & Hc0 & Hrun)
  end.
  rewrite Hinvalid in Hrun. destruct Hrun as [e ->].
  eexists _, _. split; [reflexivity |].
  split; [solve_quiet | constructor; [reflexivity | exact Hc0]].
Qed.

Lemma run_checked_valid given :
  valid_input D CONFIG h given = true ->
  exists t0,
    quiet t0
    /\ forall r ticks t,
         run D (workflow CONFIG stack h (input_url h given)
                  (input_totalRecords CONFIG h given) (input_fileName CONFIG h given)
                  (input_cleanOutput CONFIG h given) (input_webhookUrl CONFIG h given)) 0
           = (r, ticks, t) ->
         run D (checked CONFIG stack h given) 0 = (r, ticks, t0 ++ t).
Proof.
  unfold valid_input, checked, input_url, input_webhookUrl, input_totalRecords,
    input_fileName, input_cleanOutput. cbv zeta.
  intros Hvalid.
  destruct (nullish given); [discriminate Hvalid |].
  destruct (truthy (prop h (js "url") given)); [| discriminate Hvalid].
  destruct (js_includes h (js "app.apollo.io") (prop h (js "url") given)) as [[|]|];
    try discriminate Hvalid.
  destruct (truthy (or_else _ _)); [| discriminate Hvalid].
  destruct (is_string _ _); [discriminate Hvalid |].
  cbn [negb andb orb] in Hvalid |- *.
  destruct (url_parses D _) eqn:Hparses; [| discriminate Hvalid].
  cbn [andb] in Hvalid.
  match goal with
  | |- context [run D (workflow CONFIG stack h ?u ?a ?b ?c ?d) 0] =>
      destruct (run_announce a b c d (workflow CONFIG stack h u a b c d) 0)
        as (t0 & Hq0 & _ & Hrun)
  end.
  rewrite Hvalid in Hrun.
  eexists (Ev (NewURL _) true :: t0). split; [solve_quiet |].
  intros r ticks t Hwork. step. rewrite Hparses. cbn [negb].
  rewrite (Hrun _ _ _ Hwork). reflexivity.
Qed.

Lemma valid_input_printable given :
  valid_input D CONFIG h given = true ->
  printable D (input_webhookUrl CONFIG h given) = true.
Proof.
  unfold valid_input. intros Hvalid. apply andb_prop in Hvalid as [_ H]. exact H.
Qed.

(** The workflow: one call of the scraper, then the delivery, then, for
    everything thrown, the report. *)
Lemma run_workflow url totalRecords fileName cleanOutput target ticks :
  printable D target = true ->
  exists r ticks' t,
    run D (workflow CONFIG stack h url totalRecords fileName cleanOutput target) ticks
      = (r, ticks', t)
    /\ scraper_calls t = [(url, cleanOutput)]
    /\ exists t1 t2 r1,
         sent t = sent t1 ++ sent t2
         /\ posts t = posts t1 ++ posts t2
         /\ pushed t = pushed t1
         /\ match r1 with
            | Returned _ => r = Returned tt /\ t2 = []
            | Thrown e =>
                r = Thrown e
                /\ exists payload,
                     sent t2 = [payload] /\ is_report_of e payload = true
                     /\ (posts t2 = []
                         \/ exists answered, posts t2 = [(target, payload, answered)])
            end
         /\ Delivery target cleanOutput r1 t1.
Proof.
  intros Hprintable. unfold workflow. step. step.
  destruct (apify_call D _ url totalRecords fileName cleanOutput) as [e|apolloRun].
  - destruct (run_report Null fileName target e ticks Hprintable)
      as (ticks' & t2 & payload & -> & Hc2 & Hd2 & Hs2 & Hr2 & Hp2).
    eexists _, _, _. split; [reflexivity |].
    split; [trace_parts; rewrite Hc2; reflexivity |].
    exists [], t2, (Thrown e). trace_parts.
    rewrite Hd2. repeat split; eauto.
    apply nothing_sent; reflexivity.
  - rewrite run_task_try_catch.
    destruct (run_deliver apolloRun fileName cleanOutput target ticks Hprintable)
      as (r1 & ticks1 & t1 & -> & Hc1 & Hdelivery).
    destruct r1 as [[]|e].
    + eexists _, _, _. split; [reflexivity |].
      split; [trace_parts; rewrite Hc1; reflexivity |].
      exists t1, [], (Returned tt). trace_parts. rewrite !app_nil_r.
      repeat split; auto.
    + destruct (run_report apolloRun fileName target e ticks1 Hprintable)
        as (ticks' & t2 & payload & -> & Hc2 & Hd2 & Hs2 & Hr2 & Hp2).
      eexists _, _, _. split; [reflexivity |].
      split; [trace_parts; rewrite Hc1, Hc2; reflexivity |].
      exists t1, t2, (Thrown e). trace_parts. rewrite Hd2, app_nil_r.
      repeat split; eauto.
Qed.

Lemma run_main_rejected :
  match input D with
  | inl _ => True
  | inr given => valid_input D CONFIG h given = false
  end ->
  exists e ticks t,
    run D (main CONFIG stack h) 0 = (Thrown e, ticks, t)
    /\ quiet t /\ Forall (fun ev => is_call ev = false) t.
Proof.
  destruct (input D) as [e|given] eqn:Hinput; intros Hinvalid.
  - destruct (run_warnings 0) as (tw & Hwarn & Hqw & Hcw).
    unfold main. step. step. step. rewrite Hwarn. step.
    cbn [await mbind Task_bind bind perform run exec]. rewrite Hinput.
    cbn [run]. eexists _, _, _. split; [reflexivity |]. split.
    + solve_quiet.
    + repeat (apply Forall_cons; split; [reflexivity |]).
      apply Forall_app. split; [exact Hcw | repeat constructor].
  - destruct (run_main_start given Hinput) as (t0 & Hq0 & Hc0 & Hmain).
    destruct (run_checked_rejected given Hinvalid) as (e & t & Hrun & Hq & Hc).
    exists e, 0%nat, (t0 ++ t). split; [apply Hmain, Hrun |].
    split; [solve_quiet | apply Forall_app; split; assumption].
Qed.

Lemma run_main_valid given :
  input D = inr given ->
  valid_input D CONFIG h given = true ->
  exists r ticks t,
    run D (main CONFIG stack h) 0 = (r, ticks, t)
    /\ scraper_calls t = [(input_url h given, input_cleanOutput CONFIG h given)]
    /\ exists t1 t2 r1,
         sent t = sent t1 ++ sent t2
         /\ posts t = posts t1 ++ posts t2
         /\ pushed t = pushed t1
         /\ match r1 with
            | Returned _ => r = Returned tt /\ t2 = []
            | Thrown e =>
                r = Thrown e
                /\ exists payload,
                     sent t2 = [payload] /\ is_report_of e payload = true
                     /\ (posts t2 = []
                         \/ exists answered,
                              posts t2
                              = [(input_webhookUrl CONFIG h given, payload, answered)])
            end
         /\ Delivery (input_webhookUrl CONFIG h given)
              (input_cleanOutput CONFIG h given) r1 t1.
Proof.
  intros Hinput Hvalid.
  destruct (run_main_start given Hinput) as (t0 & (Hc0 & Hs0 & Hp0 & Hd0) & _ & Hmain).
  destruct (run_workflow (input_url h given)
              (input_totalRecords CONFIG h given) (input_fileName CONFIG h given)
              (input_cleanOutput CONFIG h given) (input_webhookUrl CONFIG h given) 0
              (valid_input_printable given Hvalid))
    as (r & ticks & t & Hrun & Hcalls & t1 & t2 & r1 & Hs & Hp & Hd & Hr & Hdelivery).
  destruct (run_checked_valid given Hvalid) as (tc & (Hcc & Hsc & Hpc & Hdc) & Hchecked).
  pose proof (Hmain _ _ _ (Hchecked _ _ _ Hrun)) as Hall.
  eexists r, ticks, _. split; [exact Hall |].
  split; [trace_parts; rewrite Hc0, Hcc, Hcalls; reflexivity |].
  exists t1, t2, r1. trace_parts. rewrite Hs0, Hp0, Hd0, Hsc, Hpc, Hdc, Hs, Hp, Hd.
  repeat split; assumption.
Qed.

End Runs.

(** X23. A bad input stops [main] before anything is called: when the input
    cannot be read, is null or undefined, has no truthy [url], has a [url]
    without an [includes] method or without "app.apollo.io", when the
    webhook URL is not set, is the placeholder or does not parse, or when
    one of the four values [main] logs does not convert to a string,
    [main] throws and neither the scraper nor the webhook nor a dataset
    has been called. *)
Theorem actor_refuses_bad_input D CONFIG stack h :
  match input D with
  | inl _ => True
  | inr given => valid_input D CONFIG h given = false
  end ->
  exists e ticks t,
    run D (main CONFIG stack h) 0 = (Thrown e, ticks, t)
    /\ Forall (fun ev => is_call ev = false) t.
Proof.
  intros Hbad.
  destruct (run_main_rejected D CONFIG stack h Hbad) as (e & ticks & t & Hrun & _ & Hc).
  eauto.
Qed.

Lemma actor_refuses_bad_input_witness :
  exists e ticks t,
    run (ActorCases.deployment (Ref 6%nat))
        (main ActorCases.CONFIG 100 ActorCases.heap) 0
      = (Thrown e, ticks, t)
    /\ Forall (fun ev => is_call ev = false) t.
Proof.
  apply (actor_refuses_bad_input (ActorCases.deployment (Ref 6%nat))
           ActorCases.CONFIG 100 ActorCases.heap).
  vm_compute. reflexivity.
Defined.

Lemma is_delivery_success payload :
  is_delivery payload = true -> success (metadata payload) = true.
Proof. unfold is_delivery. destruct (metadata payload); [discriminate | | discriminate]. reflexivity. Qed.

(** X24. On a valid input [main] calls the scraper exactly once, with the URL
    and the cleaning flag of the input.  It returns normally only when
    the last request to the webhook was answered and announced a success;
    whenever it throws, the last thing it gave [sendToWebhook] is the error
    notification for the error it throws (no items, [success: false], the
    message of that error). *)
Theorem actor_reports_every_failure D CONFIG stack h given :
  input D = inr given ->
  valid_input D CONFIG h given = true ->
  exists r ticks t,
    run D (main CONFIG stack h) 0 = (r, ticks, t)
    /\ scraper_calls t = [(input_url h given, input_cleanOutput CONFIG h given)]
    /\ match r with
       | Returned _ =>
           exists payload,
             last (posts t) = Some (input_webhookUrl CONFIG h given, payload, true)
             /\ success (metadata payload) = true
       | Thrown e =>
           exists payload,
             last (sent t) = Some payload /\ is_report_of e payload = true
       end.
Proof.
  intros Hinput Hvalid.
  destruct (run_main_valid D CONFIG stack h given Hinput Hvalid)
    as (r & ticks & t & Hrun & Hcalls & t1 & t2 & r1 & Hs & Hp & Hd & Hr & Hdelivery).
  exists r, ticks, t. split; [exact Hrun |]. split; [exact Hcalls |].
  destruct r1 as [[]|e].
  - destruct Hr as [-> ->]. rewrite Hp, app_nil_r.
    inversion Hdelivery as [t' payload Hs1 Hp1 Hd1 Hdata Hsuccess Hkind
                           | t' payload Hs1 Hp1 Hd1 Hkind Hflag | | |]; subst.
    + exists payload. rewrite Hp1. split; [reflexivity | exact Hsuccess].
    + exists payload. rewrite Hp1. split; [reflexivity |].
      apply is_delivery_success, Hkind.
  - destruct Hr as (-> & payload & Hs2 & Hreport & _).
    exists payload. rewrite Hs, Hs2, last_snoc. split; [reflexivity | exact Hreport].
Qed.

Lemma actor_reports_every_failure_witness :
  exists r ticks t,
    run (ActorCases.deployment (Ref 0%nat))
        (main ActorCases.CONFIG 100 ActorCases.heap) 0 = (r, ticks, t)
    /\ scraper_calls t
       = [(input_url ActorCases.heap (Ref 0%nat),
           input_cleanOutput ActorCases.CONFIG ActorCases.heap (Ref 0%nat))]
    /\ match r with
       | Returned _ =>
           exists payload,
             last (posts t)
             = Some (input_webhookUrl ActorCases.CONFIG ActorCases.heap (Ref 0%nat),
                     payload, true)
             /\ success (metadata payload) = true
       | Thrown e =>
           exists payload,
             last (sent t) = Some payload /\ is_report_of e payload = true
       end.
Proof.
  apply (actor_reports_every_failure (ActorCases.deployment (Ref 0%nat))
           ActorCases.CONFIG 100 ActorCases.heap (Ref 0%nat)).
  - reflexivity.
  - vm_compute. reflexivity.
Defined.



Lemma starts_with_app (a t s : jsstring) :
  starts_with (a ++ t) s = true -> starts_with t (skipn (length a) s) = true.
Proof.
  revert s. induction a as [|c a IH]; intros s; [intros H; exact H |].
  destruct s as [|d s]; [discriminate |]. cbn [app starts_with length skipn].
  intros H. apply andb_prop in H as [_ H]. apply IH, H.
Qed.

Lemma starts_with_includes (t s : jsstring) :
  starts_with t s = true -> includes t s = true.
Proof.
  intros H. destruct s as [|c s].
  - change (starts_with t [] || false = true). rewrite H. reflexivity.
  - change (starts_with t (c :: s) || includes t s = true). rewrite H. reflexivity.
Qed.

Lemma includes_skipn (t : jsstring) n (s : jsstring) :
  includes t (skipn n s) = true -> includes t s = true.
Proof.
  revert s. induction n as [|n IH]; intros s; [intros H; exact H |].
  destruct s as [|c s]; [intros H; exact H |]. cbn [skipn]. intros H.
  change (starts_with t (c :: s) || includes t s = true).
  rewrite (IH s H). apply orb_true_r.
Qed.

Lemma includes_suffix (a t s : jsstring) :
  includes (a ++ t) s = true -> includes t s = true.
Proof.
  induction s as [|c s IH].
  - change (starts_with (a ++ t) [] || false = true -> includes t [] = true).
    rewrite orb_false_r. intros H.
    apply starts_with_app in H. apply (includes_skipn t (length a)).
    apply starts_with_includes, H.
  - change (starts_with (a ++ t) (c :: s) || includes (a ++ t) s = true
            -> includes t (c :: s) = true).
    intros H. apply orb_prop in H as [H|H].
    + apply starts_with_app in H.
      apply (includes_skipn t (length a)), starts_with_includes, H.
    + change (starts_with t (c :: s) || includes t s = true).
      rewrite (IH H). apply orb_true_r.
Qed.

(** X26. The URL check of the actor is stricter than the one of the checkout.
    A string URL that passes the actor's validation contains "apollo.io",
    which is all the checkout asks for; but some URL the checkout accepts
    (one of www.apollo.io) makes every input that carries it invalid for
    the actor. *)
Theorem actor_url_check_is_stricter :
  (forall D CONFIG h given (u : jsstring),
     input_url h given = Str u ->
     valid_input D CONFIG h given = true ->
     includes (js "apollo.io") u = true)
  /\ (exists u : jsstring,
        includes (js "apollo.io") u = true
        /\ forall D CONFIG h given,
             input_url h given = Str u ->
             valid_input D CONFIG h given = false).
Proof.
  split.
  - intros D CONFIG h given u Hurl Hvalid. unfold valid_input in Hvalid.
    rewrite Hurl in Hvalid. cbn [js_includes] in Hvalid.
    repeat (apply andb_prop in Hvalid as [Hvalid ?]).
    apply (includes_suffix (js "app.") (js "apollo.io") u).
    assumption.
  - exists (js "https://www.apollo.io/pricing"). split; [vm_compute; reflexivity |].
    intros D CONFIG h given Hurl. unfold valid_input. rewrite Hurl.
    cbn [js_includes].
    replace (includes (js "app.apollo.io") (js "https://www.apollo.io/pricing"))
      with false by (vm_compute; reflexivity).
    rewrite !andb_false_r. reflexivity.
Qed.

End ActorProperties.
